(** * Admission Note Builder: retry pipeline, JSON repair and voice session

    A shallow embedding of the parts of the Admission Note Builder that carry
    algorithmic content:

    - [utils.ts]: [isValidJson], [repairTruncatedJson], [extractJsonFromText];
    - [errors.ts]: the error classes, [isRetryableError], [calculateRetryDelay],
      [getErrorMessage];
    - [api.ts] / [api.js]: [parseWithAI] and its retry loop;
    - [form-populator.ts] / the JavaScript voice module: [VoiceRecognitionManager].

    Conventions.  A JavaScript string is a sequence of UTF-16 code units; the
    embedding uses [string], one [ascii] per code unit, and therefore covers
    the strings whose code units are below 256.  JavaScript numbers that hold
    counters and status codes are [Z] or [nat]; delays are IEEE 754 binary64
    numbers, the kernel's [float], computed with the operations of the source.
    The network, the connectivity probe, [Math.random], [Math.pow] and the
    rendering of a number in a template literal are inputs of the model
    (oracles); what the code tells the outside world, its calls of the
    callbacks included, is recorded in a trace of events.  Callbacks are
    taken to return normally. *)

From Stdlib Require Import Bool Ascii String List ZArith QArith Lia.
From Stdlib Require Import DecimalString.
From Stdlib Require Floats.
Import ListNotations.

Set Warnings "-register-all".

Open Scope string_scope.
Open Scope bool_scope.

(** ** JavaScript string primitives *)

Module JsString.

(** Characters that cannot be written inside a literal here. *)
Definition DQUOTE : ascii := "034"%char.
Definition BACKSLASH : ascii := "092"%char.
Definition LF : ascii := "010"%char.

Definition str (c : ascii) : string := String c EmptyString.

Definition isEmptyString (s : string) : bool :=
  match s with EmptyString => true | String _ _ => false end.

(** [String.prototype.trim] removes WhiteSpace and LineTerminator code
    units; below 256 these are TAB, LF, VT, FF, CR, SP and NBSP. *)
Definition isTrimSpace (c : ascii) : bool :=
  let n := nat_of_ascii c in
  ((9 <=? n) && (n <=? 13))%nat || (n =? 32)%nat || (n =? 160)%nat.

Fixpoint trimStart (s : string) : string :=
  match s with
  | EmptyString => EmptyString
  | String c r => if isTrimSpace c then trimStart r else s
  end.

Fixpoint trimEnd (s : string) : string :=
  match s with
  | EmptyString => EmptyString
  | String c r =>
      let t := trimEnd r in
      if isEmptyString t && isTrimSpace c then EmptyString else String c t
  end.

Definition trim (s : string) : string := trimStart (trimEnd s).

(** [s.startsWith(p)] *)
Fixpoint startsWith (s p : string) : bool :=
  match p, s with
  | EmptyString, _ => true
  | String _ _, EmptyString => false
  | String a p', String b s' => Ascii.eqb a b && startsWith s' p'
  end.

(** [s.includes(p)] *)
Fixpoint includes (s p : string) : bool :=
  startsWith s p ||
  match s with
  | EmptyString => false
  | String _ r => includes r p
  end.

Fixpoint lastChar (s : string) : option ascii :=
  match s with
  | EmptyString => None
  | String c EmptyString => Some c
  | String _ r => lastChar r
  end.

(** [s.endsWith(c)] for a one-character argument, the only use the source
    makes of it. *)
Definition endsWithChar (s : string) (c : ascii) : bool :=
  match lastChar s with
  | Some d => Ascii.eqb d c
  | None => false
  end.

(** [s.lastIndexOf(c)] for a one-character argument: the largest index
    holding [c], or [-1]. *)
Fixpoint lastIndexOf_from (i : Z) (found : Z) (s : string) (c : ascii) : Z :=
  match s with
  | EmptyString => found
  | String d r =>
      lastIndexOf_from (i + 1) (if Ascii.eqb d c then i else found) r c
  end.

Definition lastIndexOf (s : string) (c : ascii) : Z :=
  lastIndexOf_from 0 (-1) s c.

Fixpoint take (n : nat) (s : string) : string :=
  match n, s with
  | S k, String c r => String c (take k r)
  | _, _ => EmptyString
  end.

Fixpoint drop (n : nat) (s : string) : string :=
  match n, s with
  | S k, String _ r => drop k r
  | _, _ => s
  end.

(** [s.substring(a, b)]: both indices are clamped to [0, length] and
    swapped when out of order. *)
Definition substring (s : string) (a b : Z) : string :=
  let len := Z.of_nat (String.length s) in
  let clamp := fun x => Z.min (Z.max x 0) len in
  let lo := Z.min (clamp a) (clamp b) in
  let hi := Z.max (clamp a) (clamp b) in
  take (Z.to_nat (hi - lo)) (drop (Z.to_nat lo) s).

(** [s.split(sep)] for a non-empty separator: the pieces between the
    non-overlapping occurrences of [sep], found left to right.  [skip]
    counts the characters of a matched separator still to pass over and
    [cur] holds the current piece in reverse. *)
Fixpoint rev_string (acc s : string) : string :=
  match s with
  | EmptyString => acc
  | String c r => rev_string (String c acc) r
  end.

Fixpoint split_from (sep : string) (skip : nat) (cur : string) (s : string)
  : list string :=
  match s with
  | EmptyString => [rev_string EmptyString cur]
  | String c r =>
      match skip with
      | S k => split_from sep k cur r
      | O =>
          if startsWith s sep
          then rev_string EmptyString cur
                 :: split_from sep (String.length sep - 1) EmptyString r
          else split_from sep O (String c cur) r
      end
  end.

Definition split (s sep : string) : list string :=
  split_from sep O EmptyString s.

Fixpoint repeatChar (c : ascii) (n : nat) : string :=
  match n with
  | O => EmptyString
  | S k => String c (repeatChar c k)
  end.

(** Decimal rendering of a non-negative integer, as template literals do. *)
Definition ofNat (n : nat) : string := NilEmpty.string_of_uint (Nat.to_uint n).

End JsString.
Import JsString.

(** ** JavaScript numbers

    A Number is an IEEE 754 binary64 value: [+], [*] and [/] are the
    correctly rounded operations of the kernel's [float].  [Math.min] and
    [Math.round] are written out from their definition in ECMAScript.
    [Math.pow] returns an implementation-approximated value, [Math.random]
    a draw, and the digits a template literal prints for a number are not
    all pinned down by the language: the three are taken from the
    platform. *)

Module JsNumber.
Import PrimFloat SpecFloat FloatOps.

(** The Number nearest to an integer ([3], [1000], the loop counter). *)
Definition fromZ (z : Z) : float :=
  SF2Prim (binary_normalize prec emax z 0 false).

Definition fromNat (n : nat) : float := fromZ (Z.of_nat n).

(** [Math.min(a, b)]: [NaN] if either is, and [-0] below [+0]. *)
Definition Math_min (a b : float) : float :=
  if is_nan a || is_nan b then nan
  else if ltb b a then b
  else if ltb a b then a
  else if is_zero a && get_sign b then b
  else a.

(** [Math.round(x)]: the integral Number closest to [x], the one closer to
    positive infinity when two are equally close; [-0] for [x] in
    [[-0.5, -0]]; [x] itself when it is integral, infinite or [NaN].
    A finite [x] is [m * 2^e] with its sign, and has a fraction only when
    [e] is negative. *)
Definition Math_round (x : float) : float :=
  match Prim2SF x with
  | S754_finite negative m e =>
      if (0 <=? e)%Z then x
      else
        let d := (2 ^ (- e))%Z in
        let n :=
          if negative then (- ((2 * Zpos m + d - 1) / (2 * d)))%Z
          else ((2 * Zpos m + d) / (2 * d))%Z in
        if (n =? 0)%Z then (if negative then neg_zero else zero)
        else fromZ n
  | _ => x
  end.

(** What the code takes from the platform: [Math.pow(x, y)], the value
    [Math.random()] returns during the attempt of a given index, and the
    text of a number in a template literal. *)
Record Platform : Type := mkPlatform {
  Math_pow : float -> float -> float;
  Math_random : nat -> float;
  Number_toString : float -> string
}.

End JsNumber.

(** ** [JSON.parse]

    The platform's parser, modelled after the JSON grammar of ECMA-404: a
    recursive-descent parser that returns the document and the unread rest.
    Number tokens keep their lexeme and string tokens the text between their
    quotes.  The recursion is bounded by a fuel taken from the length of the
    input: every call below the top consumes at most two units per
    character read. *)

Module Json.

Inductive json : Type :=
| JNull
| JBool (b : bool)
| JNumber (lexeme : string)
| JString (raw : string)
| JArray (items : list json)
| JObject (members : list (string * json)).

Definition isJsonSpace (c : ascii) : bool :=
  let n := nat_of_ascii c in
  (n =? 32)%nat || (n =? 9)%nat || (n =? 10)%nat || (n =? 13)%nat.

Fixpoint skip_ws (s : string) : string :=
  match s with
  | EmptyString => EmptyString
  | String c r => if isJsonSpace c then skip_ws r else s
  end.

Definition isDigit (c : ascii) : bool :=
  let n := nat_of_ascii c in ((48 <=? n) && (n <=? 57))%nat.

Definition isHex (c : ascii) : bool :=
  let n := nat_of_ascii c in
  isDigit c || ((65 <=? n) && (n <=? 70))%nat || ((97 <=? n) && (n <=? 102))%nat.

Definition isSimpleEscape (c : ascii) : bool :=
  Ascii.eqb c DQUOTE || Ascii.eqb c BACKSLASH || Ascii.eqb c "/" ||
  Ascii.eqb c "b" || Ascii.eqb c "f" || Ascii.eqb c "n" ||
  Ascii.eqb c "r" || Ascii.eqb c "t".

Definition consFst (c : ascii) (p : option (string * string))
  : option (string * string) :=
  match p with
  | Some (a, b) => Some (String c a, b)
  | None => None
  end.

(** The text after an opening quote, up to the closing one. *)
Fixpoint string_body (s : string) : option (string * string) :=
  match s with
  | EmptyString => None
  | String c r =>
      if Ascii.eqb c DQUOTE then Some (EmptyString, r)
      else if Ascii.eqb c BACKSLASH then
        match r with
        | String e r1 =>
            if isSimpleEscape e then consFst c (consFst e (string_body r1))
            else if Ascii.eqb e "u" then
              match r1 with
              | String h1 (String h2 (String h3 (String h4 r2))) =>
                  if isHex h1 && isHex h2 && isHex h3 && isHex h4
                  then consFst c (consFst e (consFst h1 (consFst h2
                         (consFst h3 (consFst h4 (string_body r2))))))
                  else None
              | _ => None
              end
            else None
        | EmptyString => None
        end
      else if (nat_of_ascii c <? 32)%nat then None
      else consFst c (string_body r)
  end.

Fixpoint digits (s : string) : string * string :=
  match s with
  | EmptyString => (EmptyString, EmptyString)
  | String c r =>
      if isDigit c then let (d, rest) := digits r in (String c d, rest)
      else (EmptyString, s)
  end.

(** A number token: an optional minus sign; a single zero or a non-zero
    digit followed by digits; an optional fraction (a dot and at least one
    digit); an optional exponent (e or E, an optional sign, at least one
    digit). *)
Definition number (s : string) : option (string * string) :=
  let (sign, s1) :=
    match s with
    | String "-" r => (str "-", r)
    | _ => (EmptyString, s)
    end in
  let intPart :=
    match s1 with
    | String "0" r => Some (str "0", r)
    | String c _ =>
        if isDigit c then Some (digits s1) else None
    | EmptyString => None
    end in
  match intPart with
  | None => None
  | Some (i, s2) =>
      let fracPart :=
        match s2 with
        | String "." r =>
            let (d, rest) := digits r in
            if isEmptyString d then None else Some (String "." d, rest)
        | _ => Some (EmptyString, s2)
        end in
      match fracPart with
      | None => None
      | Some (f, s3) =>
          let expPart :=
            match s3 with
            | String e r =>
                if Ascii.eqb e "e" || Ascii.eqb e "E" then
                  let (sg, r1) :=
                    match r with
                    | String "+" r' => (str "+", r')
                    | String "-" r' => (str "-", r')
                    | _ => (EmptyString, r)
                    end in
                  let (d, rest) := digits r1 in
                  if isEmptyString d then None
                  else Some (String e (sg ++ d), rest)
                else Some (EmptyString, s3)
            | EmptyString => Some (EmptyString, s3)
            end in
          match expPart with
          | None => None
          | Some (x, s4) => Some (sign ++ i ++ f ++ x, s4)
          end
      end
  end.

Definition literal (word : string) (v : json) (s : string)
  : option (json * string) :=
  if startsWith s word then Some (v, drop (String.length word) s) else None.

Fixpoint value (fuel : nat) (s : string) : option (json * string) :=
  match fuel with
  | O => None
  | S f =>
      match skip_ws s with
      | EmptyString => None
      | String c r as t =>
          if Ascii.eqb c "{" then
            match skip_ws r with
            | String "}" r1 => Some (JObject [], r1)
            | r1 => members f r1 []
            end
          else if Ascii.eqb c "[" then
            match skip_ws r with
            | String "]" r1 => Some (JArray [], r1)
            | r1 => elements f r1 []
            end
          else if Ascii.eqb c DQUOTE then
            match string_body r with
            | Some (raw, r1) => Some (JString raw, r1)
            | None => None
            end
          else if Ascii.eqb c "t" then literal "true" (JBool true) t
          else if Ascii.eqb c "f" then literal "false" (JBool false) t
          else if Ascii.eqb c "n" then literal "null" JNull t
          else
            match number t with
            | Some (lexeme, r1) => Some (JNumber lexeme, r1)
            | None => None
            end
      end
  end
with elements (fuel : nat) (s : string) (acc : list json)
  : option (json * string) :=
  match fuel with
  | O => None
  | S f =>
      match value f s with
      | Some (v, r) =>
          match skip_ws r with
          | String "," r1 => elements f r1 (v :: acc)
          | String "]" r1 => Some (JArray (rev (v :: acc)), r1)
          | _ => None
          end
      | None => None
      end
  end
with members (fuel : nat) (s : string) (acc : list (string * json))
  : option (json * string) :=
  match fuel with
  | O => None
  | S f =>
      match skip_ws s with
      | String c r =>
          if Ascii.eqb c DQUOTE then
            match string_body r with
            | Some (key, r1) =>
                match skip_ws r1 with
                | String ":" r2 =>
                    match value f r2 with
                    | Some (v, r3) =>
                        match skip_ws r3 with
                        | String "," r4 => members f r4 ((key, v) :: acc)
                        | String "}" r4 =>
                            Some (JObject (rev ((key, v) :: acc)), r4)
                        | _ => None
                        end
                    | None => None
                    end
                | _ => None
                end
            | None => None
            end
          else None
      | EmptyString => None
      end
  end.

(** [JSON.parse(text)]: [None] stands for the [SyntaxError] it throws. *)
Definition parse (text : string) : option json :=
  match value (2 * String.length text + 2) text with
  | Some (v, rest) => if isEmptyString (skip_ws rest) then Some v else None
  | None => None
  end.

End Json.

(** ** [utils.ts]: validity check, truncation repair, extraction *)

Module Utils.

(** [isValidJson]: whether [JSON.parse] returns. *)
Definition isValidJson (s : string) : bool :=
  match Json.parse s with
  | Some _ => true
  | None => false
  end.

(** The four variables of the counting loop of [repairTruncatedJson]. *)
Record ScanState : Type := mkScan {
  braceCount : Z;
  bracketCount : Z;
  inString : bool;
  escapeNext : bool
}.

Definition scanInit : ScanState := mkScan 0 0 false false.

(** One iteration of the loop body on character [c]. *)
Definition scanStep (st : ScanState) (c : ascii) : ScanState :=
  if escapeNext st then
    mkScan (braceCount st) (bracketCount st) (inString st) false
  else if Ascii.eqb c BACKSLASH then
    mkScan (braceCount st) (bracketCount st) (inString st) true
  else if Ascii.eqb c DQUOTE then
    mkScan (braceCount st) (bracketCount st) (negb (inString st)) false
  else if inString st then st
  else if Ascii.eqb c "{" then
    mkScan (braceCount st + 1) (bracketCount st) false false
  else if Ascii.eqb c "}" then
    mkScan (braceCount st - 1) (bracketCount st) false false
  else if Ascii.eqb c "[" then
    mkScan (braceCount st) (bracketCount st + 1) false false
  else if Ascii.eqb c "]" then
    mkScan (braceCount st) (bracketCount st - 1) false false
  else st.

Fixpoint scanFrom (st : ScanState) (s : string) : ScanState :=
  match s with
  | EmptyString => st
  | String c r => scanFrom (scanStep st c) r
  end.

Definition scan (s : string) : ScanState := scanFrom scanInit s.

(** [while (count > 0) { result += c; count--; }], by the number of
    iterations left. *)
Fixpoint appendLoop (n : nat) (c : ascii) (result : string) : string :=
  match n with
  | O => result
  | S k => appendLoop k c (result ++ str c)
  end.

Definition closeLoop (count : Z) (c : ascii) (result : string) : string :=
  appendLoop (Z.to_nat count) c result.

Definition repairTruncatedJson (jsonStr : string) : string :=
  let result := jsonStr in
  let st := scan result in
  let result :=
    if inString st then
      let lastQuote := lastIndexOf result DQUOTE in
      if (lastQuote >? 0)%Z then
        let beforeQuote := trim (substring result 0 lastQuote) in
        if endsWithChar beforeQuote ":" || endsWithChar beforeQuote ","
           || endsWithChar beforeQuote "["
        then substring result 0 lastQuote ++ "null"
        else substring result 0 (lastQuote + 1)
      else result
    else result in
  let st := scan result in
  let result := closeLoop (bracketCount st) "]" result in
  let result := closeLoop (braceCount st) "}" result in
  result.

(** [a[i]?.split(fence)[0] ?? text] *)
Definition betweenFences (text opening : string) : string :=
  match nth_error (split text opening) 1 with
  | Some piece =>
      match nth_error (split piece "```") 0 with
      | Some inner => inner
      | None => text
      end
  | None => text
  end.

Definition extractJsonFromText (text : string) : string :=
  let jsonStr :=
    if includes text "```json" then betweenFences text "```json"
    else if includes text "```" then betweenFences text "```"
    else text in
  let jsonStr := trim jsonStr in
  if negb (isValidJson jsonStr) then repairTruncatedJson jsonStr
  else jsonStr.

End Utils.

(** ** [errors.ts]: error classes, classification, backoff *)

Module Errors.
Import JsNumber.

(** A caught value ([error: unknown]): an instance of one of the classes
    of the module, of [Error] or one of the platform's subclasses
    ([TypeError], [SyntaxError], ...), or something that is no [Error]. *)
Inductive JsError : Type :=
| AppError (message code : string)
| ApiError (message : string) (statusCode : Z)
| NetworkError (message : string)
| ValidationError (message : string) (field : option string)
| StorageError (message : string) (key : option string)
| PlainError (name message : string)
| NotAnError.

Inductive ErrorKind : Type :=
| KApp | KApi | KNetwork | KValidation | KStorage | KPlain | KNotAnError.

Definition kindOf (e : JsError) : ErrorKind :=
  match e with
  | AppError _ _ => KApp
  | ApiError _ _ => KApi
  | NetworkError _ => KNetwork
  | ValidationError _ _ => KValidation
  | StorageError _ _ => KStorage
  | PlainError _ _ => KPlain
  | NotAnError => KNotAnError
  end.

Definition statusCodeOf (e : JsError) : option Z :=
  match e with
  | ApiError _ sc => Some sc
  | _ => None
  end.

(** [error.name] *)
Definition nameOf (e : JsError) : string :=
  match e with
  | AppError _ _ => "AppError"
  | ApiError _ _ => "ApiError"
  | NetworkError _ => "NetworkError"
  | ValidationError _ _ => "ValidationError"
  | StorageError _ _ => "StorageError"
  | PlainError n _ => n
  | NotAnError => EmptyString
  end.

Definition messageOf (e : JsError) : string :=
  match e with
  | AppError m _ | ApiError m _ | NetworkError m | ValidationError m _
  | StorageError m _ | PlainError _ m => m
  | NotAnError => EmptyString
  end.

(** [[429, 500, 502, 503].includes(x)] *)
Fixpoint Array_includes (a : list Z) (x : Z) : bool :=
  match a with
  | [] => false
  | y :: r => (y =? x)%Z || Array_includes r x
  end.

Definition isRetryableError (error : JsError) : bool :=
  match error with
  | NetworkError _ => true
  | ApiError _ statusCode => Array_includes [429; 500; 502; 503]%Z statusCode
  | _ => false
  end.

(** The two values of the specification's [FailureClassification]. *)
Inductive FailureClassification : Type := Retryable | Fatal.

Definition classify (error : JsError) : FailureClassification :=
  if isRetryableError error then Retryable else Fatal.

Record RetryConfig : Type := mkRetry {
  MAX_ATTEMPTS : nat;
  INITIAL_DELAY_MS : PrimFloat.float;
  MAX_DELAY_MS : PrimFloat.float;
  BACKOFF_MULTIPLIER : PrimFloat.float
}.

(** [calculateRetryDelay(attempt, config)], in the arithmetic of the
    source; [attempt] is the loop counter. *)
Definition calculateRetryDelay (platform : Platform) (attempt : nat)
  (config : RetryConfig) : PrimFloat.float :=
  let delay :=
    Math_min
      (PrimFloat.mul (INITIAL_DELAY_MS config)
         (Math_pow platform (BACKOFF_MULTIPLIER config) (fromNat attempt)))
      (MAX_DELAY_MS config) in
  PrimFloat.add delay (PrimFloat.mul (Math_random platform attempt) (fromZ 1000)).

Definition UNKNOWN_MESSAGE : string :=
  "An unexpected error occurred. Please try again.".

(** [ERROR_MESSAGES[statusCode]] *)
Definition ERROR_MESSAGES_status (statusCode : Z) : option string :=
  if (statusCode =? 400)%Z then
    Some "Invalid request. Please check your input and try again."
  else if (statusCode =? 401)%Z then
    Some "Invalid API key. Please check your Gemini API key."
  else if (statusCode =? 403)%Z then
    Some "Access denied. Your API key may not have the required permissions."
  else if (statusCode =? 404)%Z then
    Some "API endpoint not found. The service may be temporarily unavailable."
  else if (statusCode =? 429)%Z then
    Some "Rate limit exceeded. Please wait a moment before trying again."
  else if (statusCode =? 500)%Z then
    Some "Server error. The AI service is experiencing issues."
  else if (statusCode =? 502)%Z then
    Some "Bad gateway. The AI service is temporarily unavailable."
  else if (statusCode =? 503)%Z then
    Some "Service unavailable. Please try again later."
  else None.

Definition orElse (s fallback : string) : string :=
  if isEmptyString s then fallback else s.

(** [getErrorMessage]; [onLine] is [navigator.onLine] at the time of the
    call and [None] stands for a [null] argument. *)
Definition getErrorMessage (onLine : bool) (error : option JsError) : string :=
  match error with
  | Some (ApiError _ statusCode) =>
      match ERROR_MESSAGES_status statusCode with
      | Some m => m
      | None => UNKNOWN_MESSAGE
      end
  | Some (NetworkError _) =>
      if negb onLine
      then "You appear to be offline. Please check your connection."
      else "Network error. Please check your internet connection."
  | Some (ValidationError m _) => orElse m UNKNOWN_MESSAGE
  | Some (AppError m _) | Some (StorageError m _) | Some (PlainError _ m) =>
      orElse m UNKNOWN_MESSAGE
  | Some NotAnError | None => UNKNOWN_MESSAGE
  end.

End Errors.

(** ** Effects of the orchestrator

    The body of a [try] block either completes or throws, and on the way it
    calls callbacks, the network and the timer.  [Eff A] pairs the trace of
    those calls with the completion.  Diagnostic output ([console.log],
    [logError]) is not part of the trace. *)

Module Effects.
Import JsNumber Errors.

(** ['loading' | 'success' | 'error'] *)
Inductive StatusType : Type := st_loading | st_success | st_error.

Inductive GeminiPart : Type :=
| PromptPart (clinicalNotes : string)
  (* the instruction template with its placeholder replaced *)
| InlineData (mimeType data : string).

Record RequestBody : Type := mkBody {
  parts : list GeminiPart;
  temperature : Q;
  maxOutputTokens : Z
}.

Inductive Event : Type :=
| OnStatus (message : string) (type : StatusType)
| OnSuccess (data : Json.json)
| OnError (err : option JsError)
| Fetch (url : string) (body : RequestBody)
| Sleep (ms : PrimFloat.float).

Inductive Completion (A : Type) : Type :=
| Normal (a : A)
| Throw (e : JsError).
Arguments Normal {A} a.
Arguments Throw {A} e.

Definition Eff (A : Type) : Type := (list Event * Completion A)%type.

Definition ret {A : Type} (a : A) : Eff A := ([], Normal a).
Definition throw {A : Type} (e : JsError) : Eff A := ([], Throw e).
Definition emit (ev : Event) : Eff unit := ([ev], Normal tt).

Definition bind {A B : Type} (m : Eff A) (f : A -> Eff B) : Eff B :=
  match m with
  | (t, Normal a) => let (t', r) := f a in ((t ++ t')%list, r)
  | (t, Throw e) => (t, Throw e)
  end.

(** [try { m } catch (error) { handler }] *)
Definition tryCatch {A : Type} (m : Eff A) (handler : JsError -> Eff A)
  : Eff A :=
  match m with
  | (t, Normal a) => (t, Normal a)
  | (t, Throw e) => let (t', r) := handler e in ((t ++ t')%list, r)
  end.

(** [callback?.(...)]: the call happens when the callback was supplied. *)
Definition called (supplied : bool) (ev : Event) : list Event :=
  if supplied then [ev] else [].

Definition notify (supplied : bool) (ev : Event) : Eff unit :=
  (called supplied ev, Normal tt).

(** What a promise settles to. *)
Inductive Settled (A : Type) : Type :=
| Fulfilled (value : A)
| Rejected (reason : JsError).
Arguments Fulfilled {A} value.
Arguments Rejected {A} reason.

Record ParseCallbacks : Type := mkCallbacks {
  onStatus : bool;
  onSuccess : bool;
  onError : bool
}.

Definition isFetch (ev : Event) : bool :=
  match ev with Fetch _ _ => true | _ => false end.
Definition isSleep (ev : Event) : bool :=
  match ev with Sleep _ => true | _ => false end.
Definition isOnError (ev : Event) : bool :=
  match ev with OnError _ => true | _ => false end.
Definition isOnSuccess (ev : Event) : bool :=
  match ev with OnSuccess _ => true | _ => false end.

(** The calls of a trace that reach the network or the timer. *)
Definition networkView (t : list Event) : list Event :=
  filter (fun ev => isFetch ev || isSleep ev) t.

Definition truthy (s : string) : bool := negb (isEmptyString s).
Definition truthyOpt (o : option string) : bool :=
  match o with Some s => truthy s | None => false end.

(** An integer (a status code) in a template literal. *)
Definition ofZ (z : Z) : string := NilEmpty.string_of_int (Z.to_int z).

(** [Math.round(delay / 1000)] in a template literal. *)
Definition seconds (platform : Platform) (delay : PrimFloat.float) : string :=
  Number_toString platform (Math_round (PrimFloat.div delay (fromZ 1000))).

(** How the [for] loop is left: by [return parsed], or past its end (by
    [break] or by the loop condition) with [lastError]. *)
Inductive LoopExit : Type :=
| Returned (parsed : Json.json)
| Fell (lastError : option JsError).

(** The retry loop, which [api.ts] and [api.js] share word for word:
<<
    for (let attempt = 0; attempt < CONFIG.RETRY.MAX_ATTEMPTS; attempt++) {
      try { ...attemptBody...; return parsed; }
      catch (error) {
        lastError = error;
        if (isRetryableError(error) && attempt < CONFIG.RETRY.MAX_ATTEMPTS - 1) {
          const delay = calculateRetryDelay(attempt, CONFIG.RETRY);
          onStatus?.(...retryNotice..., 'loading');
          await sleep(delay);
          continue;
        }
        break;
      }
    }
>>
    The two files differ in the body of the [try] and in the wording of
    the notice, which are the parameters here. *)
Section RetryLoop.
Variable RETRY : RetryConfig.
Variable attemptBody : nat -> Eff Json.json.
Variable retryNotice : Platform -> JsError -> PrimFloat.float -> string.
Variable platform : Platform.
Variable callbacks : ParseCallbacks.

(** [remaining] is [MAX_ATTEMPTS - attempt]. *)
Fixpoint retryLoop (remaining attempt : nat) (lastError : option JsError)
  : list Event * LoopExit :=
  match remaining with
  | O => ([], Fell lastError)
  | S rest =>
      match attemptBody attempt with
      | (t, Normal parsed) => (t, Returned parsed)
      | (t, Throw error) =>
          let lastError := Some error in
          if isRetryableError error
             && (attempt <? MAX_ATTEMPTS RETRY - 1)%nat
          then
            let delay := calculateRetryDelay platform attempt RETRY in
            let (t', exit) := retryLoop rest (S attempt) lastError in
            ((t ++ called (onStatus callbacks)
                     (OnStatus (retryNotice platform error delay) st_loading)
                ++ [Sleep delay] ++ t')%list, exit)
          else (t, Fell lastError)
      end
  end.
End RetryLoop.

End Effects.

Declare Scope eff_scope.
Delimit Scope eff_scope with eff.
Notation "x <- m ;; k" := (Effects.bind m (fun x => k))
  (at level 61, m at next level, right associativity) : eff_scope.
Notation "m ;; k" := (Effects.bind m (fun _ => k))
  (at level 61, right associativity) : eff_scope.

(** ** [api.ts]: the orchestrator *)

Module Api.
Import JsNumber Errors Utils Effects.

(** [CONFIG.RETRY] and the parts of [CONFIG.API] the request uses. *)
Definition CONFIG_RETRY : RetryConfig :=
  mkRetry 3 (fromZ 1000) (fromZ 10000) (fromZ 2).
Definition BASE_URL : string :=
  "https://generativelanguage.googleapis.com/v1beta/models".
Definition TEMPERATURE : Q := 1 # 10.
Definition MAX_OUTPUT_TOKENS : Z := 8192.

Record ImageData : Type := mkImage {
  base64 : string;
  mimeType : string;
  fileName : string
}.

(** The response of the service, as [types/gemini.ts] declares it and as
    the optional chains of the code read it: [cparts] is
    [candidate?.content?.parts]. *)
Record ResponsePart : Type := mkPart { text : option string }.

Record GeminiCandidate : Type := mkCandidate {
  cparts : option (list ResponsePart);
  finishReason : option string
}.

Record GeminiResponse : Type := mkResponse {
  candidates : option (list GeminiCandidate);
  errorMessage : option string  (* [error?.message] *)
}.

(** A [Response]: its status and what [response.json()] resolves to
    ([None] when it rejects). *)
Record Response : Type := mkHttp {
  status : Z;
  json : option GeminiResponse
}.

Definition ok (r : Response) : bool :=
  ((200 <=? status r) && (status r <=? 299))%Z.

(** [fetch] resolves with a response or rejects with an error of the
    platform, of which the code reads [name] and [message]. *)
Inductive FetchResult : Type :=
| Rejects (name message : string)
| Resolves (response : Response).

(** Everything [parseWithAI] reads from its surroundings.  The functions
    of [nat] give the value read during the attempt of that index. *)
Record World : Type := mkWorld {
  apiKey : option string;          (* [ApiKeyManager.get()] *)
  model : string;                  (* [ModelManager.get()] *)
  currentImage : option ImageData; (* [ImageManager] *)
  isOnline : nat -> bool;          (* the connectivity probe *)
  fetchResult : nat -> FetchResult;
  platform : Platform;             (* [Math.pow], [Math.random], digits *)
  onLineAtReport : bool            (* [navigator.onLine] in [getErrorMessage] *)
}.

(** *** Locating the payload text among the parts *)

Definition looksLikeJson (t : string) : bool :=
  let trimmed := trim t in
  startsWith trimmed "{" || startsWith trimmed "```json".

(** Strategy 1: [for (const part of responseParts)] with [break]. *)
Fixpoint strategy1 (responseParts : list ResponsePart) : option string :=
  match responseParts with
  | [] => None
  | part :: rest =>
      match text part with
      | Some t =>
          if truthy t && looksLikeJson t then Some t else strategy1 rest
      | None => strategy1 rest
      end
  end.

(** Strategy 2. *)
Fixpoint strategy2 (responseParts : list ResponsePart) : option string :=
  match responseParts with
  | [] => None
  | part :: rest =>
      match text part with
      | Some t =>
          if truthy t && includes t "{" && includes t "}" then Some t
          else strategy2 rest
      | None => strategy2 rest
      end
  end.

(** Strategy 3: [for (let i = length - 1; i >= 0; i--)]; [n] is [i + 1]. *)
Fixpoint strategy3_from (n : nat) (responseParts : list ResponsePart)
  : option string :=
  match n with
  | O => None
  | S i =>
      match nth_error responseParts i with
      | Some part =>
          match text part with
          | Some t =>
              if truthy (trim t) then Some t
              else strategy3_from i responseParts
          | None => strategy3_from i responseParts
          end
      | None => strategy3_from i responseParts
      end
  end.

Definition strategy3 (responseParts : list ResponsePart) : option string :=
  strategy3_from (List.length responseParts) responseParts.

(** The value of [text] when the three blocks are done. *)
Definition selectText (candidate : option GeminiCandidate) : option string :=
  match candidate with
  | Some c =>
      match cparts c with
      | Some responseParts =>
          let text := strategy1 responseParts in
          let text :=
            if negb (truthyOpt text) then strategy2 responseParts else text in
          let text :=
            if negb (truthyOpt text) then strategy3 responseParts else text in
          text
      | None => None
      end
  | None => None
  end.

Definition firstCandidate (data : GeminiResponse) : option GeminiCandidate :=
  match candidates data with
  | Some cs => nth_error cs 0
  | None => None
  end.

Definition EMPTY_RESPONSE : JsError :=
  PlainError "Error"
    "Empty response from AI. The model returned no text content. Try using Gemini 2.0 Flash.".

Definition JSON_SYNTAX_ERROR : JsError :=
  PlainError "SyntaxError" "Unexpected token in JSON".

(** [JSON.parse(extractJsonFromText(text))] *)
Definition parsePayload (t : string) : Eff Json.json :=
  match Json.parse (extractJsonFromText t) with
  | Some parsed => ret parsed
  | None => throw JSON_SYNTAX_ERROR
  end.

(** *** One attempt: the body of the [try] block *)

Section Attempt.
Variable RETRY : RetryConfig.
Variable w : World.
Variable callbacks : ParseCallbacks.
Variable url : string.
Variable body : RequestBody.
Variable hasImage : bool.

Definition retryingMessage (attempt : nat) : string :=
  "Retrying... (attempt " ++ ofNat (attempt + 1) ++ "/"
    ++ ofNat (MAX_ATTEMPTS RETRY) ++ ")".

Definition statusMsg (attempt : nat) : string :=
  if hasImage then
    if (attempt =? 0)%nat
    then "Parsing image and notes with AI... This may take a few seconds."
    else retryingMessage attempt
  else
    if (attempt =? 0)%nat
    then "Parsing with AI... This may take a few seconds."
    else retryingMessage attempt.

(** [await fetch(url, ...)] *)
Definition doFetch (attempt : nat) : Eff Response :=
  (emit (Fetch url body) ;;
   match fetchResult w attempt with
   | Resolves response => ret response
   | Rejects name message => throw (PlainError name message)
   end)%eff.

Definition apiErrorOf (response : Response) : JsError :=
  let errorDetails := json response in
  let message :=
    match errorDetails with
    | Some d =>
        match errorMessage d with
        | Some m => m
        | None => EmptyString
        end
    | None => EmptyString
    end in
  ApiError
    (orElse message ("API request failed: " ++ ofZ (status response)))
    (status response).

(** [await response.json()] on a successful response. *)
Definition readJson (response : Response) : Eff GeminiResponse :=
  match json response with
  | Some data => ret data
  | None => throw JSON_SYNTAX_ERROR
  end.

(** From the selection of the candidate to [return parsed]. *)
Definition handleData (data : GeminiResponse) : Eff Json.json :=
  (let candidate := firstCandidate data in
   let text := selectText candidate in
   if negb (truthyOpt text) then throw EMPTY_RESPONSE
   else
     match text with
     | Some t =>
         parsed <- parsePayload t ;;
         notify (onStatus callbacks)
           (OnStatus "Successfully parsed and populated form fields!"
              st_success) ;;
         notify (onSuccess callbacks) (OnSuccess parsed) ;;
         ret parsed
     | None => throw EMPTY_RESPONSE
     end)%eff.

Definition attemptBody (attempt : nat) : Eff Json.json :=
  (notify (onStatus callbacks) (OnStatus (statusMsg attempt) st_loading) ;;
   if negb (isOnline w attempt)
   then throw (NetworkError "You appear to be offline.")
   else
     response <- doFetch attempt ;;
     if negb (ok response) then throw (apiErrorOf response)
     else
       data <- readJson response ;;
       handleData data)%eff.

Definition retryNotice (platform : Platform) (_ : JsError)
  (delay : PrimFloat.float) : string :=
  "Rate limited. Retrying in " ++ seconds platform delay ++ " seconds...".

End Attempt.

Definition NO_KEY_MESSAGE : string := "Please enter your Gemini API key first.".
Definition NO_INPUT_MESSAGE : string :=
  "Please enter some notes or upload an image to parse.".

Definition requestUrl (w : World) (key : string) : string :=
  BASE_URL ++ "/" ++ model w ++ ":generateContent?key=" ++ key.

Definition requestBody (w : World) (inputText : string) : RequestBody :=
  let hasText := trim inputText in
  let textContent :=
    if truthy hasText then inputText
    else "(See attached image for clinical notes)" in
  let imageParts :=
    match currentImage w with
    | Some img => [InlineData (mimeType img) (base64 img)]
    | None => []
    end in
  mkBody (PromptPart textContent :: imageParts) TEMPERATURE MAX_OUTPUT_TOKENS.

Definition hasImageOf (w : World) : bool :=
  match currentImage w with Some _ => true | None => false end.

(** [parseWithAI] with [CONFIG.RETRY] as a parameter: the trace of its
    calls and what its promise settles to. *)
Definition parseWithAI_with (RETRY : RetryConfig) (w : World)
  (inputText : string) (callbacks : ParseCallbacks)
  : list Event * Settled (option Json.json) :=
  let hasImage := hasImageOf w in
  let hasText := trim inputText in
  if negb (truthyOpt (apiKey w)) then
    (called (onStatus callbacks) (OnStatus NO_KEY_MESSAGE st_error),
     Fulfilled None)
  else if negb (truthy hasText) && negb hasImage then
    (called (onStatus callbacks) (OnStatus NO_INPUT_MESSAGE st_error),
     Fulfilled None)
  else
    let key := match apiKey w with Some k => k | None => EmptyString end in
    let url := requestUrl w key in
    let body := requestBody w inputText in
    match retryLoop RETRY
            (attemptBody RETRY w callbacks url body hasImage)
            retryNotice (platform w) callbacks
            (MAX_ATTEMPTS RETRY) 0 None with
    | (t, Returned parsed) => (t, Fulfilled (Some parsed))
    | (t, Fell lastError) =>
        ((t ++ called (onStatus callbacks)
                 (OnStatus (getErrorMessage (onLineAtReport w) lastError)
                    st_error)
            ++ called (onError callbacks) (OnError lastError))%list,
         Fulfilled None)
    end.

(** [parseWithAI] as the module exports it. *)
Definition parseWithAI : World -> string -> ParseCallbacks
                         -> list Event * Settled (option Json.json) :=
  parseWithAI_with CONFIG_RETRY.

End Api.

(** ** [errors.js] and [api.js]: the JavaScript orchestrator

    The JavaScript files mirror the TypeScript ones.  [errors.js] declares
    the same classes, [isRetryableError] and [calculateRetryDelay] (the
    definitions of [Errors] are reused) and a longer [getErrorMessage].
    Of [config.js] and [utils.js] only the uses are known: the configuration
    and [extractJsonFromText] are parameters of the section below. *)

Module ErrorsJs.
Import Errors Effects.

Definition ERROR_MESSAGES : list (string * string) :=
  [("400", "Invalid request. Please check your input and try again.");
   ("401", "Invalid API key. Please check your Gemini API key.");
   ("403", "Access denied. Your API key may not have the required permissions.");
   ("404", "API endpoint not found. The service may be temporarily unavailable.");
   ("429", "Rate limit exceeded. Please wait a moment before trying again.");
   ("500", "Server error. The AI service is experiencing issues.");
   ("502", "Bad gateway. The AI service is temporarily unavailable.");
   ("503", "Service unavailable. Please try again later.");
   ("NETWORK_ERROR", "Network error. Please check your internet connection.");
   ("TIMEOUT", "Request timed out. Please try again.");
   ("OFFLINE", "You appear to be offline. Please check your connection.");
   ("EMPTY_INPUT", "Please enter some notes to parse.");
   ("NO_API_KEY", "Please enter your Gemini API key first.");
   ("INVALID_JSON", "Failed to parse AI response. Please try again.");
   ("STORAGE_FULL", "Browser storage is full. Please clear some data.");
   ("STORAGE_UNAVAILABLE", "Browser storage is unavailable.");
   ("VOICE_NOT_SUPPORTED",
    "Voice recognition is not supported in this browser. Try Chrome.");
   ("VOICE_NO_PERMISSION",
    "Microphone permission denied. Please allow microphone access.");
   ("VOICE_NETWORK", "Voice recognition requires an internet connection.");
   ("UNKNOWN", "An unexpected error occurred. Please try again.")].

Fixpoint lookup (table : list (string * string)) (key : string)
  : option string :=
  match table with
  | [] => None
  | (k, v) :: r => if String.eqb k key then Some v else lookup r key
  end.

Definition message_of_key (key : string) : string :=
  match lookup ERROR_MESSAGES key with
  | Some m => m
  | None => EmptyString
  end.

(** [getErrorMessage(error)] for an error object; [onLine] is
    [navigator.onLine]. *)
Definition getErrorMessage (onLine : bool) (error : JsError) : string :=
  match error with
  | ApiError message statusCode =>
      match lookup ERROR_MESSAGES (ofZ statusCode) with
      | Some statusMessage => statusMessage
      | None =>
          if truthy message && negb (includes message "API request failed")
          then message
          else message_of_key "UNKNOWN"
      end
  | NetworkError message =>
      if truthy message && negb (String.eqb message "Network error")
      then message
      else if negb onLine then message_of_key "OFFLINE"
      else message_of_key "NETWORK_ERROR"
  | ValidationError message _ => orElse message (message_of_key "UNKNOWN")
  | StorageError message _ =>
      if includes message "quota" then message_of_key "STORAGE_FULL"
      else message_of_key "STORAGE_UNAVAILABLE"
  | AppError message code =>
      match lookup ERROR_MESSAGES code with
      | Some m => m
      | None => orElse message (message_of_key "UNKNOWN")
      end
  | PlainError _ message => orElse message (message_of_key "UNKNOWN")
  | NotAnError => message_of_key "UNKNOWN"
  end.

End ErrorsJs.

Module ApiJs.
Import JsNumber Errors Effects.
Import Api(GeminiResponse, GeminiCandidate, ResponsePart, Response,
           FetchResult, Rejects, Resolves, ok, status, json, errorMessage,
           candidates, cparts, text).

(** The fields of [CONFIG] that [api.js] reads. *)
Record Config : Type := mkConfig {
  BASE_URL : string;
  MODEL : string;
  TEMPERATURE : Q;
  MAX_OUTPUT_TOKENS : Z;
  RETRY : RetryConfig
}.

Record World : Type := mkWorld {
  apiKey : option string;           (* [ApiKeyManager.get()] *)
  isOnline : nat -> bool;           (* [isOnline()] in [makeApiRequest] *)
  fetchResult : nat -> FetchResult;
  jsonRejection : nat -> string * string;
    (* [name] and [message] of what [response.json()] rejects with, when the
       body of a successful response cannot be read *)
  navigatorOnLine : nat -> bool;    (* read by [getSpecificNetworkError] *)
  platform : Platform;
  onLineAtReport : bool
}.

Definition toLowerChar (c : ascii) : ascii :=
  let n := nat_of_ascii c in
  if ((65 <=? n) && (n <=? 90)
      || (192 <=? n) && (n <=? 222) && negb (n =? 215))%nat
  then ascii_of_nat (n + 32) else c.

Fixpoint toLowerCase (s : string) : string :=
  match s with
  | EmptyString => EmptyString
  | String c r => String (toLowerChar c) (toLowerCase r)
  end.

Definition getSpecificNetworkError (onLine : bool) (error : JsError) : string :=
  let message := toLowerCase (messageOf error) in
  if includes message "failed to fetch" || includes message "networkerror" then
    if negb onLine
    then "Connection lost. Please check your internet connection."
    else "Unable to reach the AI service. The server may be down or blocked."
  else if includes message "dns" || includes message "getaddrinfo"
          || includes message "nodename nor servname" then
    "DNS lookup failed. Please check your internet connection."
  else if includes message "timeout" || includes message "timed out" then
    "Connection timed out. The server took too long to respond."
  else if includes message "ssl" || includes message "certificate"
          || includes message "cert" then
    "Secure connection failed. There may be a network security issue."
  else if includes message "econnreset"
          || includes message "connection reset" then
    "Connection was reset. Please try again."
  else if includes message "aborted" || includes message "abort" then
    "Request was aborted. Please try again."
  else if includes message "cors" || includes message "cross-origin" then
    "Cross-origin request blocked. This may be a configuration issue."
  else if negb onLine then
    "Connection lost. Please check your internet connection."
  else "Network request failed. Please check your connection and try again.".

Definition validateInputs (apiKey : option string) (inputText : string)
  : Eff unit :=
  if negb (truthyOpt apiKey) then
    throw (ValidationError "Please enter your Gemini API key first."
             (Some "apiKey"))
  else if negb (truthy inputText) || negb (truthy (trim inputText)) then
    throw (ValidationError "Please enter some notes to parse."
             (Some "inputText"))
  else ret tt.

Section Orchestrator.
Variable CONFIG : Config.
Variable extractJsonFromText : string -> string.
Variable w : World.
Variable callbacks : ParseCallbacks.

Definition buildApiUrl (apiKey : string) : string :=
  BASE_URL CONFIG ++ "/" ++ MODEL CONFIG ++ ":generateContent?key=" ++ apiKey.

Definition buildRequestBody (clinicalNotes : string) : RequestBody :=
  mkBody [PromptPart clinicalNotes] (TEMPERATURE CONFIG)
    (MAX_OUTPUT_TOKENS CONFIG).

Definition apiErrorOf (response : Response) : JsError :=
  let errorMessage0 :=
    "API request failed with status " ++ ofZ (status response) in
  let errorMessage1 :=
    match json response with
    | Some errorDetails =>
        match errorMessage errorDetails with
        | Some m => if truthy m then m else errorMessage0
        | None => errorMessage0
        end
    | None => errorMessage0
    end in
  ApiError errorMessage1 (status response).

Definition makeApiRequest (url : string) (body : RequestBody)
  (attempt : nat) : Eff GeminiResponse :=
  if negb (isOnline w attempt) then
    throw (NetworkError
             "Connection lost. Please check your internet connection.")
  else
    tryCatch
      (emit (Fetch url body) ;;
       match fetchResult w attempt with
       | Rejects name message => throw (PlainError name message)
       | Resolves response =>
           if negb (ok response) then throw (apiErrorOf response)
           else
             match json response with
             | Some data => ret data
             | None =>
                 let (name, message) := jsonRejection w attempt in
                 throw (PlainError name message)
             end
       end)%eff
      (fun error =>
         match error with
         | ApiError _ _ => throw error
         | _ =>
             if String.eqb (nameOf error) "TypeError"
                || includes (messageOf error) "fetch"
             then
               throw (NetworkError
                        (getSpecificNetworkError
                           (navigatorOnLine w attempt) error))
             else throw error
         end).

(** [response?.candidates?.[0]?.content?.parts?.[0]?.text] *)
Definition firstText (response : GeminiResponse) : option string :=
  match candidates response with
  | Some cs =>
      match nth_error cs 0 with
      | Some c =>
          match cparts c with
          | Some ps =>
              match nth_error ps 0 with
              | Some part => text part
              | None => None
              end
          | None => None
          end
      | None => None
      end
  | None => None
  end.

Definition parseApiResponse (response : GeminiResponse) : Eff Json.json :=
  match firstText response with
  | Some t =>
      if negb (truthy t) then
        throw (PlainError "Error" "Empty response from AI. Please try again.")
      else
        let jsonStr := extractJsonFromText t in
        match Json.parse jsonStr with
        | Some parsed => ret parsed
        | None =>
            throw (PlainError "Error"
              "Failed to parse AI response. The response was not valid JSON.")
        end
  | None =>
      throw (PlainError "Error" "Empty response from AI. Please try again.")
  end.

Definition attemptBody (url : string) (body : RequestBody) (attempt : nat)
  : Eff Json.json :=
  ((if (attempt =? 0)%nat
    then notify (onStatus callbacks) (OnStatus "Sending to AI..." st_loading)
    else notify (onStatus callbacks)
           (OnStatus ("Retrying... (attempt " ++ ofNat (attempt + 1) ++ "/"
                        ++ ofNat (MAX_ATTEMPTS (RETRY CONFIG)) ++ ")")
              st_loading)) ;;
   response <- makeApiRequest url body attempt ;;
   notify (onStatus callbacks) (OnStatus "Parsing response..." st_loading) ;;
   parsed <- parseApiResponse response ;;
   notify (onStatus callbacks) (OnStatus "Populating form..." st_loading) ;;
   notify (onSuccess callbacks) (OnSuccess parsed) ;;
   notify (onStatus callbacks) (OnStatus "Done!" st_success) ;;
   ret parsed)%eff.

Definition retryNotice (platform : Platform) (error : JsError)
  (delay : PrimFloat.float) : string :=
  let errorType :=
    match error with
    | NetworkError _ => "Connection issue"
    | _ => "Rate limited"
    end in
  errorType ++ ". Retrying in " ++ seconds platform delay ++ " seconds...".

(** [getErrorMessage(null)] reads a property of [null]. *)
Definition NULL_DEREFERENCE : JsError :=
  PlainError "TypeError" "Cannot read properties of null (reading 'code')".

Definition parseWithAI (inputText : string)
  : list Event * Settled (option Json.json) :=
  match validateInputs (apiKey w) inputText with
  | (_, Throw error) =>
      ((called (onStatus callbacks) (OnStatus (messageOf error) st_error)
          ++ called (onError callbacks) (OnError (Some error)))%list,
       Fulfilled None)
  | (_, Normal _) =>
      let key := match apiKey w with Some k => k | None => EmptyString end in
      let url := buildApiUrl key in
      let body := buildRequestBody inputText in
      match retryLoop (RETRY CONFIG) (attemptBody url body) retryNotice
              (platform w) callbacks (MAX_ATTEMPTS (RETRY CONFIG)) 0 None with
      | (t, Returned parsed) => (t, Fulfilled (Some parsed))
      | (t, Fell (Some lastError)) =>
          let errorMessage :=
            ErrorsJs.getErrorMessage (onLineAtReport w) lastError in
          ((t ++ called (onStatus callbacks) (OnStatus errorMessage st_error)
              ++ called (onError callbacks) (OnError (Some lastError)))%list,
           Fulfilled None)
      | (t, Fell None) => (t, Rejected NULL_DEREFERENCE)
      end
  end.

End Orchestrator.

End ApiJs.

(** ** The voice session managers

    [VoiceRecognitionManager] exists twice: in [form-populator.ts] and in
    the JavaScript voice module.  Both keep the same four fields and wrap
    the platform's [SpeechRecognition] object, the transport.  A method of
    the model returns the calls it made (to the transport and to the
    caller's callbacks) and the manager after the call.  Whether a call of
    the transport throws is an input of the method. *)

Module Voice.

(** The properties the manager sets on the transport. *)
Record Recognition : Type := mkRecognition {
  continuous : bool;
  interimResults : bool;
  lang : string
}.

(** Which callbacks the caller supplied through [setCallbacks]. *)
Record VoiceCallbacks : Type := mkVoiceCallbacks {
  onResult : bool;
  onError : bool;
  onStart : bool;
  onEnd : bool
}.

Record Manager : Type := mkManager {
  recognition : option Recognition;
  isRecording : bool;
  language : string;
  callbacks : VoiceCallbacks
}.

(** The text handed to [onError]: its language and what it reports (the
    platform's error kind, or the missing capability). *)
Inductive ErrorText : Type :=
| NotSupported (chinese : bool)
| PlatformError (chinese : bool) (kind : string).

(** A call made by the manager.  The two transport calls carry the value
    [isRecording] has at the moment of the call. *)
Inductive Call : Type :=
| TransportStart (isRecordingNow : bool)
| TransportStop (isRecordingNow : bool)
| CallOnError (message : ErrorText)
| CallOnStart
| CallOnEnd.

Definition isCallOnEnd (c : Call) : bool :=
  match c with CallOnEnd => true | _ => false end.
Definition isTransportStart (c : Call) : bool :=
  match c with TransportStart _ => true | _ => false end.
Definition isCallback (c : Call) : bool :=
  match c with
  | CallOnError _ | CallOnStart | CallOnEnd => true
  | TransportStart _ | TransportStop _ => false
  end.

(** [callback?.()] *)
Definition called (supplied : bool) (c : Call) : list Call :=
  if supplied then [c] else [].

Definition setRecording (b : bool) (m : Manager) : Manager :=
  mkManager (recognition m) b (language m) (callbacks m).

Definition setRecognition (r : option Recognition) (m : Manager) : Manager :=
  mkManager r (isRecording m) (language m) (callbacks m).

(** [this.recognition.lang = l], when the transport exists. *)
Definition setTransportLang (l : string) (m : Manager) : Manager :=
  match recognition m with
  | Some r =>
      setRecognition (Some (mkRecognition (continuous r) (interimResults r) l)) m
  | None => m
  end.

Definition setLanguage (l : string) (m : Manager) : Manager :=
  setTransportLang l (mkManager (recognition m) (isRecording m) l (callbacks m)).

Definition hasTransport (m : Manager) : bool :=
  match recognition m with Some _ => true | None => false end.

(** [init]: [supported] tells whether the window offers the capability. *)
Definition init (supported : bool) (m : Manager) : Manager * bool :=
  if negb supported then (m, false)
  else (setRecognition (Some (mkRecognition true true (language m))) m, true).

Section Language.
(** [CONFIG.VOICE.LANGUAGES.CHINESE] *)
Variable CHINESE : string.

Definition isChinese (m : Manager) : bool := String.eqb (language m) CHINESE.

(** *** [form-populator.ts] *)

Definition ts_stop (stopThrows : bool) (m : Manager) : list Call * Manager :=
  let m := setRecording false m in
  let halt :=
    match recognition m with
    | Some _ => [TransportStop (isRecording m)]
    | None => []
    end in
  ((halt ++ called (onEnd (callbacks m)) CallOnEnd)%list, m).

(** The [onend] handler. *)
Definition ts_onend (startThrows : bool) (m : Manager) : list Call * Manager :=
  if isRecording m then
    match recognition m with
    | Some _ => ([TransportStart (isRecording m)], m)
    | None => ([], m)
    end
  else ([], m).

(** [form-populator.ts] registers no [onstart] handler: the start event of
    the transport reaches no code of the manager. *)
Definition ts_onstart (m : Manager) : list Call * Manager := ([], m).

(** The [onerror] handler. *)
Definition ts_onerror (kind : string) (stopThrows : bool) (m : Manager)
  : list Call * Manager :=
  let (t, m) := ts_stop stopThrows m in
  ((t ++ called (onError (callbacks m))
          (CallOnError (PlatformError (isChinese m) kind)))%list, m).

Definition ts_start (supported startThrows : bool) (m : Manager)
  : list Call * Manager * bool :=
  let (m1, initialised) :=
    match recognition m with
    | Some _ => (m, true)
    | None => init supported m
    end in
  if negb initialised then
    (called (onError (callbacks m1))
       (CallOnError (NotSupported (isChinese m1))), m1, false)
  else
    let m2 := setTransportLang (language m1) m1 in
    let m3 := setRecording true m2 in
    let begin :=
      match recognition m3 with
      | Some _ => [TransportStart (isRecording m3)]
      | None => []
      end in
    if hasTransport m3 && startThrows then
      (begin, setRecording false m3, false)
    else
      ((begin ++ called (onStart (callbacks m3)) CallOnStart)%list, m3, true).

Definition ts_toggle (supported startThrows stopThrows : bool) (m : Manager)
  : list Call * Manager * bool :=
  if isRecording m then
    let (t, m') := ts_stop stopThrows m in (t, m', isRecording m')
  else
    let '(t, m', _) := ts_start supported startThrows m in
    (t, m', isRecording m').

(** *** The JavaScript voice module *)

Definition js_stop (stopThrows : bool) (m : Manager) : list Call * Manager :=
  let m := setRecording false m in
  let halt :=
    match recognition m with
    | Some _ => [TransportStop (isRecording m)]
    | None => []
    end in
  (halt, m).

(** The [onend] handler. *)
Definition js_onend (startThrows : bool) (m : Manager) : list Call * Manager :=
  if isRecording m then ([TransportStart (isRecording m)], m)
  else (called (onEnd (callbacks m)) CallOnEnd, m).

(** The [onstart] handler. *)
Definition js_onstart (m : Manager) : list Call * Manager :=
  (called (onStart (callbacks m)) CallOnStart, m).

(** The [onerror] handler. *)
Definition js_onerror (kind : string) (stopThrows : bool) (m : Manager)
  : list Call * Manager :=
  let isChinese := isChinese m in
  let (t, m) := js_stop stopThrows m in
  ((t ++ called (onError (callbacks m))
          (CallOnError (PlatformError isChinese kind)))%list, m).

(** [startThrows] is the message of the error thrown by the transport's
    [start()], if it throws. *)
Definition js_start (supported : bool) (startThrows : option string)
  (m : Manager) : list Call * Manager * bool :=
  let (m1, initialised) :=
    match recognition m with
    | Some _ => (m, true)
    | None => init supported m
    end in
  if negb initialised then
    (called (onError (callbacks m1))
       (CallOnError (NotSupported (isChinese m1))), m1, false)
  else
    let m2 := setTransportLang (language m1) m1 in
    let m3 := setRecording true m2 in
    match startThrows with
    | None => ([TransportStart (isRecording m3)], m3, true)
    | Some message =>
        if JsString.includes message "already started"
        then ([TransportStart (isRecording m3)], m3, true)
        else ([TransportStart (isRecording m3)], setRecording false m3, false)
    end.

Definition js_toggle (supported : bool) (startThrows : option string)
  (stopThrows : bool) (m : Manager) : list Call * Manager * bool :=
  if isRecording m then
    let (t, m') := js_stop stopThrows m in (t, m', isRecording m')
  else
    let '(t, m', _) := js_start supported startThrows m in
    (t, m', isRecording m').

End Language.

End Voice.

(** ** The selection of the payload text, in the words of the specification

    (i) the first part whose trimmed text starts with an opening brace or
    with the JSON fence marker; (ii) failing that, the first part whose text
    contains both braces; (iii) failing that, the last part whose trimmed
    text is not empty. *)

Module SelectionSpec.
Import Effects Api.

Definition FENCE_JSON : string := "```json".

Definition startsLikeJson (t : string) : bool :=
  startsWith (trim t) "{" || startsWith (trim t) FENCE_JSON.

Definition containsBraces (t : string) : bool :=
  includes t "{" && includes t "}".

Definition hasVisibleText (t : string) : bool :=
  negb (isEmptyString (trim t)).

Definition textSatisfies (P : string -> bool) (part : ResponsePart) : bool :=
  match text part with
  | Some t => P t
  | None => false
  end.

Definition firstPartWith (P : string -> bool) (ps : list ResponsePart)
  : option string :=
  match find (textSatisfies P) ps with
  | Some part => text part
  | None => None
  end.

Definition lastPartWith (P : string -> bool) (ps : list ResponsePart)
  : option string :=
  firstPartWith P (rev ps).

Definition specSelect (ps : list ResponsePart) : option string :=
  match firstPartWith startsLikeJson ps with
  | Some t => Some t
  | None =>
      match firstPartWith containsBraces ps with
      | Some t => Some t
      | None => lastPartWith hasVisibleText ps
      end
  end.

(** The parts of the first candidate; none when the response has no
    candidate or the candidate no parts. *)
Definition firstCandidateParts (data : GeminiResponse) : list ResponsePart :=
  match firstCandidate data with
  | Some c =>
      match cparts c with
      | Some ps => ps
      | None => []
      end
  | None => []
  end.

End SelectionSpec.

(** ** Classification and delay, in the words of the specification *)

(** ** The course of a call, in the words of the specification *)

Module CourseSpec.
Import Errors Effects.

Section Course.
Variable RETRY : RetryConfig.
Variable attemptBody : nat -> Eff Json.json.

(** Attempt [j] failed with a retryable error while attempts remained. *)
Definition RetriedAt (j : nat) : Prop :=
  exists e, snd (attemptBody j) = Throw e /\ isRetryableError e = true
            /\ (j < MAX_ATTEMPTS RETRY - 1)%nat.

(** Every attempt from [from] up to [k], excluded, was retried. *)
Definition RetriedBetween (from k : nat) : Prop :=
  forall j, (from <= j < k)%nat -> RetriedAt j.

(** Retries are exhausted at attempt [k], or its failure is fatal. *)
Definition FinalFailure (k : nat) (e : JsError) : Prop :=
  snd (attemptBody k) = Throw e /\
  (isRetryableError e = false \/ k = (MAX_ATTEMPTS RETRY - 1)%nat).
End Course.

(** Submissions with a sleep between each two: what the network and the
    timer see of [remaining] failed attempts starting at [attempt]. *)
Fixpoint alternation (submission : Event) (delay : nat -> PrimFloat.float)
  (attempt remaining : nat) : list Event :=
  match remaining with
  | O => []
  | S rest =>
      submission ::
        match rest with
        | O => []
        | S _ => Sleep (delay attempt)
                   :: alternation submission delay (S attempt) rest
        end
  end.

(** No call of [onError] and no call of [onSuccess] in a trace. *)
Definition NoOnError (t : list Event) : Prop := filter isOnError t = [].
Definition NoOnSuccess (t : list Event) : Prop := filter isOnSuccess t = [].

(** The calls that report failure [e] to the caller. *)
Definition surfacing (callbacks : ParseCallbacks) (message : string)
  (e : JsError) : list Event :=
  (called (onStatus callbacks) (OnStatus message st_error)
     ++ called (onError callbacks) (OnError (Some e)))%list.

(** The course of a call that passed the precondition check.  Either some
    attempt [k] returns after every attempt before it was retried, and the
    promise is fulfilled with the parsed data without any call of
    [onError]; or some attempt [k] fails, with retries exhausted or a
    fatal error, after every attempt before it was retried, and that
    failure is reported through [onStatus] and [onError] after a trace
    that holds no call of [onError] or [onSuccess], the promise being
    fulfilled with [null]. *)
Definition Course (RETRY : RetryConfig) (attemptBody : nat -> Eff Json.json)
  (callbacks : ParseCallbacks) (message : JsError -> string)
  (outcome : list Event * Settled (option Json.json)) : Prop :=
  (exists k parsed t,
      (k < MAX_ATTEMPTS RETRY)%nat /\
      RetriedBetween RETRY attemptBody 0 k /\
      snd (attemptBody k) = Normal parsed /\
      outcome = (t, Fulfilled (Some parsed)) /\
      NoOnError t)
  \/
  (exists k e t,
      (k < MAX_ATTEMPTS RETRY)%nat /\
      RetriedBetween RETRY attemptBody 0 k /\
      FinalFailure RETRY attemptBody k e /\
      outcome = ((t ++ surfacing callbacks (message e) e)%list,
                 Fulfilled None) /\
      NoOnError t /\ NoOnSuccess t).

End CourseSpec.

(** ** The stop scenario of the specification

    [stop()] is called and the platform then fires its end event. *)

Module VoiceSpec.
Import Voice.

Definition ts_stopThenEnd (stopThrows startThrows : bool) (m : Manager)
  : list Call * Manager :=
  let (t1, m1) := ts_stop stopThrows m in
  let (t2, m2) := ts_onend startThrows m1 in
  ((t1 ++ t2)%list, m2).

Definition js_stopThenEnd (stopThrows startThrows : bool) (m : Manager)
  : list Call * Manager :=
  let (t1, m1) := js_stop stopThrows m in
  let (t2, m2) := js_onend startThrows m1 in
  ((t1 ++ t2)%list, m2).

Definition countOnEnd (t : list Call) : nat :=
  List.length (filter isCallOnEnd t).

Definition countRestarts (t : list Call) : nat :=
  List.length (filter isTransportStart t).

(** The end event and what follows it.  When the handler called
    [start()] and the call did not throw, the transport starts again and
    the platform fires its start event. *)
Definition startEventFollows (t : list Call) (startThrows : bool) : bool :=
  existsb isTransportStart t && negb startThrows.

Definition ts_endThenStarted (startThrows : bool) (m : Manager)
  : list Call * Manager :=
  let (t1, m1) := ts_onend startThrows m in
  if startEventFollows t1 startThrows then
    let (t2, m2) := ts_onstart m1 in ((t1 ++ t2)%list, m2)
  else (t1, m1).

Definition js_endThenStarted (startThrows : bool) (m : Manager)
  : list Call * Manager :=
  let (t1, m1) := js_onend startThrows m in
  if startEventFollows t1 startThrows then
    let (t2, m2) := js_onstart m1 in ((t1 ++ t2)%list, m2)
  else (t1, m1).

End VoiceSpec.

(** ** Concrete inputs used below *)

Module Examples.
Import Errors Effects.

Definition quoted (s : string) : string := str DQUOTE ++ s ++ str DQUOTE.

(** The truncated document of the specification and its repair. *)
Definition truncatedHello : string :=
  "{" ++ quoted "a" ++ ": " ++ str DQUOTE ++ "hello".
Definition repairedHello : string := "{" ++ quoted "a" ++ ": null}".

(** Two documents that parse as JSON. *)
Definition paddedObject : string := " {} ".
Definition quotedFences : string := quoted "a```b```c".

(** A platform for the examples: [Math.pow] by repeated multiplication,
    which is exact on the powers of two the examples need; every draw of
    [Math.random] is one half; integers below [2^53] are printed in
    decimal, as every platform prints them (the examples reach no other
    number). *)
Fixpoint powNat (x : PrimFloat.float) (n : nat) : PrimFloat.float :=
  match n with
  | O => PrimFloat.one
  | S k => PrimFloat.mul x (powNat x k)
  end.

Definition toNat (y : PrimFloat.float) : nat :=
  match FloatOps.Prim2SF y with
  | SpecFloat.S754_finite false m e =>
      Z.to_nat (if (0 <=? e)%Z then Zpos m * 2 ^ e else Zpos m / 2 ^ (- e))
  | _ => O
  end.

Definition decimal (x : PrimFloat.float) : string :=
  match FloatOps.Prim2SF x with
  | SpecFloat.S754_zero _ => "0"
  | SpecFloat.S754_nan => "NaN"
  | SpecFloat.S754_infinity negative =>
      if negative then "-Infinity" else "Infinity"
  | SpecFloat.S754_finite negative m e =>
      (if negative then "-" else EmptyString)
        ++ ofZ (if (0 <=? e)%Z then Zpos m * 2 ^ e else Zpos m / 2 ^ (- e))
  end.

Definition half : PrimFloat.float := PrimFloat.div PrimFloat.one PrimFloat.two.

Definition examplePlatform : JsNumber.Platform :=
  JsNumber.mkPlatform (fun x y => powNat x (toNat y)) (fun _ => half) decimal.

Definition allCallbacks : ParseCallbacks := mkCallbacks true true true.

Definition respond (status : Z) : Api.FetchResult :=
  Api.Resolves (Api.mkHttp status None).

(** The service answers every submission with status 500. *)
Definition always500 : Api.World :=
  Api.mkWorld (Some "key") "gemini" None (fun _ => true)
    (fun _ => respond 500) examplePlatform true.

(** The same service, with the host offline during the first attempt. *)
Definition offlineFirst : Api.World :=
  Api.mkWorld (Some "key") "gemini" None (fun i => negb (i =? 0)%nat)
    (fun _ => respond 500) examplePlatform true.

(** The same service, with the host offline throughout. *)
Definition offlineAlways : Api.World :=
  Api.mkWorld (Some "key") "gemini" None (fun _ => false)
    (fun _ => respond 500) examplePlatform true.

(** The service rejects the credential. *)
Definition unauthorized : Api.World :=
  Api.mkWorld (Some "key") "gemini" None (fun _ => true)
    (fun _ => respond 401) examplePlatform true.

(** [fetch] rejects at every attempt: the request never reaches the
    service. *)
Definition rejecting : Api.World :=
  Api.mkWorld (Some "key") "gemini" None (fun _ => true)
    (fun _ => Api.Rejects "TypeError" "Failed to fetch") examplePlatform true.

(** No credential is stored. *)
Definition noCredential : Api.World :=
  Api.mkWorld None "gemini" None (fun _ => true)
    (fun _ => respond 500) examplePlatform true.

(** A successful response whose candidate has three parts: a thought, the
    payload, a trailing remark. *)
Definition payloadText : string :=
  "{" ++ quoted "chief_complaint" ++ ":" ++ quoted "fever and cough" ++ "}".

Definition threeParts : Api.GeminiResponse :=
  Api.mkResponse
    (Some [Api.mkCandidate
             (Some [Api.mkPart (Some "Let me read the notes.");
                    Api.mkPart (Some payloadText);
                    Api.mkPart (Some "Done.")])
             (Some "STOP")])
    None.

Definition answering (data : Api.GeminiResponse) : Api.World :=
  Api.mkWorld (Some "key") "gemini" None (fun _ => true)
    (fun _ => Api.Resolves (Api.mkHttp 200 (Some data)))
    examplePlatform true.

(** The JavaScript orchestrator: a configuration, and the service
    rejecting the credential. *)
Definition jsConfig : ApiJs.Config :=
  ApiJs.mkConfig "https://generativelanguage.googleapis.com/v1beta/models"
    "gemini" (1 # 10) 8192
    (mkRetry 3 (JsNumber.fromZ 1000) (JsNumber.fromZ 10000) (JsNumber.fromZ 2)).

Definition syntaxError : string * string :=
  ("SyntaxError", "Unexpected end of JSON input").

Definition jsUnauthorized : ApiJs.World :=
  ApiJs.mkWorld (Some "key") (fun _ => true) (fun _ => respond 401)
    (fun _ => syntaxError) (fun _ => true) examplePlatform true.

(** The JavaScript orchestrator, with every [fetch] rejecting. *)
Definition jsRejecting : ApiJs.World :=
  ApiJs.mkWorld (Some "key") (fun _ => true)
    (fun _ => Api.Rejects "TypeError" "Failed to fetch")
    (fun _ => syntaxError) (fun _ => true) examplePlatform true.

(** Voice managers with every callback supplied: one that is recording
    on its transport, one that never created a transport. *)
Definition everyVoiceCallback : Voice.VoiceCallbacks :=
  Voice.mkVoiceCallbacks true true true true.

Definition recordingManager : Voice.Manager :=
  Voice.mkManager (Some (Voice.mkRecognition true true "zh-TW")) true "zh-TW"
    everyVoiceCallback.

Definition freshManager : Voice.Manager :=
  Voice.mkManager None false "zh-TW" everyVoiceCallback.

End Examples.

(** ** More of [utils.ts]: [sanitizeHTML] *)

Module Sanitize.
Import Effects.

(** [text.replace(/c/g, by)] for a pattern of one character. *)
Fixpoint replaceAllChar (c : ascii) (replacement : string) (text : string)
  : string :=
  match text with
  | EmptyString => EmptyString
  | String d r =>
      if Ascii.eqb d c then replacement ++ replaceAllChar c replacement r
      else String d (replaceAllChar c replacement r)
  end.

Definition sanitizeHTML (text : string) : string :=
  if negb (truthy text) then EmptyString
  else
    replaceAllChar "'" "&#039;"
      (replaceAllChar DQUOTE "&quot;"
         (replaceAllChar ">" "&gt;"
            (replaceAllChar "<" "&lt;"
               (replaceAllChar "&" "&amp;" text)))).

(** The five passes of [sanitizeHTML], on any text. *)
Definition passes (text : string) : string :=
  replaceAllChar "'" "&#039;"
    (replaceAllChar DQUOTE "&quot;"
       (replaceAllChar ">" "&gt;"
          (replaceAllChar "<" "&lt;"
             (replaceAllChar "&" "&amp;" text)))).

(** The entity a character is written as, in one pass. *)
Definition escapeChar (d : ascii) : string :=
  if Ascii.eqb d "&" then "&amp;"
  else if Ascii.eqb d "<" then "&lt;"
  else if Ascii.eqb d ">" then "&gt;"
  else if Ascii.eqb d DQUOTE then "&quot;"
  else if Ascii.eqb d "'" then "&#039;"
  else str d.

Fixpoint escapeAll (text : string) : string :=
  match text with
  | EmptyString => EmptyString
  | String d r => escapeChar d ++ escapeAll r
  end.

Definition isSpecial (d : ascii) : bool :=
  Ascii.eqb d "&" || Ascii.eqb d "<" || Ascii.eqb d ">"
  || Ascii.eqb d DQUOTE || Ascii.eqb d "'".

(** Whether [c] occurs in [s]. *)
Fixpoint occurs (c : ascii) (s : string) : bool :=
  match s with
  | EmptyString => false
  | String d r => Ascii.eqb d c || occurs c r
  end.

(** A reader of the five entities; [skip] counts the characters of a
    recognised entity still to pass over. *)
Fixpoint unescapeFrom (skip : nat) (s : string) : string :=
  match s with
  | EmptyString => EmptyString
  | String d r =>
      match skip with
      | S k => unescapeFrom k r
      | O =>
          if startsWith s "&amp;" then String "&" (unescapeFrom 4 r)
          else if startsWith s "&lt;" then String "<" (unescapeFrom 3 r)
          else if startsWith s "&gt;" then String ">" (unescapeFrom 3 r)
          else if startsWith s "&quot;" then String DQUOTE (unescapeFrom 5 r)
          else if startsWith s "&#039;" then String "'" (unescapeFrom 5 r)
          else String d (unescapeFrom O r)
      end
  end.

Definition unescape (s : string) : string := unescapeFrom O s.

End Sanitize.

(** ** More of the voice managers: the result handler and sessions *)

Module VoiceSession.
Import Voice.

(** One entry of [event.results]: [alternative] is [result[0]?.transcript]
    and is [None] when the entry has no first alternative. *)
Record SpeechResult : Type := mkSpeechResult {
  alternative : option string;
  isFinal : bool
}.

Record SpeechEvent : Type := mkSpeechEvent {
  resultIndex : nat;
  results : list SpeechResult
}.

(** [for (let i = event.resultIndex; i < event.results.length; i++)] of the
    TypeScript handler: [steps] iterations from index [i], [acc] being
    [finalTranscript]. *)
Fixpoint ts_collect (steps i : nat) (rs : list SpeechResult) (acc : string)
  : string :=
  match steps with
  | O => acc
  | S k =>
      let acc' :=
        match nth_error rs i with
        | Some result =>
            match alternative result with
            | Some transcript =>
                if isFinal result then acc ++ transcript ++ " " else acc
            | None => acc
            end
        | None => acc
        end in
      ts_collect k (S i) rs acc'
  end.

(** The [onresult] handler of [form-populator.ts]: the transcript handed
    to [onResult], if the callback is called. *)
Definition ts_onresult (event : SpeechEvent) (m : Manager) : option string :=
  let finalTranscript :=
    ts_collect (List.length (results event) - resultIndex event)
      (resultIndex event) (results event) EmptyString in
  if Effects.truthy finalTranscript && onResult (callbacks m)
  then Some finalTranscript else None.

(** The transcripts of the final entries, each followed by a space. *)
Fixpoint finalText (rs : list SpeechResult) : string :=
  match rs with
  | [] => EmptyString
  | result :: rest =>
      match alternative result with
      | Some transcript =>
          if isFinal result then transcript ++ " " ++ finalText rest
          else finalText rest
      | None => finalText rest
      end
  end.

Definition isCommitted (result : SpeechResult) : bool :=
  match alternative result with
  | Some _ => isFinal result
  | None => false
  end.

(** What can happen to a manager: a method called by the application or
    an event fired by the platform, with the inputs the method reads. *)
Inductive Op : Type :=
| OpStart (supported : bool) (startThrows : option string)
| OpStop (stopThrows : bool)
| OpToggle (supported : bool) (startThrows : option string) (stopThrows : bool)
| OpSetLanguage (lang : string)
| OpEnd (startThrows : bool)
| OpStarted
| OpError (kind : string) (stopThrows : bool).

Definition throwsAtAll (startThrows : option string) : bool :=
  match startThrows with Some _ => true | None => false end.

Section Steps.
Variable CHINESE : string.

Definition ts_step (op : Op) (m : Manager) : list Call * Manager :=
  match op with
  | OpStart supported startThrows =>
      let '(t, m', _) := ts_start CHINESE supported (throwsAtAll startThrows) m in
      (t, m')
  | OpStop stopThrows => ts_stop stopThrows m
  | OpToggle supported startThrows stopThrows =>
      let '(t, m', _) :=
        ts_toggle CHINESE supported (throwsAtAll startThrows) stopThrows m in
      (t, m')
  | OpSetLanguage lang => ([], setLanguage lang m)
  | OpEnd startThrows => ts_onend startThrows m
  | OpStarted => ts_onstart m
  | OpError kind stopThrows => ts_onerror CHINESE kind stopThrows m
  end.

Definition js_step (op : Op) (m : Manager) : list Call * Manager :=
  match op with
  | OpStart supported startThrows =>
      let '(t, m', _) := js_start CHINESE supported startThrows m in (t, m')
  | OpStop stopThrows => js_stop stopThrows m
  | OpToggle supported startThrows stopThrows =>
      let '(t, m', _) := js_toggle CHINESE supported startThrows stopThrows m in
      (t, m')
  | OpSetLanguage lang => ([], setLanguage lang m)
  | OpEnd startThrows => js_onend startThrows m
  | OpStarted => js_onstart m
  | OpError kind stopThrows => js_onerror CHINESE kind stopThrows m
  end.

Fixpoint run (step : Op -> Manager -> list Call * Manager) (ops : list Op)
  (m : Manager) : list Call * Manager :=
  match ops with
  | [] => ([], m)
  | op :: rest =>
      let (t, m1) := step op m in
      let (t', m2) := run step rest m1 in
      ((t ++ t')%list, m2)
  end.
End Steps.

(** A manager as its constructor leaves it. *)
Definition newManager (defaultLanguage : string) (cb : VoiceCallbacks)
  : Manager :=
  mkManager None false defaultLanguage cb.

(** The session invariant: a recording manager has a transport, and a
    transport is continuous, delivers interim results and carries the
    manager's language. *)
Definition WellFormed (m : Manager) : Prop :=
  (isRecording m = true -> hasTransport m = true) /\
  (forall r, recognition m = Some r ->
             continuous r = true /\ interimResults r = true
             /\ lang r = language m).

Definition isCallOnError (c : Call) : bool :=
  match c with CallOnError _ => true | _ => false end.

(** The transport calls of a trace, in order. *)
Definition transportView (t : list Call) : list Call :=
  filter (fun c => negb (isCallback c)) t.

(** *** The [onresult] handler of the JavaScript module

    It keeps two transcripts and reads [event.results[i][0].transcript]
    without a guard: an entry without a first alternative makes the read
    throw, which is [None] here.  [onInterim] tells whether that callback
    was supplied. *)
Inductive Heard : Type :=
| HeardResult (finalTranscript : string)
| HeardInterim (interimTranscript : string).

Fixpoint js_collect (steps i : nat) (rs : list SpeechResult)
  (finalTranscript interimTranscript : string) : option (string * string) :=
  match steps with
  | O => Some (finalTranscript, interimTranscript)
  | S k =>
      match nth_error rs i with
      | Some result =>
          match alternative result with
          | Some transcript =>
              if isFinal result
              then js_collect k (S i) rs (finalTranscript ++ transcript ++ " ")
                     interimTranscript
              else js_collect k (S i) rs finalTranscript
                     (interimTranscript ++ transcript)
          | None => None
          end
      | None => None
      end
  end.

Definition js_onresult (event : SpeechEvent) (onInterim : bool) (m : Manager)
  : option (list Heard) :=
  match js_collect (List.length (results event) - resultIndex event)
          (resultIndex event) (results event) EmptyString EmptyString with
  | Some (finalTranscript, interimTranscript) =>
      Some ((if Effects.truthy finalTranscript && onResult (callbacks m)
             then [HeardResult finalTranscript] else [])
              ++ (if Effects.truthy interimTranscript && onInterim
                  then [HeardInterim interimTranscript] else []))%list
  | None => None
  end.

(** The transcripts of the entries that are not final, concatenated. *)
Fixpoint interimText (rs : list SpeechResult) : string :=
  match rs with
  | [] => EmptyString
  | result :: rest =>
      match alternative result with
      | Some transcript =>
          if isFinal result then interimText rest
          else transcript ++ interimText rest
      | None => interimText rest
      end
  end.

Definition hasAlternative (result : SpeechResult) : bool :=
  match alternative result with Some _ => true | None => false end.

(** A transport call agrees with the flag when the transport is started
    with [isRecording] already set and stopped with it already cleared. *)
Definition flagAgrees (c : Call) : bool :=
  match c with
  | TransportStart isRecordingNow => isRecordingNow
  | TransportStop isRecordingNow => negb isRecordingNow
  | _ => true
  end.

End VoiceSession.

(** ** [storage.ts]: the key kept in [localStorage]

    [parseWithAI] reads the credential through [ApiKeyManager.get] and the
    model through [ModelManager.get].  [localStorage] is a map from keys to
    strings; each of its calls may throw (storage disabled, quota
    exceeded), which is an input of the function that makes the call.  The
    values saved by the three managers below are strings, which
    [saveToStorage] stores as they are. *)

Module Storage.

Definition API_KEY : string := "geminiApiKey".
Definition MODEL : string := "geminiModel".
Definition BACKGROUND : string := "admissionNoteBackground".

Definition LocalStorage : Type := string -> option string.

Definition getItem (key : string) (ls : LocalStorage) : option string := ls key.

Definition setItem (key value : string) (ls : LocalStorage) : LocalStorage :=
  fun k => if String.eqb k key then Some value else ls k.

Definition removeItem (key : string) (ls : LocalStorage) : LocalStorage :=
  fun k => if String.eqb k key then None else ls k.

(** [saveToStorage] on a string: the failure of [setItem] is logged and
    swallowed. *)
Definition saveToStorage (throws : bool) (key value : string)
  (ls : LocalStorage) : LocalStorage :=
  if throws then ls else setItem key value ls.

(** [safeJsonParse] of [utils.ts]. *)
Definition safeJsonParse (jsonString : string) (defaultValue : Json.json)
  : Json.json :=
  match Json.parse jsonString with
  | Some parsed => parsed
  | None => defaultValue
  end.

(** What [loadFromStorage] returns: its [defaultValue], the value the item
    parses to, or the item itself. *)
Inductive Loaded : Type :=
| DefaultValue
| Parsed (parsed : Json.json)
| Item (item : string).

Definition loadFromStorage (throws : bool) (key : string) (ls : LocalStorage)
  : Loaded :=
  if throws then DefaultValue
  else
    match getItem key ls with
    | None => DefaultValue
    | Some item =>
        match safeJsonParse item Json.JNull with
        | Json.JNull => Item item
        | parsed => Parsed parsed
        end
    end.

Definition removeFromStorage (throws : bool) (key : string)
  (ls : LocalStorage) : LocalStorage :=
  if throws then ls else removeItem key ls.

(** [ApiKeyManager] *)
Definition ApiKeyManager_save (throws : bool) (key : string)
  : LocalStorage -> LocalStorage := saveToStorage throws API_KEY key.
Definition ApiKeyManager_get (throws : bool) : LocalStorage -> Loaded :=
  loadFromStorage throws API_KEY.
Definition ApiKeyManager_clear (throws : bool)
  : LocalStorage -> LocalStorage := removeFromStorage throws API_KEY.

(** [ModelManager]; [DefaultValue] stands for [CONFIG.API.MODEL]. *)
Definition ModelManager_save (throws : bool) (model : string)
  : LocalStorage -> LocalStorage := saveToStorage throws MODEL model.
Definition ModelManager_get (throws : bool) : LocalStorage -> Loaded :=
  loadFromStorage throws MODEL.

(** [BackgroundManager] *)
Definition BackgroundManager_save (throws : bool) (dataUrl : string)
  : LocalStorage -> LocalStorage := saveToStorage throws BACKGROUND dataUrl.
Definition BackgroundManager_get (throws : bool) : LocalStorage -> Loaded :=
  loadFromStorage throws BACKGROUND.
Definition BackgroundManager_clear (throws : bool)
  : LocalStorage -> LocalStorage := removeFromStorage throws BACKGROUND.

End Storage.

(** ** Notions used to state properties of the repair and of the traces *)

Module RepairSpec.
Import Utils.

(** The scan as the specification words it.  A backslash takes the
    character after it out of consideration, wherever it stands; a double
    quote that is not so escaped opens or closes a string literal;
    braces and brackets count only outside literals.  [inside] tells
    whether the text starts inside a literal. *)
Fixpoint structural (inside : bool) (s : string) : list ascii :=
  match s with
  | EmptyString => []
  | String c r =>
      if Ascii.eqb c BACKSLASH then
        match r with
        | EmptyString => []
        | String _ r' => structural inside r'
        end
      else if Ascii.eqb c DQUOTE then structural (negb inside) r
      else if inside then structural inside r
      else c :: structural inside r
  end.

(** Whether the text ends inside a string literal. *)
Fixpoint unterminated (inside : bool) (s : string) : bool :=
  match s with
  | EmptyString => inside
  | String c r =>
      if Ascii.eqb c BACKSLASH then
        match r with
        | EmptyString => inside
        | String _ r' => unterminated inside r'
        end
      else if Ascii.eqb c DQUOTE then unterminated (negb inside) r
      else unterminated inside r
  end.

Definition occurrences (c : ascii) (l : list ascii) : Z :=
  Z.of_nat (List.length (filter (Ascii.eqb c) l)).

(** Openers minus closers among the characters outside literals. *)
Definition net (opening closing : ascii) (inside : bool) (s : string) : Z :=
  occurrences opening (structural inside s)
  - occurrences closing (structural inside s).

Definition netOpenBrackets (s : string) : Z := net "[" "]" false s.
Definition netOpenBraces (s : string) : Z := net "{" "}" false s.

Definition dropFirst (s : string) : string :=
  match s with
  | EmptyString => EmptyString
  | String _ r => r
  end.

(** The closers the last two loops append to a text whose scan is [st]. *)
Definition closers (st : ScanState) : string :=
  repeatChar "]" (Z.to_nat (bracketCount st))
    ++ repeatChar "}" (Z.to_nat (braceCount st)).

End RepairSpec.

Module TraceSpec.
Import Effects.

(** Every event that is a submission is this one. *)
Definition OnlySubmits (url : string) (body : RequestBody) (ev : Event) : Prop :=
  isFetch ev = true -> ev = Fetch url body.

(** The value the caller finds in the promise: [return null] and
    [return parsed] with a payload that parsed to [null] both fulfil it
    with [null]; [None] stands for a rejected promise. *)
Definition fulfilledWith (s : Settled (option Json.json)) : option Json.json :=
  match s with
  | Fulfilled (Some parsed) => Some parsed
  | Fulfilled None => Some Json.JNull
  | Rejected _ => None
  end.

End TraceSpec.

(** * Properties *)

(** ** Strings *)

Module StringFacts.

Lemma append_empty_r (s : string) : s ++ EmptyString = s.
Proof. induction s as [|c r IH]; simpl; [reflexivity | now rewrite IH]. Qed.

Lemma append_assoc (a b c : string) : (a ++ b) ++ c = a ++ (b ++ c).
Proof. induction a as [|x r IH]; simpl; [reflexivity | now rewrite IH]. Qed.

Lemma startsWith_app (s p q : string) :
  startsWith s (p ++ q) = true -> startsWith s p = true.
Proof.
  revert s; induction p as [|a p IH]; intros s H; [now destruct s|].
  destruct s as [|b s]; simpl in *; [discriminate|].
  apply andb_true_iff in H as [Hab Hrest].
  rewrite Hab; simpl; now apply IH.
Qed.

Lemma includes_nil (p : string) :
  includes EmptyString p = startsWith EmptyString p || false.
Proof. reflexivity. Qed.

Lemma includes_cons (c : ascii) (r p : string) :
  includes (String c r) p = startsWith (String c r) p || includes r p.
Proof. reflexivity. Qed.

Lemma includes_app (s p q : string) :
  includes s (p ++ q) = true -> includes s p = true.
Proof.
  induction s as [|c r IH]; intros H.
  - rewrite includes_nil in *.
    apply orb_true_iff in H as [H|H]; [|discriminate].
    now rewrite (startsWith_app _ _ _ H).
  - rewrite includes_cons in *.
    apply orb_true_iff in H as [H|H].
    + now rewrite (startsWith_app _ _ _ H).
    + rewrite (IH H); apply orb_true_r.
Qed.

Lemma not_includes_app (s p q : string) :
  includes s p = false -> includes s (p ++ q) = false.
Proof.
  intros H; destruct (includes s (p ++ q)) eqn:E; [|reflexivity].
  apply includes_app in E; congruence.
Qed.

Lemma substring_nonpositive (s : string) (b : Z) :
  (b <= 0)%Z -> substring s 0 b = EmptyString.
Proof.
  intros Hb; unfold substring.
  replace (Z.to_nat _) with O by lia.
  reflexivity.
Qed.

End StringFacts.

(** ** C1 and C2: extraction and repair *)

Module UtilsFacts.
Import Utils RepairSpec StringFacts Examples.

Lemma scanFrom_app (st : ScanState) (a b : string) :
  scanFrom st (a ++ b) = scanFrom (scanFrom st a) b.
Proof. revert st; induction a as [|c r IH]; intros st; simpl; auto. Qed.

(** The four letters of [null] leave both counters as they are, whatever
    the state of the scan. *)
Lemma scanFrom_null_counts (st : ScanState) :
  braceCount (scanFrom st "null") = braceCount st /\
  bracketCount (scanFrom st "null") = bracketCount st.
Proof. destruct st as [br bk [|] [|]]; split; reflexivity. Qed.

Lemma appendLoop_repeat (n : nat) (c : ascii) (result : string) :
  appendLoop n c result = result ++ repeatChar c n.
Proof.
  revert result; induction n as [|k IH]; intros result; simpl.
  - now rewrite append_empty_r.
  - rewrite IH, append_assoc; reflexivity.
Qed.

Lemma closeLoop_repeat (count : Z) (c : ascii) (result : string) :
  closeLoop count c result = result ++ repeatChar c (Z.to_nat count).
Proof. apply appendLoop_repeat. Qed.

(** The test on the text before the last quote can only succeed when that
    quote is not the first character, so the guard [lastQuote > 0] holds. *)
Lemma endsWith_forces_positive (jsonStr : string) :
  let lastQuote := lastIndexOf jsonStr DQUOTE in
  let beforeQuote := trim (substring jsonStr 0 lastQuote) in
  endsWithChar beforeQuote ":" || endsWithChar beforeQuote ","
    || endsWithChar beforeQuote "[" = true ->
  (lastQuote >? 0)%Z = true.
Proof.
  intros lastQuote beforeQuote H.
  destruct (lastQuote >? 0)%Z eqn:E; [reflexivity|].
  assert (Hle : (lastQuote <= 0)%Z) by lia.
  unfold beforeQuote in H.
  rewrite (substring_nonpositive _ _ Hle) in H.
  discriminate H.
Qed.

(** C1, as amended.  A text that holds no triple backtick and whose
    trimmed form parses as JSON is returned by [extractJsonFromText]
    trimmed, the repair pass skipped; when the text has no white space at
    either end either, it is returned as it is. *)
Theorem extractJsonFromText_valid_unchanged (s : string) :
  includes s "```" = false ->
  isValidJson (trim s) = true ->
  extractJsonFromText s = trim s /\
  (trim s = s -> extractJsonFromText s = s).
Proof.
  intros Hfence Hvalid.
  assert (Hjson : includes s "```json" = false)
    by exact (not_includes_app s "```" "json" Hfence).
  assert (Hres : extractJsonFromText s = trim s).
  { unfold extractJsonFromText. rewrite Hjson, Hfence, Hvalid. reflexivity. }
  split; [exact Hres|].
  intros Htrim. now rewrite Hres.
Qed.

Lemma extractJsonFromText_valid_unchanged_witness :
  includes Examples.paddedObject "```" = false /\
  isValidJson (trim Examples.paddedObject) = true /\
  extractJsonFromText Examples.paddedObject = "{}" /\
  extractJsonFromText Examples.repairedHello = Examples.repairedHello.
Proof.
  split; [reflexivity | split; [reflexivity | split]].
  - apply (extractJsonFromText_valid_unchanged Examples.paddedObject);
      reflexivity.
  - apply (extractJsonFromText_valid_unchanged Examples.repairedHello);
      reflexivity.
Defined.

(** C1 as stated does not hold: a document with white space around it
    parses as JSON and comes back trimmed, and a JSON string literal that
    holds two fence markers parses as JSON and comes back as the text
    between the markers. *)
Lemma extractJsonFromText_changes_valid_json :
  (isValidJson paddedObject = true /\
   extractJsonFromText paddedObject = "{}" /\
   extractJsonFromText paddedObject <> paddedObject) /\
  (isValidJson quotedFences = true /\
   extractJsonFromText quotedFences = "b" /\
   extractJsonFromText quotedFences <> quotedFences) /\
  ~ (forall s, isValidJson s = true -> extractJsonFromText s = s).
Proof.
  repeat split; try reflexivity; try (intro H; discriminate H).
  intro H. specialize (H paddedObject eq_refl). discriminate H.
Qed.

(** The scan of the code agrees with the reading of the specification.
    With [escapeNext] set, the first character is skipped. *)
Lemma unterminated_escape (inside : bool) (c : ascii) (r : string) :
  Ascii.eqb c BACKSLASH = true ->
  unterminated inside (String c r) = unterminated inside (dropFirst r).
Proof. intros H. cbn [unterminated]. rewrite H. now destruct r. Qed.

Lemma structural_escape (inside : bool) (c : ascii) (r : string) :
  Ascii.eqb c BACKSLASH = true ->
  structural inside (String c r) = structural inside (dropFirst r).
Proof. intros H. cbn [structural]. rewrite H. now destruct r. Qed.

Lemma net_outside (opening closing c : ascii) (r : string) :
  Ascii.eqb c BACKSLASH = false -> Ascii.eqb c DQUOTE = false ->
  net opening closing false (String c r)
  = (Z.b2z (Ascii.eqb opening c) - Z.b2z (Ascii.eqb closing c)
     + net opening closing false r)%Z.
Proof.
  intros Hb Hq. unfold net, occurrences. cbn [structural].
  rewrite Hb, Hq. cbn [filter].
  destruct (Ascii.eqb opening c), (Ascii.eqb closing c);
    cbn [List.length Z.b2z]; lia.
Qed.

Lemma scanFrom_reading (s : string) :
  forall st,
    let s' := if escapeNext st then dropFirst s else s in
    inString (scanFrom st s) = unterminated (inString st) s' /\
    bracketCount (scanFrom st s)
    = (bracketCount st + net "[" "]" (inString st) s')%Z /\
    braceCount (scanFrom st s)
    = (braceCount st + net "{" "}" (inString st) s')%Z.
Proof.
  induction s as [|c r IH]; intros [br bk ins esc].
  - cbn. destruct esc; cbn; unfold net; cbn; repeat split; lia.
  - cbn [scanFrom]. destruct esc.
    + exact (IH (mkScan br bk ins false)).
    + cbv zeta. cbn [escapeNext inString bracketCount braceCount].
      unfold scanStep. cbn [escapeNext inString bracketCount braceCount].
      destruct (Ascii.eqb c BACKSLASH) eqn:Hb.
      { specialize (IH (mkScan br bk ins true)). cbn in IH.
        unfold net in *.
        rewrite (unterminated_escape ins c r Hb),
                (structural_escape ins c r Hb).
        exact IH. }
      destruct (Ascii.eqb c DQUOTE) eqn:Hq.
      { specialize (IH (mkScan br bk (negb ins) false)). cbn in IH.
        unfold net in *. cbn [unterminated structural]. rewrite Hb, Hq.
        exact IH. }
      destruct ins.
      { specialize (IH (mkScan br bk true false)). cbn in IH.
        unfold net in *. cbn [unterminated structural]. rewrite Hb, Hq.
        exact IH. }
      rewrite !(net_outside _ _ c r Hb Hq).
      cbn [unterminated]. rewrite Hb, Hq.
      destruct (Ascii.eqb c "{") eqn:H1;
        [apply Ascii.eqb_eq in H1; subst c;
         specialize (IH (mkScan (br + 1) bk false false)); cbn in IH;
         cbn [Ascii.eqb Bool.eqb Z.b2z andb];
         destruct IH as (Hi & Hk & He); repeat split; [assumption | lia | lia]|].
      destruct (Ascii.eqb c "}") eqn:H2;
        [apply Ascii.eqb_eq in H2; subst c;
         specialize (IH (mkScan (br - 1) bk false false)); cbn in IH;
         cbn [Ascii.eqb Bool.eqb Z.b2z andb];
         destruct IH as (Hi & Hk & He); repeat split; [assumption | lia | lia]|].
      destruct (Ascii.eqb c "[") eqn:H3;
        [apply Ascii.eqb_eq in H3; subst c;
         specialize (IH (mkScan br (bk + 1) false false)); cbn in IH;
         cbn [Ascii.eqb Bool.eqb Z.b2z andb];
         destruct IH as (Hi & Hk & He); repeat split; [assumption | lia | lia]|].
      destruct (Ascii.eqb c "]") eqn:H4;
        [apply Ascii.eqb_eq in H4; subst c;
         specialize (IH (mkScan br (bk - 1) false false)); cbn in IH;
         cbn [Ascii.eqb Bool.eqb Z.b2z andb];
         destruct IH as (Hi & Hk & He); repeat split; [assumption | lia | lia]|].
      specialize (IH (mkScan br bk false false)). cbn in IH.
      rewrite (Ascii.eqb_sym "{" c), (Ascii.eqb_sym "}" c),
              (Ascii.eqb_sym "[" c), (Ascii.eqb_sym "]" c), H1, H2, H3, H4.
      cbn [Z.b2z]. destruct IH as (Hi & Hk & He).
      repeat split; [assumption | lia | lia].
Qed.

Lemma scan_reading (s : string) :
  inString (scan s) = unterminated false s /\
  bracketCount (scan s) = netOpenBrackets s /\
  braceCount (scan s) = netOpenBraces s.
Proof.
  destruct (scanFrom_reading s scanInit) as (Hi & Hk & He).
  unfold scan, netOpenBrackets, netOpenBraces. cbn in *.
  repeat split; [exact Hi | rewrite Hk; lia | rewrite He; lia].
Qed.

(** C2.  When the text ends inside a string literal and the trimmed text
    before its last quote ends with a colon, a comma or an opening
    bracket, [repairTruncatedJson] keeps the text before that quote,
    writes [null] in place of the rest, and appends one closing bracket
    per net-open bracket and then one closing brace per net-open brace.
    Literals, openers and closers are those of the specification's
    reading of the text, with which the scan of the code agrees on every
    text; the counts are those of the kept text, which the literal does
    not change.  The truncated document of the specification is repaired
    to the expected text. *)
Theorem repairTruncatedJson_null_branch (jsonStr : string) :
  let lastQuote := lastIndexOf jsonStr DQUOTE in
  let kept := substring jsonStr 0 lastQuote in
  let beforeQuote := trim kept in
  unterminated false jsonStr = true ->
  endsWithChar beforeQuote ":" || endsWithChar beforeQuote ","
    || endsWithChar beforeQuote "[" = true ->
  repairTruncatedJson jsonStr
    = (kept ++ "null")
        ++ repeatChar "]" (Z.to_nat (netOpenBrackets (kept ++ "null")))
        ++ repeatChar "}" (Z.to_nat (netOpenBraces (kept ++ "null")))
  /\ netOpenBrackets (kept ++ "null") = netOpenBrackets kept
  /\ netOpenBraces (kept ++ "null") = netOpenBraces kept
  /\ (forall s, inString (scan s) = unterminated false s
                /\ bracketCount (scan s) = netOpenBrackets s
                /\ braceCount (scan s) = netOpenBraces s)
  /\ repairTruncatedJson truncatedHello = repairedHello.
Proof.
  intros lastQuote kept beforeQuote Hin Hends.
  pose proof (endsWith_forces_positive jsonStr Hends) as Hpos.
  fold lastQuote in Hpos.
  destruct (scan_reading jsonStr) as (Hscan & _ & _).
  destruct (scan_reading (kept ++ "null")) as (_ & Hk & He).
  destruct (scan_reading kept) as (_ & Hk' & He').
  split; [|split; [|split; [|split]]].
  - unfold repairTruncatedJson.
    rewrite Hscan, Hin. fold lastQuote. rewrite Hpos.
    fold kept. fold beforeQuote. rewrite Hends.
    rewrite !closeLoop_repeat, Hk, He. apply append_assoc.
  - rewrite <- Hk, <- Hk'. unfold scan. rewrite scanFrom_app.
    apply scanFrom_null_counts.
  - rewrite <- He, <- He'. unfold scan. rewrite scanFrom_app.
    apply scanFrom_null_counts.
  - exact scan_reading.
  - reflexivity.
Qed.

Lemma repairTruncatedJson_null_branch_witness :
  unterminated false truncatedHello = true /\
  netOpenBrackets
    (substring truncatedHello 0 (lastIndexOf truncatedHello DQUOTE) ++ "null")
  = 0%Z /\
  netOpenBraces
    (substring truncatedHello 0 (lastIndexOf truncatedHello DQUOTE) ++ "null")
  = 1%Z /\
  repairTruncatedJson truncatedHello
    = (substring truncatedHello 0 (lastIndexOf truncatedHello DQUOTE) ++ "null")
        ++ repeatChar "]" 0 ++ repeatChar "}" 1.
Proof.
  split; [reflexivity | split; [reflexivity | split; [reflexivity|]]].
  apply (repairTruncatedJson_null_branch truncatedHello); reflexivity.
Defined.

End UtilsFacts.

(** ** C3 and C4: classification and backoff *)

Module ErrorsFacts.
Import Errors Effects.

(** C3, at the failing input.  When the request never reaches the
    service [fetch] rejects with a [TypeError].  [api.ts] hands that error
    to [isRetryableError] as it is, and it is classified fatal: the call
    submits once, never sleeps and reports the [TypeError].  [api.js]
    wraps the same rejection into a [NetworkError] first, which is
    classified retryable, and submits [MAX_ATTEMPTS] times. *)
Theorem fetch_rejection_is_classified_fatal :
  let failure := PlainError "TypeError" "Failed to fetch" in
  let ts := Api.parseWithAI Examples.rejecting "fever and cough"
              Examples.allCallbacks in
  let js := ApiJs.parseWithAI Examples.jsConfig Utils.extractJsonFromText
              Examples.jsRejecting Examples.allCallbacks
              "fever and cough" in
  (forall i, Api.fetchResult Examples.rejecting i
             = Api.Rejects "TypeError" "Failed to fetch") /\
  isRetryableError failure = false /\
  classify failure = Fatal /\
  networkView (fst ts)
  = [Fetch (Api.requestUrl Examples.rejecting "key")
       (Api.requestBody Examples.rejecting "fever and cough")] /\
  filter isOnError (fst ts) = [OnError (Some failure)] /\
  (forall message, classify (NetworkError message) = Retryable) /\
  List.length (filter isFetch (fst js)) = 3%nat /\
  List.length (filter isSleep (fst js)) = 2%nat.
Proof.
  cbv zeta.
  split; [intros i; reflexivity|].
  split; [reflexivity|]. split; [reflexivity|].
  split; [vm_compute; reflexivity|]. split; [vm_compute; reflexivity|].
  split; [intros message; reflexivity|].
  split; vm_compute; reflexivity.
Qed.

End ErrorsFacts.

(** ** The retry loop *)

Module LoopFacts.
Import Errors Effects CourseSpec.

Lemma NoOnError_app (a b : list Event) :
  NoOnError a -> NoOnError b -> NoOnError (a ++ b).
Proof.
  unfold NoOnError; intros Ha Hb. now rewrite filter_app, Ha, Hb.
Qed.

Lemma NoOnSuccess_app (a b : list Event) :
  NoOnSuccess a -> NoOnSuccess b -> NoOnSuccess (a ++ b).
Proof.
  unfold NoOnSuccess; intros Ha Hb. now rewrite filter_app, Ha, Hb.
Qed.

Lemma NoOnError_status (supplied : bool) (m : string) (k : StatusType) :
  NoOnError (called supplied (OnStatus m k)).
Proof. now destruct supplied. Qed.

Lemma NoOnSuccess_status (supplied : bool) (m : string) (k : StatusType) :
  NoOnSuccess (called supplied (OnStatus m k)).
Proof. now destruct supplied. Qed.

Section Loop.
Variable RETRY : RetryConfig.
Variable attemptBody : nat -> Eff Json.json.
Variable retryNotice : JsNumber.Platform -> JsError -> PrimFloat.float -> string.
Variable platform : JsNumber.Platform.
Variable callbacks : ParseCallbacks.

(** The body of the [try] never calls [onError], and calls [onSuccess]
    only when it goes on to return. *)
Hypothesis body_no_onError : forall j, NoOnError (fst (attemptBody j)).
Hypothesis body_throw_no_onSuccess :
  forall j e, snd (attemptBody j) = Throw e ->
              NoOnSuccess (fst (attemptBody j)).

Let loop := retryLoop RETRY attemptBody retryNotice platform callbacks.
Let M := MAX_ATTEMPTS RETRY.

(** The loop leaves in one of two ways: some attempt [k] returns after
    the attempts before it were retried, or some attempt [k] fails for
    good after the attempts before it were retried.  Nothing is reported
    through [onError] inside the loop. *)
Lemma retryLoop_course (remaining attempt : nat) (lastError : option JsError) :
  (attempt + remaining = M)%nat -> (1 <= remaining)%nat ->
  (exists k parsed t,
      (attempt <= k < M)%nat /\
      RetriedBetween RETRY attemptBody attempt k /\
      snd (attemptBody k) = Normal parsed /\
      loop remaining attempt lastError = (t, Returned parsed) /\
      NoOnError t)
  \/
  (exists k e t,
      (attempt <= k < M)%nat /\
      RetriedBetween RETRY attemptBody attempt k /\
      FinalFailure RETRY attemptBody k e /\
      loop remaining attempt lastError = (t, Fell (Some e)) /\
      NoOnError t /\ NoOnSuccess t).
Proof.
  revert attempt lastError.
  induction remaining as [|rest IH]; intros attempt lastError Hsum Hpos;
    [lia|].
  unfold loop in *. cbn [retryLoop].
  pose proof (body_no_onError attempt) as Hquiet.
  pose proof (body_throw_no_onSuccess attempt) as Hns.
  destruct (attemptBody attempt) as [t [parsed|error]] eqn:Hbody;
    cbn [fst snd] in *.
  - left. exists attempt, parsed, t.
    split; [lia|]. split; [intros j Hj; lia|].
    split; [now rewrite Hbody|].
    split; [reflexivity | assumption].
  - fold M.
    destruct (isRetryableError error) eqn:Hretry; cbn [andb].
    + destruct (attempt <? M - 1)%nat eqn:Hmore.
      * apply Nat.ltb_lt in Hmore.
        assert (Hrest : (1 <= rest)%nat) by lia.
        assert (Hsum' : (S attempt + rest = M)%nat) by lia.
        assert (Hhere : RetriedAt RETRY attemptBody attempt).
        { exists error. rewrite Hbody. repeat split; assumption. }
        assert (Hext : forall k,
                   RetriedBetween RETRY attemptBody (S attempt) k ->
                   RetriedBetween RETRY attemptBody attempt k).
        { intros k Hk j Hj.
          destruct (Nat.eq_dec j attempt) as [->|Hne];
            [exact Hhere | apply Hk; lia]. }
        destruct (IH (S attempt) (Some error) Hsum' Hrest)
          as [(k & parsed & t' & Hk & Hbefore & Hret & Hloop & Hq)
             |(k & e & t' & Hk & Hbefore & Hfinal & Hloop & Hq & Hs)];
          rewrite Hloop.
        -- left. exists k, parsed. eexists.
           split; [lia|]. split; [now apply Hext|].
           split; [assumption|]. split; [reflexivity|].
           repeat apply NoOnError_app; try assumption;
             try apply NoOnError_status; reflexivity.
        -- right. exists k, e. eexists.
           split; [lia|]. split; [now apply Hext|].
           split; [assumption|]. split; [reflexivity|]. split.
           ++ repeat apply NoOnError_app; try assumption;
                try apply NoOnError_status; reflexivity.
           ++ repeat apply NoOnSuccess_app; try assumption;
                try apply NoOnSuccess_status; try reflexivity.
              now apply (Hns error).
      * apply Nat.ltb_ge in Hmore.
        right. exists attempt, error, t.
        split; [lia|]. split; [intros j Hj; lia|].
        split; [split; [now rewrite Hbody | right; lia]|].
        split; [reflexivity|].
        split; [assumption | now apply (Hns error)].
    + right. exists attempt, error, t.
      split; [lia|]. split; [intros j Hj; lia|].
      split; [split; [now rewrite Hbody | now left]|].
      split; [reflexivity|].
      split; [assumption | now apply (Hns error)].
Qed.

End Loop.

End LoopFacts.

(** ** C6: locating the payload text *)

Module SelectionFacts.
Import Errors Utils Effects Api SelectionSpec.

Lemma looksLikeJson_truthy (t : string) :
  truthy t && looksLikeJson t = startsLikeJson t.
Proof. destruct t; reflexivity. Qed.

Lemma containsBraces_truthy (t : string) :
  truthy t && includes t "{" && includes t "}" = containsBraces t.
Proof. destruct t; reflexivity. Qed.

Lemma startsLikeJson_nonempty (t : string) :
  startsLikeJson t = true -> truthy t = true.
Proof. destruct t; [discriminate | reflexivity]. Qed.

Lemma containsBraces_nonempty (t : string) :
  containsBraces t = true -> truthy t = true.
Proof. destruct t; [discriminate | reflexivity]. Qed.

Lemma hasVisibleText_nonempty (t : string) :
  hasVisibleText t = true -> truthy t = true.
Proof. destruct t; [discriminate | reflexivity]. Qed.

Lemma firstPartWith_cons (P : string -> bool) (part : ResponsePart)
  (rest : list ResponsePart) :
  firstPartWith P (part :: rest)
  = if textSatisfies P part then text part else firstPartWith P rest.
Proof.
  unfold firstPartWith. simpl. now destruct (textSatisfies P part).
Qed.

Lemma firstPartWith_sound (P : string -> bool) (ps : list ResponsePart)
  (t : string) :
  firstPartWith P ps = Some t -> P t = true.
Proof.
  unfold firstPartWith.
  destruct (find (textSatisfies P) ps) as [part|] eqn:E; [|discriminate].
  apply find_some in E as [_ HP]. unfold textSatisfies in HP.
  intros Ht. now rewrite Ht in HP.
Qed.

Lemma strategy1_spec (ps : list ResponsePart) :
  strategy1 ps = firstPartWith startsLikeJson ps.
Proof.
  induction ps as [|part rest IH]; [reflexivity|].
  rewrite firstPartWith_cons. cbn [strategy1]. unfold textSatisfies.
  destruct (text part) as [t|]; [|exact IH].
  rewrite looksLikeJson_truthy, IH. reflexivity.
Qed.

Lemma strategy2_spec (ps : list ResponsePart) :
  strategy2 ps = firstPartWith containsBraces ps.
Proof.
  induction ps as [|part rest IH]; [reflexivity|].
  rewrite firstPartWith_cons. cbn [strategy2]. unfold textSatisfies.
  destruct (text part) as [t|]; [|exact IH].
  rewrite containsBraces_truthy, IH. reflexivity.
Qed.

(** The downward loop over the first [length l] indices sees the parts of
    [l] from the last to the first. *)
Lemma strategy3_from_spec (l r : list ResponsePart) :
  strategy3_from (List.length l) (l ++ r) = lastPartWith hasVisibleText l.
Proof.
  revert r. induction l as [|x l IH] using rev_ind; intros r; [reflexivity|].
  rewrite length_app, Nat.add_comm. cbn [List.length Nat.add strategy3_from].
  rewrite <- app_assoc.
  rewrite nth_error_app2 by lia. rewrite Nat.sub_diag. cbn [nth_error app].
  unfold lastPartWith in *. rewrite rev_app_distr. cbn [rev app].
  rewrite firstPartWith_cons. unfold textSatisfies, hasVisibleText at 1.
  specialize (IH (x :: r)). cbn [app] in IH.
  destruct (text x) as [t|]; [|exact IH].
  unfold truthy. destruct (negb (isEmptyString (trim t))); [reflexivity|].
  exact IH.
Qed.

Lemma strategy3_spec (ps : list ResponsePart) :
  strategy3 ps = lastPartWith hasVisibleText ps.
Proof.
  unfold strategy3.
  rewrite <- (app_nil_r ps) at 2. apply strategy3_from_spec.
Qed.

Lemma selectText_spec (data : GeminiResponse) :
  selectText (firstCandidate data) = specSelect (firstCandidateParts data).
Proof.
  unfold selectText, firstCandidateParts.
  destruct (firstCandidate data) as [c|]; [|reflexivity].
  destruct (cparts c) as [ps|]; [|reflexivity].
  unfold specSelect.
  rewrite strategy1_spec, strategy2_spec, strategy3_spec.
  destruct (firstPartWith startsLikeJson ps) as [t|] eqn:E1.
  - apply firstPartWith_sound, startsLikeJson_nonempty in E1.
    cbn [truthyOpt]. rewrite E1. cbn [negb truthyOpt]. rewrite E1.
    reflexivity.
  - cbn [truthyOpt negb].
    destruct (firstPartWith containsBraces ps) as [t|] eqn:E2; [|reflexivity].
    apply firstPartWith_sound, containsBraces_nonempty in E2.
    cbn [truthyOpt]. rewrite E2. reflexivity.
Qed.

Lemma specSelect_truthy (ps : list ResponsePart) (t : string) :
  specSelect ps = Some t -> truthy t = true.
Proof.
  unfold specSelect, lastPartWith.
  destruct (firstPartWith startsLikeJson ps) as [t1|] eqn:E1.
  - intros [= <-].
    now apply firstPartWith_sound, startsLikeJson_nonempty in E1.
  - destruct (firstPartWith containsBraces ps) as [t2|] eqn:E2.
    + intros [= <-].
      now apply firstPartWith_sound, containsBraces_nonempty in E2.
    + intros E3.
      now apply firstPartWith_sound, hasVisibleText_nonempty in E3.
Qed.

End SelectionFacts.

(** ** C5: the retry budget *)

Module BudgetFacts.
Import Errors Utils Effects Api CourseSpec.

Lemma networkView_app (a b : list Event) :
  networkView (a ++ b) = (networkView a ++ networkView b)%list.
Proof. apply filter_app. Qed.

Lemma networkView_status (supplied : bool) (m : string) (k : StatusType) :
  networkView (called supplied (OnStatus m k)) = [].
Proof. now destruct supplied. Qed.

Lemma fetches_status (supplied : bool) (m : string) (k : StatusType) :
  filter isFetch (called supplied (OnStatus m k)) = [].
Proof. now destruct supplied. Qed.

Section AlwaysFailing.
Variable RETRY : RetryConfig.
Variable w : World.
Variable callbacks : ParseCallbacks.
Variable url : string.
Variable body : RequestBody.
Variable hasImage : bool.

Hypothesis online : forall i, isOnline w i = true.
Hypothesis status500 :
  forall i, exists r, fetchResult w i = Resolves r /\ status r = 500%Z.

Let attempt_ := attemptBody RETRY w callbacks url body hasImage.
Let delay := fun i => calculateRetryDelay (platform w) i RETRY.

Lemma attemptBody_500 (i : nat) (r : Response) :
  fetchResult w i = Resolves r -> status r = 500%Z ->
  attempt_ i
  = ((called (onStatus callbacks)
        (OnStatus (statusMsg RETRY hasImage i) st_loading)
        ++ [Fetch url body])%list,
     Throw (apiErrorOf r)).
Proof.
  intros Hf Hs. unfold attempt_, attemptBody, doFetch, bind, notify, emit.
  rewrite online, Hf. unfold ret, throw.
  cbn -[called statusMsg apiErrorOf ok readJson handleData].
  unfold ok. rewrite Hs.
  cbn -[called statusMsg apiErrorOf].
  reflexivity.
Qed.

Lemma apiErrorOf_500_retryable (r : Response) :
  status r = 500%Z -> isRetryableError (apiErrorOf r) = true.
Proof.
  intros Hs. unfold apiErrorOf. cbn [isRetryableError]. now rewrite Hs.
Qed.

(** Every attempt submits once and fails; all but the last are followed
    by a sleep of the backoff delay of the attempt. *)
Lemma retryLoop_always_500 (remaining attempt : nat)
  (lastError : option JsError) :
  (attempt + remaining = MAX_ATTEMPTS RETRY)%nat -> (1 <= remaining)%nat ->
  exists t r,
    retryLoop RETRY attempt_ retryNotice (platform w) callbacks
      remaining attempt lastError = (t, Fell (Some (apiErrorOf r)))
    /\ fetchResult w (MAX_ATTEMPTS RETRY - 1) = Resolves r
    /\ status r = 500%Z
    /\ networkView t = alternation (Fetch url body) delay attempt remaining
    /\ List.length (filter isFetch t) = remaining.
Proof.
  revert attempt lastError.
  induction remaining as [|rest IH]; intros attempt lastError Hsum Hpos;
    [lia|].
  destruct (status500 attempt) as (r & Hf & Hs).
  cbn [retryLoop]. rewrite (attemptBody_500 attempt r Hf Hs).
  rewrite (apiErrorOf_500_retryable r Hs). cbn [andb].
  destruct rest as [|rest'].
  - assert (Hlast : attempt = (MAX_ATTEMPTS RETRY - 1)%nat) by lia.
    replace (attempt <? MAX_ATTEMPTS RETRY - 1)%nat with false
      by (symmetry; apply Nat.ltb_ge; lia).
    eexists. exists r.
    split; [reflexivity|]. split; [now rewrite <- Hlast|].
    split; [assumption|].
    split.
    + rewrite networkView_app, networkView_status. reflexivity.
    + rewrite filter_app, fetches_status. reflexivity.
  - replace (attempt <? MAX_ATTEMPTS RETRY - 1)%nat with true
      by (symmetry; apply Nat.ltb_lt; lia).
    destruct (IH (S attempt) (Some (apiErrorOf r))) as
      (t' & r' & Hloop & Hf' & Hs' & Hnet & Hcount); [lia | lia |].
    rewrite Hloop.
    eexists. exists r'.
    split; [reflexivity|]. split; [assumption|]. split; [assumption|].
    split.
    + rewrite !networkView_app, !networkView_status, Hnet.
      reflexivity.
    + rewrite !filter_app, !fetches_status.
      cbn [filter isFetch app List.length]. now rewrite Hcount.
Qed.

End AlwaysFailing.

(** C5, as amended.  With a credential, an input that is not blank, the
    connectivity probe reporting the host online at every attempt and a
    service that answers every submission with status 500, [parseWithAI]
    submits exactly [MAX_ATTEMPTS] times (3 in the configuration of the
    application), sleeps the backoff delay of the attempt between two
    consecutive submissions and nowhere else, and then reports the
    [ApiError] of the last response through [onStatus] and [onError];
    the promise is fulfilled with [null]. *)
Theorem parseWithAI_retry_budget (RETRY : RetryConfig) (w : World)
  (inputText : string) (callbacks : ParseCallbacks) (key : string) :
  (1 <= MAX_ATTEMPTS RETRY)%nat ->
  apiKey w = Some key -> truthy key = true ->
  truthy (trim inputText) = true ->
  (forall i, isOnline w i = true) ->
  (forall i, exists r, fetchResult w i = Resolves r /\ status r = 500%Z) ->
  let submission := Fetch (requestUrl w key) (requestBody w inputText) in
  exists t r,
    parseWithAI_with RETRY w inputText callbacks
    = ((t ++ surfacing callbacks
               "Server error. The AI service is experiencing issues."
               (apiErrorOf r))%list,
       Fulfilled None)
    /\ fetchResult w (MAX_ATTEMPTS RETRY - 1) = Resolves r
    /\ kindOf (apiErrorOf r) = KApi
    /\ statusCodeOf (apiErrorOf r) = Some 500%Z
    /\ List.length (filter isFetch t) = MAX_ATTEMPTS RETRY
    /\ networkView t
       = alternation submission
           (fun i => calculateRetryDelay (platform w) i RETRY)
           0 (MAX_ATTEMPTS RETRY)
    /\ MAX_ATTEMPTS CONFIG_RETRY = 3%nat.
Proof.
  intros Hmax Hkey Htruthy Htext Honline H500 submission.
  unfold parseWithAI_with. rewrite Hkey. cbn [truthyOpt].
  rewrite Htruthy, Htext. cbn [negb andb].
  destruct (retryLoop_always_500 RETRY w callbacks (requestUrl w key)
              (requestBody w inputText) (hasImageOf w) Honline H500
              (MAX_ATTEMPTS RETRY) 0 None)
    as (t & r & Hloop & Hlast & Hs & Hnet & Hcount); [lia | lia |].
  rewrite Hloop.
  exists t, r.
  split.
  - unfold surfacing, apiErrorOf, getErrorMessage. rewrite Hs. reflexivity.
  - split; [assumption|]. split; [reflexivity|].
    split; [cbn; now rewrite Hs|].
    split; [assumption | split; [exact Hnet | reflexivity]].
Qed.

Lemma parseWithAI_retry_budget_witness :
  let submission :=
    Fetch (requestUrl Examples.always500 "key")
      (requestBody Examples.always500 "fever and cough") in
  exists t r,
    parseWithAI Examples.always500 "fever and cough" Examples.allCallbacks
    = ((t ++ surfacing Examples.allCallbacks
               "Server error. The AI service is experiencing issues."
               (apiErrorOf r))%list,
       Fulfilled None)
    /\ List.length (filter isFetch t) = 3%nat
    /\ networkView t = [submission; Sleep (JsNumber.fromZ 1500); submission;
                        Sleep (JsNumber.fromZ 2500); submission].
Proof.
  intros submission.
  destruct (parseWithAI_retry_budget CONFIG_RETRY Examples.always500
              "fever and cough" Examples.allCallbacks "key")
    as (t & r & Hrun & _ & _ & _ & Hcount & Hnet & _).
  - cbn. lia.
  - reflexivity.
  - reflexivity.
  - reflexivity.
  - reflexivity.
  - intros i. eexists. split; reflexivity.
  - exists t, r.
    split; [exact Hrun|]. split; [exact Hcount|]. exact Hnet.
Defined.

(** C5 as stated leaves the connectivity probe out.  With the host offline
    during the first attempt only, every submission still fails with
    status 500 but there are two of them, not three; with the host offline
    throughout there is none and the failure reported is a
    [NetworkError]. *)
Lemma parseWithAI_offline_attempt_submits_nothing :
  (forall i, exists r,
      fetchResult Examples.offlineFirst i = Resolves r /\ status r = 500%Z) /\
  List.length
    (filter isFetch
       (fst (parseWithAI Examples.offlineFirst "fever and cough"
               Examples.allCallbacks))) = 2%nat /\
  List.length
    (filter isFetch
       (fst (parseWithAI Examples.offlineAlways "fever and cough"
               Examples.allCallbacks))) = 0%nat /\
  filter isOnError
    (fst (parseWithAI Examples.offlineAlways "fever and cough"
            Examples.allCallbacks))
  = [OnError (Some (NetworkError "You appear to be offline."))].
Proof.
  split; [intros i; eexists; split; reflexivity|].
  split; [reflexivity | split; reflexivity].
Qed.

End BudgetFacts.

(** ** C6, C7 and C8: one attempt, the precondition check, the way out *)

Module OrchestratorFacts.
Import Errors Utils Effects CourseSpec SelectionSpec LoopFacts SelectionFacts.

(** Case analysis over every branch of a [try] body. *)
Ltac branches :=
  repeat match goal with
    | |- context [match ?x with _ => _ end] =>
        lazymatch x with
        | context [match _ with _ => _ end] => fail
        | _ => destruct x eqn:?;
               cbn [fst snd app filter isOnError isOnSuccess] in *
        end
    end.

Lemma bind_ret_l {A B : Type} (a : A) (f : A -> Eff B) :
  bind ([], Normal a) f = f a.
Proof. unfold bind. now destruct (f a). Qed.

Section TypeScript.
Import Api.
Variable RETRY : RetryConfig.
Variable w : World.
Variable callbacks : ParseCallbacks.
Variable url : string.
Variable body : RequestBody.
Variable hasImage : bool.

Let attempt_ := attemptBody RETRY w callbacks url body hasImage.

Lemma ts_body_no_onError (j : nat) : NoOnError (fst (attempt_ j)).
Proof.
  unfold attempt_, attemptBody, doFetch, readJson, handleData, parsePayload,
    bind, notify, emit, ret, throw, called, NoOnError.
  branches; reflexivity.
Qed.

Lemma ts_body_throw_no_onSuccess (j : nat) (e : JsError) :
  snd (attempt_ j) = Throw e -> NoOnSuccess (fst (attempt_ j)).
Proof.
  unfold attempt_, attemptBody, doFetch, readJson, handleData, parsePayload,
    bind, notify, emit, ret, throw, called, NoOnSuccess.
  branches; cbn; intros H; try reflexivity; discriminate H.
Qed.

(** What an attempt does with a successful response [data]. *)
Lemma ts_body_on_data (attempt : nat) (response : Response)
  (data : GeminiResponse) :
  isOnline w attempt = true ->
  fetchResult w attempt = Resolves response ->
  ok response = true ->
  json response = Some data ->
  let before :=
    (called (onStatus callbacks)
       (OnStatus (statusMsg RETRY hasImage attempt) st_loading)
       ++ [Fetch url body])%list in
  attempt_ attempt
  = match specSelect (firstCandidateParts data) with
    | None => (before, Throw EMPTY_RESPONSE)
    | Some t =>
        match Json.parse (extractJsonFromText t) with
        | Some parsed =>
            ((before
                ++ called (onStatus callbacks)
                     (OnStatus
                        "Successfully parsed and populated form fields!"
                        st_success)
                ++ called (onSuccess callbacks) (OnSuccess parsed))%list,
             Normal parsed)
        | None => (before, Throw JSON_SYNTAX_ERROR)
        end
    end.
Proof.
  intros Hon Hf Hok Hj before.
  unfold attempt_, attemptBody, doFetch, readJson.
  unfold bind at 1 2 3, notify at 1, emit, ret, throw.
  rewrite Hon, Hf. cbn [negb app]. rewrite Hok. cbn [negb]. rewrite Hj.
  cbn [app]. rewrite bind_ret_l. unfold handleData.
  rewrite selectText_spec.
  destruct (specSelect (firstCandidateParts data)) as [t|] eqn:Hsel.
  - apply specSelect_truthy in Hsel. cbn [truthyOpt]. rewrite Hsel.
    cbn [negb]. unfold parsePayload, bind, notify, ret, throw.
    destruct (Json.parse (extractJsonFromText t)) as [parsed|].
    + unfold before. cbn [app]. rewrite app_nil_r, <- app_assoc.
      reflexivity.
    + reflexivity.
  - reflexivity.
Qed.

End TypeScript.

Section JavaScript.
Import ApiJs.
Variable CONFIG : Config.
Variable extractJsonFromText : string -> string.
Variable w : World.
Variable callbacks : ParseCallbacks.
Variable url : string.
Variable body : RequestBody.

Let attempt_ := attemptBody CONFIG extractJsonFromText w callbacks url body.

Lemma js_body_no_onError (j : nat) : NoOnError (fst (attempt_ j)).
Proof.
  unfold attempt_, attemptBody, makeApiRequest, parseApiResponse, tryCatch,
    bind, notify, emit, ret, throw, called, NoOnError.
  branches; reflexivity.
Qed.

Lemma js_body_throw_no_onSuccess (j : nat) (e : JsError) :
  snd (attempt_ j) = Throw e -> NoOnSuccess (fst (attempt_ j)).
Proof.
  unfold attempt_, attemptBody, makeApiRequest, parseApiResponse, tryCatch,
    bind, notify, emit, ret, throw, called, NoOnSuccess.
  branches; cbn; intros H; try reflexivity; discriminate H.
Qed.

End JavaScript.




(** C7.  Without a credential, or with a blank input text and no image,
    [parseWithAI] makes one call, [onStatus] with the validation message
    and the kind [error], and its promise is fulfilled with [null]: no
    submission, no sleep, no attempt.  The JavaScript orchestrator, which
    knows no image, does the same on a missing credential or a blank
    input and also hands the [ValidationError] to [onError]. *)
Theorem parseWithAI_validation :
  (forall (RETRY : RetryConfig) (w : Api.World) (inputText : string)
          (callbacks : ParseCallbacks),
      truthyOpt (Api.apiKey w) = false \/
      (truthy (trim inputText) = false /\ Api.currentImage w = None) ->
      exists message,
        Api.parseWithAI_with RETRY w inputText callbacks
        = (called (onStatus callbacks) (OnStatus message st_error),
           Fulfilled None)
        /\ truthy message = true
        /\ networkView
             (fst (Api.parseWithAI_with RETRY w inputText callbacks)) = [])
  /\
  (forall (CONFIG : ApiJs.Config) (extract : string -> string)
          (w : ApiJs.World) (inputText : string)
          (callbacks : ParseCallbacks),
      truthyOpt (ApiJs.apiKey w) = false \/
      truthy (trim inputText) = false ->
      exists message field,
        ApiJs.parseWithAI CONFIG extract w callbacks inputText
        = (surfacing callbacks message (ValidationError message field),
           Fulfilled None)
        /\ truthy message = true
        /\ networkView
             (fst (ApiJs.parseWithAI CONFIG extract w callbacks inputText))
           = []).
Proof.
  split.
  - intros RETRY w inputText callbacks H.
    unfold Api.parseWithAI_with.
    destruct (truthyOpt (Api.apiKey w)) eqn:Hkey; cbn [negb].
    + destruct H as [H|[Htext Himg]]; [discriminate H|].
      unfold Api.hasImageOf. rewrite Htext, Himg. cbn [negb andb].
      exists Api.NO_INPUT_MESSAGE. repeat split.
      now destruct (onStatus callbacks).
    + exists Api.NO_KEY_MESSAGE. repeat split.
      now destruct (onStatus callbacks).
  - intros CONFIG extract w inputText callbacks H.
    unfold ApiJs.parseWithAI, ApiJs.validateInputs.
    destruct (truthyOpt (ApiJs.apiKey w)) eqn:Hkey; cbn [negb].
    + destruct H as [H|Htext]; [discriminate H|].
      rewrite Htext. rewrite orb_true_r. cbn [throw].
      eexists. eexists. split; [reflexivity|]. split; [reflexivity|].
      cbn [fst]. now destruct (onStatus callbacks), (onError callbacks).
    + cbn [throw].
      eexists. eexists. split; [reflexivity|]. split; [reflexivity|].
      cbn [fst]. now destruct (onStatus callbacks), (onError callbacks).
Qed.

Lemma parseWithAI_validation_witness :
  (exists message,
      Api.parseWithAI Examples.noCredential "fever and cough"
        Examples.allCallbacks
      = ([OnStatus message st_error], Fulfilled None))
  /\
  (exists message field,
      ApiJs.parseWithAI Examples.jsConfig (fun s => s)
        Examples.jsUnauthorized Examples.allCallbacks "   "
      = ([OnStatus message st_error;
          OnError (Some (ValidationError message field))],
         Fulfilled None)).
Proof.
  split.
  - destruct (proj1 parseWithAI_validation Api.CONFIG_RETRY
                Examples.noCredential "fever and cough"
                Examples.allCallbacks (or_introl eq_refl))
      as (message & Hrun & _).
    exists message. exact Hrun.
  - destruct (proj2 parseWithAI_validation Examples.jsConfig (fun s => s)
                Examples.jsUnauthorized "   " Examples.allCallbacks
                (or_intror eq_refl))
      as (message & field & Hrun & _).
    exists message, field. exact Hrun.
Defined.




End OrchestratorFacts.

(** ** C9 and C10: the voice session *)

Module VoiceFacts.
Import Voice VoiceSpec.

(** C9, as amended.  When the platform fires the end event while
    [isRecording] is true, the handler calls the transport's [start()]
    again, whether or not that call throws, leaves the manager as it is
    (still recording) and calls no callback; in both managers.  With the
    start event that follows a [start()] that did not throw, the
    TypeScript manager, which registers no handler for it, still calls
    nothing: there the restart cannot be seen.  The JavaScript manager
    runs its [onstart] handler, which calls [onStart] when the caller
    supplied it; [onEnd] is not called. *)
Theorem onend_while_recording_restarts (m : Manager) (startThrows : bool) :
  isRecording m = true ->
  hasTransport m = true ->
  ts_onend startThrows m = ([TransportStart true], m) /\
  js_onend startThrows m = ([TransportStart true], m) /\
  ts_endThenStarted startThrows m = ([TransportStart true], m) /\
  js_endThenStarted startThrows m
  = ((TransportStart true
        :: (if startThrows then []
            else called (onStart (callbacks m)) CallOnStart))%list, m) /\
  filter isCallback (fst (ts_endThenStarted startThrows m)) = [] /\
  countOnEnd (fst (js_endThenStarted startThrows m)) = 0%nat /\
  isRecording (snd (ts_endThenStarted startThrows m)) = true /\
  isRecording (snd (js_endThenStarted startThrows m)) = true.
Proof.
  intros Hrec Htr.
  destruct m as [[r|] rec_ lang_ [cr ce cs cend]]; [|discriminate Htr].
  cbn in Hrec. subst rec_.
  destruct startThrows, cs; repeat split; reflexivity.
Qed.

Lemma onend_while_recording_restarts_witness :
  ts_endThenStarted false Examples.recordingManager
    = ([TransportStart true], Examples.recordingManager) /\
  js_onend true Examples.recordingManager
    = ([TransportStart true], Examples.recordingManager).
Proof.
  split.
  - apply (onend_while_recording_restarts Examples.recordingManager false);
      reflexivity.
  - apply (onend_while_recording_restarts Examples.recordingManager true);
      reflexivity.
Defined.

(** C9 as stated has the restart call no callback at all.  In the
    JavaScript manager the restarted transport fires its start event and
    the handler registered for it calls the caller's [onStart]. *)
Lemma onStart_shows_the_restart :
  isRecording Examples.recordingManager = true /\
  hasTransport Examples.recordingManager = true /\
  js_endThenStarted false Examples.recordingManager
    = ([TransportStart true; CallOnStart], Examples.recordingManager) /\
  filter isCallback (fst (js_endThenStarted false Examples.recordingManager))
    = [CallOnStart] /\
  ~ (forall m startThrows,
        isRecording m = true -> hasTransport m = true ->
        filter isCallback (fst (js_endThenStarted startThrows m)) = []).
Proof.
  split; [reflexivity|]. split; [reflexivity|].
  split; [reflexivity|]. split; [reflexivity|].
  intros H. specialize (H Examples.recordingManager false eq_refl eq_refl).
  discriminate H.
Qed.

(** C10, as amended.  [stop()] clears [isRecording] before it asks the
    transport to halt, and an exception of the halt changes nothing; the
    end event that follows starts nothing.  With a transport, [stop()]
    and the following end event together call [onEnd] once when it was
    supplied: the TypeScript manager from [stop()] itself, right after
    the halt request, the JavaScript manager from the end handler.
    Without a transport the TypeScript [stop()] calls [onEnd] at once and
    the JavaScript [stop()] calls nothing. *)
Theorem stop_then_end (m : Manager) (stopThrows startThrows : bool) :
  (hasTransport m = true ->
   ts_stop stopThrows m
     = ((TransportStop false :: called (onEnd (callbacks m)) CallOnEnd)%list,
        setRecording false m) /\
   ts_onend startThrows (setRecording false m) = ([], setRecording false m) /\
   js_stop stopThrows m = ([TransportStop false], setRecording false m) /\
   js_onend startThrows (setRecording false m)
     = (called (onEnd (callbacks m)) CallOnEnd, setRecording false m) /\
   countRestarts (fst (ts_stopThenEnd stopThrows startThrows m)) = 0%nat /\
   countRestarts (fst (js_stopThenEnd stopThrows startThrows m)) = 0%nat /\
   (onEnd (callbacks m) = true ->
    countOnEnd (fst (ts_stopThenEnd stopThrows startThrows m)) = 1%nat /\
    countOnEnd (fst (js_stopThenEnd stopThrows startThrows m)) = 1%nat))
  /\
  (hasTransport m = false ->
   ts_stop stopThrows m
     = (called (onEnd (callbacks m)) CallOnEnd, setRecording false m) /\
   js_stop stopThrows m = ([], setRecording false m))
  /\ ts_stop true m = ts_stop false m
  /\ js_stop true m = js_stop false m.
Proof.
  destruct m as [[r|] rec_ lang_ [cr ce cs cend]].
  - split; [intros _ | split; [intros H; discriminate H | split; reflexivity]].
    split; [reflexivity|]. split; [reflexivity|].
    split; [reflexivity|]. split; [reflexivity|].
    split; [now destruct cend|]. split; [now destruct cend|].
    cbn [callbacks onEnd]. intros ->. split; reflexivity.
  - split; [intros H; discriminate H|].
    split; [intros _; split; reflexivity | split; reflexivity].
Qed.

Lemma stop_then_end_witness :
  fst (ts_stopThenEnd false false Examples.recordingManager)
    = [TransportStop false; CallOnEnd] /\
  fst (js_stopThenEnd false false Examples.recordingManager)
    = [TransportStop false; CallOnEnd] /\
  countOnEnd (fst (ts_stopThenEnd false false Examples.recordingManager))
    = 1%nat.
Proof.
  split; [reflexivity | split; [reflexivity|]].
  apply (stop_then_end Examples.recordingManager false false);
    reflexivity.
Defined.

(** C10 as stated has [onEnd] wait for the platform's end event when a
    transport exists and fire at once when none exists.  The TypeScript
    [stop()] has already called [onEnd] when it returns, before any end
    event; the JavaScript [stop()] of a manager without a transport calls
    nothing at all. *)
Lemma onEnd_timing_differs :
  fst (ts_stop false Examples.recordingManager)
    = [TransportStop false; CallOnEnd] /\
  fst (ts_onend false (snd (ts_stop false Examples.recordingManager))) = [] /\
  hasTransport Examples.freshManager = false /\
  fst (js_stop false Examples.freshManager) = [] /\
  countOnEnd (fst (js_stop false Examples.freshManager)) = 0%nat.
Proof. repeat split; reflexivity. Qed.

End VoiceFacts.

(** ** [sanitizeHTML] *)

Module SanitizeFacts.
Import Effects Sanitize StringFacts.

Lemma replaceAllChar_app (c : ascii) (by_ a b : string) :
  replaceAllChar c by_ (a ++ b)
  = replaceAllChar c by_ a ++ replaceAllChar c by_ b.
Proof.
  induction a as [|d r IH]; [reflexivity|].
  cbn [append replaceAllChar]. rewrite IH.
  destruct (Ascii.eqb d c); [now rewrite append_assoc | reflexivity].
Qed.

Lemma passes_app (a b : string) : passes (a ++ b) = passes a ++ passes b.
Proof. unfold passes. now rewrite !replaceAllChar_app. Qed.

Lemma passes_char (d : ascii) : passes (str d) = escapeChar d.
Proof.
  unfold passes, escapeChar, str.
  destruct (Ascii.eqb d "&") eqn:E1.
  { apply Ascii.eqb_eq in E1. subst d. reflexivity. }
  cbn [replaceAllChar]. rewrite E1.
  destruct (Ascii.eqb d "<") eqn:E2.
  { apply Ascii.eqb_eq in E2. subst d. reflexivity. }
  cbn [replaceAllChar]. rewrite E2.
  destruct (Ascii.eqb d ">") eqn:E3.
  { apply Ascii.eqb_eq in E3. subst d. reflexivity. }
  cbn [replaceAllChar]. rewrite E3.
  destruct (Ascii.eqb d DQUOTE) eqn:E4.
  { apply Ascii.eqb_eq in E4. subst d. reflexivity. }
  cbn [replaceAllChar]. rewrite E4.
  destruct (Ascii.eqb d "'") eqn:E5.
  { apply Ascii.eqb_eq in E5. subst d. reflexivity. }
  cbn [replaceAllChar]. rewrite E5. reflexivity.
Qed.

Lemma passes_escapeAll (text : string) : passes text = escapeAll text.
Proof.
  induction text as [|d r IH]; [reflexivity|].
  change (String d r) with (str d ++ r).
  rewrite passes_app, passes_char, IH. reflexivity.
Qed.

Lemma sanitizeHTML_escapeAll (text : string) :
  sanitizeHTML text = escapeAll text.
Proof.
  unfold sanitizeHTML. destruct text as [|d r]; [reflexivity|].
  cbn [truthy isEmptyString negb]. apply passes_escapeAll.
Qed.

Lemma occurs_app (c : ascii) (a b : string) :
  occurs c (a ++ b) = occurs c a || occurs c b.
Proof.
  induction a as [|d r IH]; [reflexivity|].
  cbn [append occurs]. now rewrite IH, orb_assoc.
Qed.

Lemma includes_char (s : string) (c : ascii) :
  includes s (str c) = occurs c s.
Proof.
  induction s as [|d r IH]; [reflexivity|].
  rewrite includes_cons, IH. cbn [startsWith str occurs].
  rewrite Ascii.eqb_sym. now destruct r; rewrite andb_true_r.
Qed.

Lemma escapeChar_safe (c d : ascii) :
  c = "<"%char \/ c = ">"%char \/ c = DQUOTE \/ c = "'"%char ->
  occurs c (escapeChar d) = false.
Proof.
  intros Hc. unfold escapeChar.
  destruct (Ascii.eqb d "&") eqn:E1;
    [destruct Hc as [->|[->|[->| ->]]]; reflexivity|].
  destruct (Ascii.eqb d "<") eqn:E2;
    [destruct Hc as [->|[->|[->| ->]]]; reflexivity|].
  destruct (Ascii.eqb d ">") eqn:E3;
    [destruct Hc as [->|[->|[->| ->]]]; reflexivity|].
  destruct (Ascii.eqb d DQUOTE) eqn:E4;
    [destruct Hc as [->|[->|[->| ->]]]; reflexivity|].
  destruct (Ascii.eqb d "'") eqn:E5;
    [destruct Hc as [->|[->|[->| ->]]]; reflexivity|].
  cbn [str occurs]. rewrite orb_false_r.
  destruct Hc as [->|[->|[->| ->]]]; assumption.
Qed.

(** X1.  The text [sanitizeHTML] returns holds no [<], no [>], no double
    quote and no apostrophe, whatever it was given. *)
Theorem sanitizeHTML_has_no_markup (text : string) (c : ascii) :
  c = "<"%char \/ c = ">"%char \/ c = DQUOTE \/ c = "'"%char ->
  includes (sanitizeHTML text) (str c) = false.
Proof.
  intros Hc. rewrite includes_char, sanitizeHTML_escapeAll.
  induction text as [|d r IH]; [reflexivity|].
  cbn [escapeAll]. rewrite occurs_app, IH, (escapeChar_safe c d Hc).
  reflexivity.
Qed.

Lemma sanitizeHTML_has_no_markup_witness :
  includes (sanitizeHTML "<b>Tom & Jerry</b>") (str "<") = false.
Proof.
  apply (sanitizeHTML_has_no_markup "<b>Tom & Jerry</b>" "<").
  left. reflexivity.
Defined.

Lemma length_append (a b : string) :
  String.length (a ++ b) = (String.length a + String.length b)%nat.
Proof. induction a as [|d r IH]; cbn; [reflexivity | now rewrite IH]. Qed.

Lemma startsWith_empty (s : string) : startsWith s EmptyString = true.
Proof. now destruct s. Qed.

Lemma unescape_escapeChar (d : ascii) (rest : string) :
  unescapeFrom 0 (escapeChar d ++ rest) = String d (unescapeFrom 0 rest).
Proof.
  unfold escapeChar.
  destruct (Ascii.eqb d "&") eqn:E1.
  { apply Ascii.eqb_eq in E1. subst d. cbn. now rewrite startsWith_empty. }
  destruct (Ascii.eqb d "<") eqn:E2.
  { apply Ascii.eqb_eq in E2. subst d. cbn. now rewrite startsWith_empty. }
  destruct (Ascii.eqb d ">") eqn:E3.
  { apply Ascii.eqb_eq in E3. subst d. cbn. now rewrite startsWith_empty. }
  destruct (Ascii.eqb d DQUOTE) eqn:E4.
  { apply Ascii.eqb_eq in E4. subst d. cbn. now rewrite startsWith_empty. }
  destruct (Ascii.eqb d "'") eqn:E5.
  { apply Ascii.eqb_eq in E5. subst d. cbn. now rewrite startsWith_empty. }
  cbn [str append unescapeFrom startsWith].
  rewrite (Ascii.eqb_sym "&" d), E1. reflexivity.
Qed.

Lemma unescape_escapeAll (text : string) : unescape (escapeAll text) = text.
Proof.
  unfold unescape. induction text as [|d r IH]; [reflexivity|].
  cbn [escapeAll]. now rewrite unescape_escapeChar, IH.
Qed.

(** X2.  [sanitizeHTML] loses nothing: reading the five entities back
    gives the text it was given, so two different texts never sanitise to
    the same string. *)
Theorem sanitizeHTML_injective (a b : string) :
  unescape (sanitizeHTML a) = a /\
  (sanitizeHTML a = sanitizeHTML b -> a = b).
Proof.
  split.
  - rewrite sanitizeHTML_escapeAll. apply unescape_escapeAll.
  - intros H.
    rewrite <- (unescape_escapeAll a), <- (unescape_escapeAll b).
    now rewrite <- !sanitizeHTML_escapeAll, H.
Qed.

Lemma sanitizeHTML_injective_witness :
  unescape (sanitizeHTML "a < b && c") = "a < b && c" /\
  "a < b && c" = "a < b && c".
Proof.
  destruct (sanitizeHTML_injective "a < b && c" "a < b && c") as [H1 H2].
  split; [exact H1 | exact (H2 eq_refl)].
Defined.

(** X3.  [sanitizeHTML] never shortens a text, and returns it unchanged
    exactly when it holds none of the five characters it escapes (the
    ampersand, the two angle brackets, the double quote, the apostrophe). *)
Theorem sanitizeHTML_clean_text (text : string) :
  (String.length text <= String.length (sanitizeHTML text))%nat /\
  (sanitizeHTML text = text <->
   forall c, isSpecial c = true -> occurs c text = false).
Proof.
  rewrite sanitizeHTML_escapeAll.
  assert (Hlen : forall t, (String.length t <= String.length (escapeAll t))%nat).
  { induction t as [|d r IH]; [reflexivity|].
    cbn [escapeAll]. rewrite length_append. cbn [String.length].
    assert (1 <= String.length (escapeChar d))%nat; [|lia].
    unfold escapeChar.
    repeat match goal with
           | |- context [if ?b then _ else _] => destruct b
           end; cbn; lia. }
  split; [apply Hlen|].
  induction text as [|d r IH].
  - split; [intros _ c _; reflexivity | reflexivity].
  - cbn [escapeAll]. split.
    + intros Heq c Hc.
      destruct (isSpecial d) eqn:Hd.
      * exfalso.
        assert (Hl : String.length (escapeChar d ++ escapeAll r)
                     = String.length (String d r)) by now rewrite Heq.
        rewrite length_append in Hl. cbn [String.length] in Hl.
        pose proof (Hlen r).
        assert (2 <= String.length (escapeChar d))%nat; [|lia].
        unfold isSpecial in Hd. unfold escapeChar.
        destruct (Ascii.eqb d "&"); [cbn; lia|].
        destruct (Ascii.eqb d "<"); [cbn; lia|].
        destruct (Ascii.eqb d ">"); [cbn; lia|].
        destruct (Ascii.eqb d DQUOTE); [cbn; lia|].
        destruct (Ascii.eqb d "'"); [cbn; lia | discriminate Hd].
      * assert (He : escapeChar d = str d).
        { unfold isSpecial in Hd. unfold escapeChar.
          destruct (Ascii.eqb d "&"); [discriminate Hd|].
          destruct (Ascii.eqb d "<"); [discriminate Hd|].
          destruct (Ascii.eqb d ">"); [discriminate Hd|].
          destruct (Ascii.eqb d DQUOTE); [discriminate Hd|].
          destruct (Ascii.eqb d "'"); [discriminate Hd | reflexivity]. }
        rewrite He in Heq. cbn [str append] in Heq.
        injection Heq as Heq. cbn [occurs].
        rewrite (proj1 IH Heq c Hc), orb_false_r.
        destruct (Ascii.eqb d c) eqn:Edc; [|reflexivity].
        apply Ascii.eqb_eq in Edc. subst c. congruence.
    + intros Hclean.
      assert (Hd : isSpecial d = false).
      { destruct (isSpecial d) eqn:Hd; [|reflexivity].
        specialize (Hclean d Hd). cbn [occurs] in Hclean.
        now rewrite Ascii.eqb_refl in Hclean. }
      assert (He : escapeChar d = str d).
      { unfold isSpecial in Hd. unfold escapeChar.
        destruct (Ascii.eqb d "&"); [discriminate Hd|].
        destruct (Ascii.eqb d "<"); [discriminate Hd|].
        destruct (Ascii.eqb d ">"); [discriminate Hd|].
        destruct (Ascii.eqb d DQUOTE); [discriminate Hd|].
        destruct (Ascii.eqb d "'"); [discriminate Hd | reflexivity]. }
      rewrite He. cbn [str append]. f_equal. apply IH.
      intros c Hc. specialize (Hclean c Hc). cbn [occurs] in Hclean.
      now apply orb_false_iff in Hclean as [_ ?].
Qed.

End SanitizeFacts.

(** ** More on [repairTruncatedJson] *)

Module RepairFacts.
Import Utils RepairSpec StringFacts UtilsFacts.

Lemma scanFrom_brackets (n : nat) (br bk : Z) :
  scanFrom (mkScan br bk false false) (repeatChar "]" n)
  = mkScan br (bk - Z.of_nat n) false false.
Proof.
  revert bk. induction n as [|k IH]; intros bk.
  - cbn. f_equal. lia.
  - cbn [repeatChar scanFrom]. change (scanStep (mkScan br bk false false) "]")
      with (mkScan br (bk - 1) false false).
    rewrite IH. f_equal. lia.
Qed.

Lemma scanFrom_braces (n : nat) (br bk : Z) :
  scanFrom (mkScan br bk false false) (repeatChar "}" n)
  = mkScan (br - Z.of_nat n) bk false false.
Proof.
  revert br. induction n as [|k IH]; intros br.
  - cbn. f_equal. lia.
  - cbn [repeatChar scanFrom]. change (scanStep (mkScan br bk false false) "}")
      with (mkScan (br - 1) bk false false).
    rewrite IH. f_equal. lia.
Qed.

Lemma repair_outside_string (s : string) :
  inString (scan s) = false ->
  repairTruncatedJson s = s ++ closers (scan s).
Proof.
  intros Hin. unfold repairTruncatedJson, closers. rewrite Hin.
  rewrite !closeLoop_repeat. apply append_assoc.
Qed.

Lemma scan_after_closers (s : string) :
  inString (scan s) = false -> escapeNext (scan s) = false ->
  scan (s ++ closers (scan s))
  = mkScan (Z.min (braceCount (scan s)) 0) (Z.min (bracketCount (scan s)) 0)
      false false.
Proof.
  intros Hin Hesc. unfold scan at 1. rewrite scanFrom_app. fold (scan s).
  destruct (scan s) as [br bk i e]. cbn in Hin, Hesc. subst i e.
  unfold closers. cbn [bracketCount braceCount].
  rewrite scanFrom_app, scanFrom_brackets, scanFrom_braces.
  f_equal; lia.
Qed.

(** X4.  When the scan of the input ends outside a string (and not right
    after a backslash), [repairTruncatedJson] appends to the input one
    closing bracket per net-open bracket, then one closing brace per
    net-open brace, and nothing else; the same scan of the result then
    finds no bracket and no brace left open. *)
Theorem repairTruncatedJson_closes_everything (s : string) :
  inString (scan s) = false ->
  escapeNext (scan s) = false ->
  repairTruncatedJson s
    = s ++ repeatChar "]" (Z.to_nat (bracketCount (scan s)))
        ++ repeatChar "}" (Z.to_nat (braceCount (scan s)))
  /\ (bracketCount (scan (repairTruncatedJson s)) <= 0)%Z
  /\ (braceCount (scan (repairTruncatedJson s)) <= 0)%Z
  /\ inString (scan (repairTruncatedJson s)) = false.
Proof.
  intros Hin Hesc.
  rewrite (repair_outside_string s Hin), (scan_after_closers s Hin Hesc).
  cbn [bracketCount braceCount inString].
  split; [reflexivity|]. split; [lia|]. split; [lia | reflexivity].
Qed.

Lemma repairTruncatedJson_closes_everything_witness :
  repairTruncatedJson "{[1, [2, 3" = "{[1, [2, 3]]}".
Proof.
  apply (repairTruncatedJson_closes_everything "{[1, [2, 3"); reflexivity.
Defined.

(** X5.  On such an input a second repair changes nothing:
    [repairTruncatedJson] is idempotent. *)
Theorem repairTruncatedJson_idempotent (s : string) :
  inString (scan s) = false ->
  escapeNext (scan s) = false ->
  repairTruncatedJson (repairTruncatedJson s) = repairTruncatedJson s.
Proof.
  intros Hin Hesc.
  rewrite (repair_outside_string s Hin).
  pose proof (scan_after_closers s Hin Hesc) as Hscan.
  rewrite repair_outside_string by now rewrite Hscan.
  rewrite Hscan. unfold closers at 2. cbn [bracketCount braceCount].
  replace (Z.to_nat (Z.min (bracketCount (scan s)) 0)) with O by lia.
  replace (Z.to_nat (Z.min (braceCount (scan s)) 0)) with O by lia.
  apply append_empty_r.
Qed.

Lemma repairTruncatedJson_idempotent_witness :
  repairTruncatedJson (repairTruncatedJson "[1, 2, 3")
  = repairTruncatedJson "[1, 2, 3".
Proof.
  apply (repairTruncatedJson_idempotent "[1, 2, 3"); reflexivity.
Defined.

Lemma startsWith_refl_app (a b : string) : startsWith (a ++ b) a = true.
Proof.
  induction a as [|c r IH]; [now destruct b|].
  cbn [append startsWith]. now rewrite Ascii.eqb_refl, IH.
Qed.

Lemma startsWith_app_l (a b p : string) :
  startsWith a p = true -> startsWith (a ++ b) p = true.
Proof.
  revert a. induction p as [|x p IH]; intros a H; [now destruct (a ++ b)|].
  destruct a as [|y a]; [discriminate H|].
  cbn [append startsWith] in *.
  apply andb_true_iff in H as [Hxy Hrest]. now rewrite Hxy, (IH a Hrest).
Qed.

Lemma startsWith_take (n m : nat) (s : string) :
  (n <= m)%nat -> startsWith (take m s) (take n s) = true.
Proof.
  revert m s. induction n as [|k IH]; intros m s Hle.
  - cbn. now destruct (take m s).
  - destruct m as [|m']; [lia|]. destruct s as [|c r]; [reflexivity|].
    cbn [take startsWith]. rewrite Ascii.eqb_refl. apply IH. lia.
Qed.

Lemma take_all (s : string) : take (String.length s) s = s.
Proof. induction s as [|c r IH]; cbn; [reflexivity | now rewrite IH]. Qed.

Lemma substring_from_0 (s : string) (b : Z) :
  substring s 0 b
  = take (Z.to_nat (Z.min (Z.max b 0) (Z.of_nat (String.length s)))) s.
Proof.
  unfold substring.
  set (len := Z.of_nat (String.length s)).
  replace (Z.to_nat (Z.min (Z.min (Z.max 0 0) len) (Z.min (Z.max b 0) len)))
    with O by lia.
  cbn [drop]. f_equal. lia.
Qed.

Lemma startsWith_substring (s : string) (a b : Z) :
  (a <= b)%Z -> startsWith (substring s 0 b) (substring s 0 a) = true.
Proof.
  intros Hab. rewrite !substring_from_0. apply startsWith_take. lia.
Qed.

Lemma startsWith_whole_substring (s : string) (a : Z) :
  startsWith s (substring s 0 a) = true.
Proof.
  rewrite substring_from_0.
  rewrite <- (take_all s) at 1. apply startsWith_take. lia.
Qed.

(** X6.  Whatever the input, [repairTruncatedJson] leaves the text before
    the last double quote as it is: the result starts with it. *)
Theorem repairTruncatedJson_keeps_prefix (s : string) :
  startsWith (repairTruncatedJson s) (substring s 0 (lastIndexOf s DQUOTE))
  = true.
Proof.
  unfold repairTruncatedJson.
  set (lastQuote := lastIndexOf s DQUOTE).
  rewrite !closeLoop_repeat.
  repeat apply startsWith_app_l.
  destruct (inString (scan s)); [|apply startsWith_whole_substring].
  destruct (lastQuote >? 0)%Z; [|apply startsWith_whole_substring].
  match goal with |- context [if ?b then _ else _] => destruct b end.
  - apply startsWith_refl_app.
  - apply startsWith_substring. lia.
Qed.

End RepairFacts.

(** ** Fence stripping in [extractJsonFromText] *)

Module FenceFacts.
Import Utils StringFacts Sanitize SanitizeFacts.

Local Abbreviation TICK := ("`"%char) (only parsing).

Lemma rev_string_app (acc a b : string) :
  rev_string acc (a ++ b) = rev_string (rev_string acc a) b.
Proof. revert acc. induction a as [|c r IH]; intros acc; cbn; auto. Qed.

Lemma rev_string_acc (acc s : string) :
  rev_string acc s = rev_string EmptyString s ++ acc.
Proof.
  revert acc. induction s as [|c r IH]; intros acc; [reflexivity|].
  cbn [rev_string]. rewrite (IH (String c acc)), (IH (String c EmptyString)).
  now rewrite append_assoc.
Qed.

Lemma rev_string_involutive (s : string) :
  rev_string EmptyString (rev_string EmptyString s) = s.
Proof.
  induction s as [|c r IH]; [reflexivity|].
  cbn [rev_string]. rewrite (rev_string_acc (String c EmptyString) r).
  rewrite rev_string_app, IH. reflexivity.
Qed.

Lemma startsWith_tick_free (s p : string) :
  occurs TICK s = false -> startsWith s (String TICK p) = false.
Proof.
  destruct s as [|c r]; [reflexivity|]. cbn [occurs startsWith].
  intros H. apply orb_false_iff in H as [H _].
  now rewrite Ascii.eqb_sym, H.
Qed.

(** A stretch without backtick holds no occurrence of a separator that
    starts with one: the split carries it into the current piece. *)
Lemma split_from_tick_free (sep' a t cur : string) :
  occurs TICK a = false ->
  split_from (String TICK sep') 0 cur (a ++ t)
  = split_from (String TICK sep') 0 (rev_string cur a) t.
Proof.
  revert cur. induction a as [|c r IH]; intros cur H; [reflexivity|].
  cbn [occurs] in H. apply orb_false_iff in H as [Hc Hr].
  cbn [append split_from startsWith rev_string].
  rewrite (Ascii.eqb_sym TICK c), Hc. cbn [andb]. apply IH, Hr.
Qed.

Lemma split_from_end (sep cur : string) :
  split_from sep 0 cur EmptyString = [rev_string EmptyString cur].
Proof. reflexivity. Qed.

Lemma split_from_tick_free_whole (sep' a cur : string) :
  occurs TICK a = false ->
  split_from (String TICK sep') 0 cur a
  = [rev_string EmptyString (rev_string cur a)].
Proof.
  intros H. rewrite <- (append_empty_r a) at 1.
  now rewrite (split_from_tick_free sep' a EmptyString cur H).
Qed.

Lemma includes_middle (a p b : string) : includes (a ++ p ++ b) p = true.
Proof.
  induction a as [|c r IH].
  - cbn [append]. destruct (p ++ b) eqn:E.
    + destruct p; [reflexivity | discriminate E].
    + rewrite includes_cons, <- E, RepairFacts.startsWith_refl_app.
      reflexivity.
  - cbn [append]. rewrite includes_cons, IH. apply orb_true_r.
Qed.

Section Fenced.
Variables pre body rest : string.
Hypothesis pre_free : occurs TICK pre = false.
Hypothesis body_free : occurs TICK body = false.
Hypothesis rest_free : occurs TICK rest = false.

Let text : string := pre ++ "```json" ++ body ++ "```" ++ rest.

Lemma split_opening :
  nth_error (split text "```json") 1
  = nth_error (split_from "```json" 0 EmptyString (body ++ "```" ++ rest)) 0.
Proof.
  unfold split, text.
  rewrite (split_from_tick_free "``json" pre _ EmptyString pre_free).
  cbn [append split_from startsWith]. rewrite !Ascii.eqb_refl. cbn [andb].
  rewrite startsWith_empty.
  cbn [String.length Nat.sub split_from nth_error]. reflexivity.
Qed.

Lemma piece_after_opening :
  exists more,
    nth_error (split_from "```json" 0 EmptyString (body ++ "```" ++ rest)) 0
    = Some (body ++ more)
    /\ (more = EmptyString \/ more = "```" ++ rest).
Proof.
  rewrite (split_from_tick_free "``json" body _ EmptyString body_free).
  cbn [append split_from startsWith].
  rewrite !Ascii.eqb_refl. cbn [andb].
  destruct (startsWith rest "json") eqn:Hjson.
  - exists EmptyString. cbn [nth_error].
    rewrite rev_string_involutive, append_empty_r. auto.
  - rewrite (startsWith_tick_free rest "json" rest_free).
    rewrite (startsWith_tick_free rest "`json" rest_free).
    rewrite (split_from_tick_free_whole "``json" rest _ rest_free).
    cbn [nth_error].
    exists ("```" ++ rest). split; [|auto].
    rewrite (rev_string_acc _ rest), rev_string_app, rev_string_involutive.
    cbn [rev_string append]. rewrite (rev_string_acc _ (rev_string _ body)).
    rewrite rev_string_involutive. reflexivity.
Qed.

Lemma first_piece_of_body (more : string) :
  more = EmptyString \/ more = "```" ++ rest ->
  nth_error (split (body ++ more) "```") 0 = Some body.
Proof.
  unfold split. intros [-> | ->].
  - rewrite append_empty_r.
    rewrite (split_from_tick_free_whole "``" body _ body_free).
    cbn [nth_error]. now rewrite rev_string_involutive.
  - rewrite (split_from_tick_free "``" body _ EmptyString body_free).
    cbn [append split_from startsWith]. rewrite !Ascii.eqb_refl.
    cbn [andb]. rewrite startsWith_empty. cbn [nth_error].
    now rewrite rev_string_involutive.
Qed.

Lemma betweenFences_body : betweenFences text "```json" = body.
Proof.
  unfold betweenFences. rewrite split_opening.
  destruct piece_after_opening as (more & -> & Hmore).
  now rewrite (first_piece_of_body more Hmore).
Qed.

End Fenced.

(** X7.  When a reply wraps its payload in a JSON fence, and neither the
    lead-in, the payload nor what follows the closing fence holds a
    backtick, [extractJsonFromText] works on the payload alone: it returns
    the trimmed payload when that parses as JSON and its repair
    otherwise. *)
Theorem extractJsonFromText_fenced (pre body rest : string) :
  includes pre "`" = false ->
  includes body "`" = false ->
  includes rest "`" = false ->
  extractJsonFromText (pre ++ "```json" ++ body ++ "```" ++ rest)
  = if isValidJson (trim body) then trim body
    else repairTruncatedJson (trim body).
Proof.
  intros Hpre Hbody Hrest.
  change "`" with (str TICK) in Hpre, Hbody, Hrest.
  rewrite includes_char in Hpre, Hbody, Hrest.
  unfold extractJsonFromText.
  rewrite (includes_middle pre "```json" (body ++ "```" ++ rest)).
  rewrite (betweenFences_body pre body rest Hpre Hbody Hrest).
  now destruct (isValidJson (trim body)).
Qed.

Lemma extractJsonFromText_fenced_witness :
  extractJsonFromText
    ("Here it is: " ++ "```json" ++ (str LF ++ Examples.payloadText ++ str LF)
       ++ "```" ++ " Done.")
  = Examples.payloadText.
Proof.
  rewrite (extractJsonFromText_fenced "Here it is: "
             (str LF ++ Examples.payloadText ++ str LF) " Done.");
    reflexivity.
Defined.


Lemma includes_tick_free (a t p : string) :
  occurs TICK a = false ->
  includes (a ++ t) (String TICK p) = includes t (String TICK p).
Proof.
  intros H. induction a as [|c r IH]; [reflexivity|].
  cbn [occurs] in H. apply orb_false_iff in H as [Hc Hr].
  cbn [append]. rewrite includes_cons. cbn [startsWith].
  rewrite (Ascii.eqb_sym TICK c), Hc. cbn [andb orb]. apply IH, Hr.
Qed.

Lemma includes_tick_free_whole (a p : string) :
  occurs TICK a = false -> includes a (String TICK p) = false.
Proof.
  intros H. rewrite <- (append_empty_r a).
  now rewrite (includes_tick_free a EmptyString p H).
Qed.

Lemma startsWith_json_app (body t : string) :
  occurs TICK body = false ->
  startsWith body "json" = false ->
  startsWith t "`" = true ->
  startsWith (body ++ t) "json" = false.
Proof.
  intros F U T.
  destruct (startsWith (body ++ t) "json") eqn:E; [|reflexivity].
  exfalso.
  assert (Ht : forall p, startsWith t (String "j" p) = false
                         /\ startsWith t (String "s" p) = false
                         /\ startsWith t (String "o" p) = false
                         /\ startsWith t (String "n" p) = false).
  { intros p. destruct t as [|x t']; [discriminate T|].
    cbn [startsWith] in T. apply andb_true_iff in T as [T _].
    apply Ascii.eqb_eq in T. subst x. repeat split; reflexivity. }
  destruct body as [|c1 [|c2 [|c3 [|c4 r]]]]; cbn [append startsWith] in E, U.
  - rewrite (proj1 (Ht _)) in E. discriminate E.
  - apply andb_true_iff in E as [_ E].
    rewrite (proj1 (proj2 (Ht _))) in E. discriminate E.
  - apply andb_true_iff in E as [_ E]. apply andb_true_iff in E as [_ E].
    rewrite (proj1 (proj2 (proj2 (Ht _)))) in E. discriminate E.
  - apply andb_true_iff in E as [_ E]. apply andb_true_iff in E as [_ E].
    apply andb_true_iff in E as [_ E].
    rewrite (proj2 (proj2 (proj2 (Ht _)))) in E. discriminate E.
  - apply andb_true_iff in E as [E1 E]. apply andb_true_iff in E as [E2 E].
    apply andb_true_iff in E as [E3 E]. apply andb_true_iff in E as [E4 _].
    rewrite E1, E2, E3, E4 in U. cbn [andb] in U.
    now rewrite startsWith_empty in U.
Qed.

Lemma no_json_fence (pre body rest : string) :
  occurs TICK pre = false ->
  occurs TICK body = false ->
  occurs TICK rest = false ->
  startsWith body "json" = false ->
  startsWith rest "json" = false ->
  includes (pre ++ "```" ++ body ++ "```" ++ rest) "```json" = false.
Proof.
  intros pre_free body_free rest_free body_untagged rest_untagged.
  assert (Htail : includes ("```" ++ rest) "```json" = false).
  { cbn [append]. rewrite !includes_cons. cbn [startsWith].
    rewrite !Ascii.eqb_refl. cbn [andb].
    rewrite rest_untagged, !(startsWith_tick_free rest _ rest_free).
    cbn [orb]. apply (includes_tick_free_whole rest "``json" rest_free). }
  rewrite (includes_tick_free pre _ "``json" pre_free).
  destruct body as [|c r].
  - cbn [append]. rewrite !includes_cons. cbn [startsWith].
    rewrite !Ascii.eqb_refl. cbn [andb orb]. cbn [append] in Htail.
    rewrite !includes_cons in Htail. cbn [startsWith] in Htail.
    rewrite !Ascii.eqb_refl in Htail. cbn [andb] in Htail.
    exact Htail.
  - pose proof (startsWith_json_app (String c r) ("```" ++ rest) body_free
                  body_untagged eq_refl) as Hj.
    pose proof body_free as Hfree.
    cbn [occurs] in Hfree. apply orb_false_iff in Hfree as [Hc _].
    apply Ascii.eqb_neq in Hc.
    assert (Hc' : Ascii.eqb TICK c = false) by (apply Ascii.eqb_neq; congruence).
    change ("```" ++ String c r ++ "```" ++ rest)
      with (String TICK (String TICK (String TICK
              (String c r ++ "```" ++ rest)))).
    rewrite !includes_cons.
    cbn [startsWith]. cbn [startsWith append] in Hj.
    rewrite !Ascii.eqb_refl. cbn [andb].
    cbn [append]. cbn [startsWith]. rewrite Hc'. cbn [andb orb].
    cbn [append] in Hj. rewrite Hj. cbn [orb].
    etransitivity;
      [exact (includes_tick_free (String c r) ("```" ++ rest) "``json"
                body_free)
      | exact Htail].
Qed.

Lemma betweenFences_plain (pre body rest : string) :
  occurs TICK pre = false ->
  occurs TICK body = false ->
  betweenFences (pre ++ "```" ++ body ++ "```" ++ rest) "```" = body.
Proof.
  intros pre_free body_free.
  unfold betweenFences, split.
  rewrite (split_from_tick_free "``" pre _ EmptyString pre_free).
  cbn [append split_from startsWith]. rewrite !Ascii.eqb_refl. cbn [andb].
  rewrite startsWith_empty.
  cbn [String.length Nat.sub split_from nth_error].
  rewrite (split_from_tick_free "``" body _ EmptyString body_free).
  cbn [append split_from startsWith]. rewrite !Ascii.eqb_refl. cbn [andb].
  rewrite startsWith_empty. cbn [nth_error].
  rewrite rev_string_involutive.
  rewrite (split_from_tick_free_whole "``" body _ body_free).
  cbn [nth_error]. now rewrite rev_string_involutive.
Qed.

(** X8.  The same holds for a plain fence, provided that neither the
    payload nor the text after the closing fence starts with the word
    [json] (which would turn one of the markers into a JSON fence). *)
Theorem extractJsonFromText_plain_fence (pre body rest : string) :
  includes pre "`" = false ->
  includes body "`" = false ->
  includes rest "`" = false ->
  startsWith body "json" = false ->
  startsWith rest "json" = false ->
  extractJsonFromText (pre ++ "```" ++ body ++ "```" ++ rest)
  = if isValidJson (trim body) then trim body
    else repairTruncatedJson (trim body).
Proof.
  intros Hpre Hbody Hrest Hb Hr.
  change "`" with (str TICK) in Hpre, Hbody, Hrest.
  rewrite includes_char in Hpre, Hbody, Hrest.
  unfold extractJsonFromText.
  rewrite (no_json_fence pre body rest Hpre Hbody Hrest Hb Hr).
  rewrite (includes_middle pre "```" (body ++ "```" ++ rest)).
  rewrite (betweenFences_plain pre body rest Hpre Hbody).
  now destruct (isValidJson (trim body)).
Qed.

Lemma extractJsonFromText_plain_fence_witness :
  extractJsonFromText
    (EmptyString ++ "```" ++ (str LF ++ Examples.truncatedHello) ++ "```"
       ++ EmptyString)
  = Examples.repairedHello.
Proof.
  rewrite (extractJsonFromText_plain_fence EmptyString
             (str LF ++ Examples.truncatedHello) EmptyString);
    reflexivity.
Defined.

End FenceFacts.

(** ** More on [errors.ts] and [errors.js] *)

Module MessageFacts.
Import Errors Effects.

Lemma orElse_truthy (m fallback : string) :
  truthy fallback = true -> truthy (orElse m fallback) = true.
Proof. now destruct m. Qed.

Lemma status_message_truthy (sc : Z) (m : string) :
  ERROR_MESSAGES_status sc = Some m -> truthy m = true.
Proof.
  unfold ERROR_MESSAGES_status.
  repeat match goal with
         | |- context [if ?b then _ else _] => destruct b
         end; intros [= <-] || discriminate; reflexivity.
Qed.

Lemma table_message_truthy (key m : string) :
  ErrorsJs.lookup ErrorsJs.ERROR_MESSAGES key = Some m -> truthy m = true.
Proof.
  unfold ErrorsJs.ERROR_MESSAGES. cbn [ErrorsJs.lookup].
  repeat match goal with
         | |- context [if ?b then _ else _] => destruct b
         end; intros [= <-] || discriminate; reflexivity.
Qed.

(** X9.  [getErrorMessage] always has something to show: for every caught
    value (and for [null]) the TypeScript function returns a text that is
    not empty, and so does the JavaScript one for every [ApiError],
    [NetworkError], [ValidationError], [StorageError] and plain [Error]. *)
Theorem getErrorMessage_never_empty (onLine : bool) :
  (forall error, truthy (getErrorMessage onLine error) = true) /\
  (forall error, kindOf error <> KApp -> kindOf error <> KNotAnError ->
                 truthy (ErrorsJs.getErrorMessage onLine error) = true).
Proof.
  split.
  - intros [[m c|m sc|m|m f|m k|n m|]|]; cbn [getErrorMessage];
      try (apply orElse_truthy; reflexivity); try reflexivity.
    + destruct (ERROR_MESSAGES_status sc) as [msg|] eqn:E; [|reflexivity].
      now apply status_message_truthy in E.
    + now destruct onLine.
  - intros [m c|m sc|m|m f|m k|n m|] Hk Hn; cbn [ErrorsJs.getErrorMessage];
      try (apply orElse_truthy; reflexivity); try reflexivity.
    + now contradiction Hk.
    + destruct (ErrorsJs.lookup ErrorsJs.ERROR_MESSAGES (ofZ sc)) as [msg|] eqn:E.
      * now apply table_message_truthy in E.
      * destruct (truthy m) eqn:Hm; [|reflexivity].
        cbn [andb]. now destruct (negb (includes m "API request failed")).
    + destruct (truthy m) eqn:Hm; cbn [andb].
      * destruct (negb (String.eqb m "Network error")); [assumption|].
        now destruct onLine.
      * now destruct onLine.
    + now destruct (includes m "quota").
Qed.

Lemma getErrorMessage_never_empty_witness :
  truthy (ErrorsJs.getErrorMessage false (ApiError EmptyString 418)) = true.
Proof.
  apply (proj2 (getErrorMessage_never_empty false)); discriminate.
Defined.

End MessageFacts.

(** ** More on the retry loop and the two orchestrators *)

Module TraceFacts.
Import Errors Utils Effects CourseSpec LoopFacts.

Lemma count_app (p : Event -> bool) (a b : list Event) :
  List.length (filter p (a ++ b))
  = (List.length (filter p a) + List.length (filter p b))%nat.
Proof. now rewrite filter_app, length_app. Qed.

Lemma no_fetch_status (supplied : bool) (m : string) (k : StatusType) :
  filter isFetch (called supplied (OnStatus m k)) = [].
Proof. now destruct supplied. Qed.

Lemma no_sleep_status (supplied : bool) (m : string) (k : StatusType) :
  filter isSleep (called supplied (OnStatus m k)) = [].
Proof. now destruct supplied. Qed.

Section Loop.
Variable RETRY : RetryConfig.
Variable attemptBody : nat -> Eff Json.json.
Variable retryNotice : JsNumber.Platform -> JsError -> PrimFloat.float -> string.
Variable platform : JsNumber.Platform.
Variable callbacks : ParseCallbacks.

Let loop := retryLoop RETRY attemptBody retryNotice platform callbacks.
Let M := MAX_ATTEMPTS RETRY.

(** A property of events that status notices and sleeps have, and every
    event of every attempt, holds of every event of the loop. *)
Lemma retryLoop_Forall (Q : Event -> Prop) :
  (forall m k, Q (OnStatus m k)) -> (forall d, Q (Sleep d)) ->
  (forall j, Forall Q (fst (attemptBody j))) ->
  forall remaining attempt lastError,
    Forall Q (fst (loop remaining attempt lastError)).
Proof.
  intros Hstatus Hsleep Hbody.
  induction remaining as [|rest IH]; intros attempt lastError;
    [constructor|].
  unfold loop in *. cbn [retryLoop].
  pose proof (Hbody attempt) as Hhere.
  destruct (attemptBody attempt) as [t [parsed|error]]; cbn [fst] in *;
    [assumption|].
  destruct (isRetryableError error && (attempt <? MAX_ATTEMPTS RETRY - 1)%nat);
    [|assumption].
  specialize (IH (S attempt) (Some error)).
  destruct (retryLoop RETRY attemptBody retryNotice platform callbacks rest
              (S attempt) (Some error)) as [t' exit].
  cbn [fst] in *.
  apply Forall_app. split; [assumption|].
  apply Forall_app. split.
  - destruct (onStatus callbacks); constructor; [apply Hstatus | constructor].
  - constructor; [apply Hsleep | assumption].
Qed.

(** At most one submission per attempt gives at most [remaining]
    submissions, and a sleep only follows an attempt that is not the last
    one. *)
Lemma retryLoop_counts :
  (forall j, (List.length (filter isFetch (fst (attemptBody j))) <= 1)%nat) ->
  (forall j, filter isSleep (fst (attemptBody j)) = []) ->
  forall remaining attempt lastError,
    (attempt + remaining = M)%nat ->
    (List.length (filter isFetch (fst (loop remaining attempt lastError)))
     <= remaining)%nat /\
    (List.length (filter isSleep (fst (loop remaining attempt lastError)))
     <= remaining - 1)%nat.
Proof.
  intros Hfetch Hsleep.
  induction remaining as [|rest IH]; intros attempt lastError Hsum;
    [split; cbn; lia|].
  unfold loop in *. cbn [retryLoop].
  pose proof (Hfetch attempt) as Hf. pose proof (Hsleep attempt) as Hs.
  destruct (attemptBody attempt) as [t [parsed|error]]; cbn [fst] in *.
  - rewrite Hs. split; cbn; lia.
  - destruct (isRetryableError error); cbn [andb fst];
      [|rewrite Hs; split; cbn; lia].
    fold M. destruct (attempt <? M - 1)%nat eqn:Hmore; cbn [fst];
      [|rewrite Hs; split; cbn; lia].
    apply Nat.ltb_lt in Hmore.
    destruct (IH (S attempt) (Some error)) as [IHf IHs]; [lia|].
    destruct (retryLoop RETRY attemptBody retryNotice platform callbacks rest
                (S attempt) (Some error)) as [t' exit].
    cbn [fst] in *.
    rewrite !count_app, no_fetch_status, no_sleep_status, Hs.
    cbn [filter isFetch isSleep List.length]. split; lia.
Qed.

(** What [onSuccess] hears agrees with the way the loop is left. *)
Lemma retryLoop_onSuccess :
  (forall j e, snd (attemptBody j) = Throw e ->
               NoOnSuccess (fst (attemptBody j))) ->
  (forall j d, snd (attemptBody j) = Normal d ->
               filter isOnSuccess (fst (attemptBody j))
               = called (onSuccess callbacks) (OnSuccess d)) ->
  forall remaining attempt lastError,
    match snd (loop remaining attempt lastError) with
    | Returned d =>
        filter isOnSuccess (fst (loop remaining attempt lastError))
        = called (onSuccess callbacks) (OnSuccess d)
    | Fell _ =>
        filter isOnSuccess (fst (loop remaining attempt lastError)) = []
    end.
Proof.
  intros Hthrow Hreturn.
  induction remaining as [|rest IH]; intros attempt lastError; [reflexivity|].
  unfold loop in *. cbn [retryLoop].
  pose proof (Hthrow attempt) as Ht. pose proof (Hreturn attempt) as Hr.
  destruct (attemptBody attempt) as [t [parsed|error]]; cbn [fst snd] in *.
  - now apply Hr.
  - specialize (Ht error eq_refl). unfold NoOnSuccess in Ht.
    destruct (isRetryableError error && (attempt <? MAX_ATTEMPTS RETRY - 1)%nat);
      [|exact Ht].
    specialize (IH (S attempt) (Some error)).
    destruct (retryLoop RETRY attemptBody retryNotice platform callbacks rest
                (S attempt) (Some error)) as [t' exit].
    cbn [fst snd] in *.
    rewrite !filter_app, Ht.
    replace (filter isOnSuccess
               (called (onStatus callbacks)
                  (OnStatus (retryNotice platform error
                     (calculateRetryDelay platform attempt RETRY))
                     st_loading))) with (@nil Event)
      by now destruct (onStatus callbacks).
    cbn [filter isOnSuccess app]. exact IH.
Qed.

(** When every attempt fails with a retryable error, the loop runs to its
    last attempt, sleeps after every attempt but the last, and its
    submissions are those of the attempts, in order. *)
Lemma retryLoop_all_retried :
  (forall j, exists e, snd (attemptBody j) = Throw e
                       /\ isRetryableError e = true) ->
  (forall j, filter isSleep (fst (attemptBody j)) = []) ->
  forall remaining attempt lastError,
    (attempt + remaining = M)%nat -> (1 <= remaining)%nat ->
    exists t e,
      loop remaining attempt lastError = (t, Fell (Some e))
      /\ snd (attemptBody (M - 1)) = Throw e
      /\ List.length (filter isSleep t) = (remaining - 1)%nat
      /\ filter isFetch t
         = flat_map (fun j => filter isFetch (fst (attemptBody j)))
             (seq attempt remaining).
Proof.
  intros Hall Hsleep.
  induction remaining as [|rest IH]; intros attempt lastError Hsum Hpos;
    [lia|].
  unfold loop in *. cbn [retryLoop].
  destruct (Hall attempt) as (e & He & Hretry).
  pose proof (Hsleep attempt) as Hs.
  destruct (attemptBody attempt) as [t c] eqn:Hbody. cbn [fst snd] in *.
  subst c. rewrite Hretry. cbn [andb]. fold M.
  destruct rest as [|rest'].
  - replace (attempt <? M - 1)%nat with false
      by (symmetry; apply Nat.ltb_ge; lia).
    exists t, e. split; [reflexivity|].
    replace (M - 1)%nat with attempt by lia. rewrite Hbody.
    split; [reflexivity|]. split; [now rewrite Hs|].
    cbn [seq flat_map]. rewrite Hbody. cbn [fst]. now rewrite app_nil_r.
  - replace (attempt <? M - 1)%nat with true
      by (symmetry; apply Nat.ltb_lt; lia).
    destruct (IH (S attempt) (Some e)) as (t' & e' & Hloop & Hlast & Hsl & Hfe);
      [lia | lia |].
    rewrite Hloop. eexists. exists e'.
    split; [reflexivity|]. split; [assumption|]. split.
    + rewrite !count_app, no_sleep_status, Hs, Hsl. cbn. lia.
    + rewrite !filter_app, no_fetch_status, Hfe.
      cbn [filter isFetch app]. cbn [seq flat_map]. rewrite Hbody.
      reflexivity.
Qed.

End Loop.

End TraceFacts.

Module OrchestratorMore.
Import Errors Utils Effects CourseSpec TraceSpec LoopFacts TraceFacts.

(** Case analysis over every branch of a [try] body, innermost test
    first. *)
Ltac cases :=
  repeat match goal with
    | |- context [match ?x with _ => _ end] =>
        lazymatch x with
        | context [match _ with _ => _ end] => fail
        | _ => destruct x eqn:?;
               cbn [fst snd app filter isFetch isSleep isOnSuccess
                    List.length] in *
        end
    end.

Section TypeScript.
Import Api.
Variable RETRY : RetryConfig.
Variable w : World.
Variable callbacks : ParseCallbacks.
Variable url : string.
Variable body : RequestBody.
Variable hasImage : bool.

Let attempt_ := attemptBody RETRY w callbacks url body hasImage.

Lemma ts_body_one_fetch (j : nat) :
  (List.length (filter isFetch (fst (attempt_ j))) <= 1)%nat.
Proof.
  unfold attempt_, attemptBody, doFetch, readJson, handleData, parsePayload,
    bind, notify, emit, ret, throw, called.
  cases; cbn; lia.
Qed.

Lemma ts_body_no_sleep (j : nat) : filter isSleep (fst (attempt_ j)) = [].
Proof.
  unfold attempt_, attemptBody, doFetch, readJson, handleData, parsePayload,
    bind, notify, emit, ret, throw, called.
  cases; reflexivity.
Qed.

Lemma ts_body_submits (j : nat) :
  Forall (OnlySubmits url body) (fst (attempt_ j)).
Proof.
  unfold attempt_, attemptBody, doFetch, readJson, handleData, parsePayload,
    bind, notify, emit, ret, throw, called, OnlySubmits.
  cases; repeat constructor; intros H; try discriminate H; reflexivity.
Qed.

Lemma ts_body_return_onSuccess (j : nat) (d : Json.json) :
  snd (attempt_ j) = Normal d ->
  filter isOnSuccess (fst (attempt_ j))
  = called (onSuccess callbacks) (OnSuccess d).
Proof.
  unfold attempt_, attemptBody, doFetch, readJson, handleData, parsePayload,
    bind, notify, emit, ret, throw, called.
  cases; cbn; intros H; try discriminate H; injection H as <-; reflexivity.
Qed.

(** With the host online, an attempt whose response does not carry one of
    the four retryable statuses submits once and, if it fails, fails for
    good. *)
Lemma ts_body_final (j : nat) :
  isOnline w j = true ->
  (forall r, fetchResult w j = Resolves r ->
             Array_includes [429; 500; 502; 503]%Z (status r) = false) ->
  networkView (fst (attempt_ j)) = [Fetch url body] /\
  (forall e, snd (attempt_ j) = Throw e -> isRetryableError e = false).
Proof.
  intros Hon Hstatus.
  unfold attempt_, attemptBody, doFetch, readJson, handleData, parsePayload,
    bind, notify, emit, ret, throw, called.
  rewrite Hon. cbn [negb].
  destruct (fetchResult w j) as [name message|r] eqn:Hf.
  - split; [now destruct (onStatus callbacks)|].
    cbn. intros e [= <-]. reflexivity.
  - specialize (Hstatus r eq_refl).
    destruct (ok r) eqn:Hok; cbn [negb].
    + cases; cbn; (split; [reflexivity|]); intros e H;
        try discriminate H; injection H as <-; reflexivity.
    + split; [now destruct (onStatus callbacks)|].
      cbn. intros e [= <-]. exact Hstatus.
Qed.

Lemma ts_body_offline (j : nat) :
  isOnline w j = false ->
  attempt_ j
  = (called (onStatus callbacks)
       (OnStatus (statusMsg RETRY hasImage j) st_loading),
     Throw (NetworkError "You appear to be offline.")).
Proof.
  intros Hoff. unfold attempt_, attemptBody, bind, notify, throw.
  rewrite Hoff. cbn [negb]. now rewrite app_nil_r.
Qed.

End TypeScript.


Lemma filter_none_iff {A : Type} (p : A -> bool) (l : list A) :
  filter p l = [] <-> Forall (fun x => p x = false) l.
Proof.
  induction l as [|x l IH]; cbn [filter].
  - split; [constructor | reflexivity].
  - destruct (p x) eqn:Hx; split; intros H.
    + discriminate H.
    + inversion H; congruence.
    + constructor; [assumption | now apply IH].
    + inversion H; now apply IH.
Qed.

Lemma flat_map_nil {A B : Type} (f : A -> list B) (l : list A) :
  (forall x, f x = []) -> flat_map f l = [].
Proof.
  intros Hf. induction l as [|x l IH]; [reflexivity|].
  cbn [flat_map]. now rewrite Hf, IH.
Qed.

Lemma flat_map_singletons {A B : Type} (f : A -> list B) (l : list A) :
  (forall x, List.length (f x) = 1%nat) ->
  List.length (flat_map f l) = List.length l.
Proof.
  intros Hf. induction l as [|x l IH]; [reflexivity|].
  cbn [flat_map List.length]. now rewrite length_app, Hf, IH.
Qed.

Lemma retryLoop_no_onError (RETRY : RetryConfig)
  (attemptBody : nat -> Eff Json.json) (retryNotice : JsNumber.Platform -> JsError -> PrimFloat.float -> string)
  (platform : JsNumber.Platform) (callbacks : ParseCallbacks) :
  (forall j, filter isOnError (fst (attemptBody j)) = []) ->
  forall remaining attempt lastError,
    filter isOnError
      (fst (retryLoop RETRY attemptBody retryNotice platform callbacks
              remaining attempt lastError)) = [].
Proof.
  intros Hbody remaining attempt lastError.
  apply filter_none_iff.
  apply retryLoop_Forall; try reflexivity.
  intros j. apply filter_none_iff, Hbody.
Qed.

Lemma no_event_status (p : Event -> bool) (supplied : bool) (m : string)
  (k : StatusType) :
  p (OnStatus m k) = false -> filter p (called supplied (OnStatus m k)) = [].
Proof. intros H. destruct supplied; cbn; [now rewrite H | reflexivity]. Qed.

Lemma retryLoop_fell_some (RETRY : RetryConfig)
  (attemptBody : nat -> Eff Json.json) (retryNotice : JsNumber.Platform -> JsError -> PrimFloat.float -> string)
  (platform : JsNumber.Platform) (callbacks : ParseCallbacks) :
  forall remaining attempt lastError,
    (1 <= remaining)%nat -> (attempt + remaining = MAX_ATTEMPTS RETRY)%nat ->
    snd (retryLoop RETRY attemptBody retryNotice platform callbacks
           remaining attempt lastError) <> Fell None.
Proof.
  induction remaining as [|rest IH]; intros attempt lastError Hpos Hsum; [lia|].
  cbn [retryLoop].
  destruct (attemptBody attempt) as [t [parsed|error]]; [discriminate|].
  destruct (isRetryableError error); cbn [andb]; [|discriminate].
  destruct (attempt <? MAX_ATTEMPTS RETRY - 1)%nat eqn:Hmore; [|discriminate].
  apply Nat.ltb_lt in Hmore.
  specialize (IH (S attempt) (Some error)).
  destruct (retryLoop RETRY attemptBody retryNotice platform callbacks rest
              (S attempt) (Some error)) as [t' exit].
  cbn [snd] in *. apply IH; lia.
Qed.

Section JavaScript.
Import ApiJs.
Variable CONFIG : Config.
Variable extractJsonFromText : string -> string.
Variable w : World.
Variable callbacks : ParseCallbacks.
Variable url : string.
Variable body : RequestBody.

Let attempt_ := attemptBody CONFIG extractJsonFromText w callbacks url body.

Lemma js_body_one_fetch (j : nat) :
  (List.length (filter isFetch (fst (attempt_ j))) <= 1)%nat.
Proof.
  unfold attempt_, attemptBody, makeApiRequest, parseApiResponse, tryCatch,
    bind, notify, emit, ret, throw, called.
  cases; cbn; lia.
Qed.

Lemma js_body_no_sleep (j : nat) : filter isSleep (fst (attempt_ j)) = [].
Proof.
  unfold attempt_, attemptBody, makeApiRequest, parseApiResponse, tryCatch,
    bind, notify, emit, ret, throw, called.
  cases; reflexivity.
Qed.

Lemma js_body_return_onSuccess (j : nat) (d : Json.json) :
  snd (attempt_ j) = Normal d ->
  filter isOnSuccess (fst (attempt_ j))
  = called (onSuccess callbacks) (OnSuccess d).
Proof.
  unfold attempt_, attemptBody, makeApiRequest, parseApiResponse, tryCatch,
    bind, notify, emit, ret, throw, called.
  cases; cbn; intros H; try discriminate H; injection H as <-; reflexivity.
Qed.

(** A [fetch] that rejects with a [TypeError] becomes a [NetworkError]. *)
Lemma js_body_rejected (j : nat) (message : string) :
  isOnline w j = true ->
  fetchResult w j = Api.Rejects "TypeError" message ->
  exists m,
    attempt_ j
    = ((called (onStatus callbacks) (OnStatus m st_loading)
          ++ [Fetch url body])%list,
       Throw (NetworkError
                (getSpecificNetworkError (navigatorOnLine w j)
                   (PlainError "TypeError" message)))).
Proof.
  intros Hon Hf.
  unfold attempt_, attemptBody, makeApiRequest, tryCatch, bind, notify, emit,
    ret, throw.
  rewrite Hon, Hf. cbn [negb app nameOf String.eqb orb].
  destruct (j =? 0)%nat; eexists; reflexivity.
Qed.

End JavaScript.

(** X11.  No call of [parseWithAI] submits more than [MAX_ATTEMPTS] times
    or sleeps more than [MAX_ATTEMPTS - 1] times, whatever the network,
    the probe and the responses do; in both orchestrators. *)
Theorem parseWithAI_budget_is_never_exceeded :
  (forall (RETRY : RetryConfig) (w : Api.World) (inputText : string)
          (callbacks : ParseCallbacks),
      let t := fst (Api.parseWithAI_with RETRY w inputText callbacks) in
      (List.length (filter isFetch t) <= MAX_ATTEMPTS RETRY)%nat /\
      (List.length (filter isSleep t) <= MAX_ATTEMPTS RETRY - 1)%nat)
  /\
  (forall (CONFIG : ApiJs.Config) (extract : string -> string)
          (w : ApiJs.World) (inputText : string) (callbacks : ParseCallbacks),
      let t := fst (ApiJs.parseWithAI CONFIG extract w callbacks inputText) in
      (List.length (filter isFetch t) <= MAX_ATTEMPTS (ApiJs.RETRY CONFIG))%nat /\
      (List.length (filter isSleep t)
       <= MAX_ATTEMPTS (ApiJs.RETRY CONFIG) - 1)%nat).
Proof.
  split.
  - intros RETRY w inputText callbacks t. subst t.
    unfold Api.parseWithAI_with.
    destruct (negb (truthyOpt (Api.apiKey w)));
      [cbn [fst]; rewrite no_fetch_status, no_sleep_status; cbn; lia|].
    destruct (negb (truthy (trim inputText)) && negb (Api.hasImageOf w));
      [cbn [fst]; rewrite no_fetch_status, no_sleep_status; cbn; lia|].
    match goal with
    | |- context [retryLoop ?R ?a ?n ?r ?c ?k 0 None] =>
        pose proof (retryLoop_counts R a n r c
                      (ts_body_one_fetch RETRY w callbacks _ _ _)
                      (ts_body_no_sleep RETRY w callbacks _ _ _)
                      k 0 None eq_refl) as [Hf Hs];
        destruct (retryLoop R a n r c k 0 None) as [t [parsed|lastError]]
    end; cbn [fst] in *; [split; assumption|].
    rewrite !count_app, no_fetch_status, no_sleep_status.
    destruct (onError callbacks); cbn; lia.
  - intros CONFIG extract w inputText callbacks t. subst t.
    unfold ApiJs.parseWithAI.
    destruct (ApiJs.validateInputs (ApiJs.apiKey w) inputText) as [tv [u|e]].
    + match goal with
      | |- context [retryLoop ?R ?a ?n ?r ?c ?k 0 None] =>
          pose proof (retryLoop_counts R a n r c
                        (js_body_one_fetch CONFIG extract w callbacks _ _)
                        (js_body_no_sleep CONFIG extract w callbacks _ _)
                        k 0 None eq_refl) as [Hf Hs];
          destruct (retryLoop R a n r c k 0 None) as [t [parsed|[lastError|]]]
      end; cbn [fst] in *; try (split; assumption).
      rewrite !count_app, no_fetch_status, no_sleep_status.
      destruct (onError callbacks); cbn; lia.
    + cbn [fst]. rewrite !count_app, no_fetch_status, no_sleep_status.
      destruct (onError callbacks); cbn; lia.
Qed.

(** X12.  Every submission of one call carries the same request: the URL
    built from the stored key and model, and the body built once from the
    input text and the held image. *)
Theorem parseWithAI_resubmits_the_same_request (RETRY : RetryConfig)
  (w : Api.World) (inputText : string) (callbacks : ParseCallbacks)
  (key : string) (ev : Event) :
  Api.apiKey w = Some key ->
  In ev (fst (Api.parseWithAI_with RETRY w inputText callbacks)) ->
  isFetch ev = true ->
  ev = Fetch (Api.requestUrl w key) (Api.requestBody w inputText).
Proof.
  intros Hkey Hin.
  assert (Hall : Forall (OnlySubmits (Api.requestUrl w key)
                           (Api.requestBody w inputText))
                   (fst (Api.parseWithAI_with RETRY w inputText callbacks))).
  { unfold Api.parseWithAI_with. rewrite Hkey.
    assert (Hstatus : forall m k,
               OnlySubmits (Api.requestUrl w key)
                 (Api.requestBody w inputText) (OnStatus m k))
      by (intros m k H; discriminate H).
    destruct (negb (truthyOpt (Some key)));
      [cbn [fst]; destruct (onStatus callbacks); repeat constructor;
       apply Hstatus|].
    destruct (negb (truthy (trim inputText)) && negb (Api.hasImageOf w));
      [cbn [fst]; destruct (onStatus callbacks); repeat constructor;
       apply Hstatus|].
    match goal with
    | |- context [retryLoop ?R ?a ?n ?r ?c ?k 0 None] =>
        pose proof (retryLoop_Forall R a n r c
                      (OnlySubmits (Api.requestUrl w key)
                         (Api.requestBody w inputText))
                      Hstatus (fun d H => False_ind _ (Bool.diff_false_true H))
                      (ts_body_submits RETRY w callbacks _ _ _)
                      k 0 None) as Hloop;
        destruct (retryLoop R a n r c k 0 None) as [t [parsed|lastError]]
    end; cbn [fst] in *; [assumption|].
    apply Forall_app. split; [assumption|].
    destruct (onStatus callbacks), (onError callbacks);
      repeat constructor; intros H; discriminate H. }
  rewrite Forall_forall in Hall. exact (Hall ev Hin).
Qed.

Lemma parseWithAI_resubmits_the_same_request_witness :
  Fetch (Api.requestUrl Examples.always500 "key")
    (Api.requestBody Examples.always500 "fever and cough")
  = Fetch (Api.requestUrl Examples.always500 "key")
      (Api.requestBody Examples.always500 "fever and cough").
Proof.
  apply (parseWithAI_resubmits_the_same_request Api.CONFIG_RETRY
           Examples.always500 "fever and cough" Examples.allCallbacks "key").
  - reflexivity.
  - vm_compute. right. left. reflexivity.
  - reflexivity.
Defined.

(** How the call returns decides what the callbacks heard: by
    [return parsed] with [onSuccess] called on [parsed] and [onError] not
    called, or by [return null] with [onSuccess] not called. *)
Lemma ts_callbacks_by_return (RETRY : RetryConfig)
  (w : Api.World) (inputText : string) (callbacks : ParseCallbacks) :
  let t := fst (Api.parseWithAI_with RETRY w inputText callbacks) in
  match snd (Api.parseWithAI_with RETRY w inputText callbacks) with
  | Fulfilled (Some d) =>
      filter isOnSuccess t = called (onSuccess callbacks) (OnSuccess d)
      /\ filter isOnError t = []
  | Fulfilled None =>
      filter isOnSuccess t = []
      /\ (List.length (filter isOnError t) <= 1)%nat
  | Rejected _ => False
  end.
Proof.
  intros t. subst t. unfold Api.parseWithAI_with.
  destruct (negb (truthyOpt (Api.apiKey w)));
    [cbn [fst snd]; destruct (onStatus callbacks); cbn; split; auto|].
  destruct (negb (truthy (trim inputText)) && negb (Api.hasImageOf w));
    [cbn [fst snd]; destruct (onStatus callbacks); cbn; split; auto|].
  match goal with
  | |- context [retryLoop ?R ?a ?n ?r ?c ?k 0 None] =>
      pose proof (retryLoop_onSuccess R a n r c
                    (OrchestratorFacts.ts_body_throw_no_onSuccess
                       RETRY w callbacks _ _ _)
                    (ts_body_return_onSuccess RETRY w callbacks _ _ _)
                    k 0 None) as Hsucc;
      pose proof (retryLoop_Forall R a n r c
                    (fun ev => isOnError ev = false)
                    (fun _ _ => eq_refl) (fun _ => eq_refl)) as Hquiet;
      destruct (retryLoop R a n r c k 0 None) as [t exit] eqn:Hloop
  end.
  assert (Hnone : filter isOnError t = []).
  { apply filter_none_iff.
    match type of Hloop with
    | retryLoop _ _ _ _ _ ?k 0 None = _ =>
        specialize (Hquiet
          (fun j => proj1 (filter_none_iff _ _)
             (OrchestratorFacts.ts_body_no_onError RETRY w callbacks _ _ _ j))
          k 0%nat None)
    end.
    now rewrite Hloop in Hquiet. }
  cbn [fst snd] in *.
  destruct exit as [parsed|lastError]; cbn [fst snd].
  - split; assumption.
  - rewrite !filter_app, Hsucc, Hnone.
    destruct (onStatus callbacks), (onError callbacks); cbn; split; auto.
Qed.


(** X14.  With the host online, a first attempt whose response does not
    carry status 429, 500, 502 or 503 is the only one: the request is
    submitted once and the call never sleeps, whether the attempt
    succeeded, the service refused, the payload was unusable or [fetch]
    itself rejected. *)
Theorem parseWithAI_fatal_failure_is_not_retried (RETRY : RetryConfig)
  (w : Api.World) (inputText : string) (callbacks : ParseCallbacks)
  (key : string) :
  (1 <= MAX_ATTEMPTS RETRY)%nat ->
  Api.apiKey w = Some key -> truthy key = true ->
  truthy (trim inputText) = true ->
  Api.isOnline w 0 = true ->
  (forall r, Api.fetchResult w 0 = Api.Resolves r ->
             Array_includes [429; 500; 502; 503]%Z (Api.status r) = false) ->
  networkView (fst (Api.parseWithAI_with RETRY w inputText callbacks))
  = [Fetch (Api.requestUrl w key) (Api.requestBody w inputText)].
Proof.
  intros Hmax Hkey Htruthy Htext Hon Hstatus.
  unfold Api.parseWithAI_with. rewrite Hkey. cbn [truthyOpt].
  rewrite Htruthy, Htext. cbn [negb andb].
  destruct (MAX_ATTEMPTS RETRY) as [|rest] eqn:HM; [lia|].
  cbn [retryLoop].
  destruct (ts_body_final RETRY w callbacks (Api.requestUrl w key)
              (Api.requestBody w inputText) (Api.hasImageOf w) 0 Hon Hstatus)
    as [Hnet Hfatal].
  destruct (Api.attemptBody RETRY w callbacks (Api.requestUrl w key)
              (Api.requestBody w inputText) (Api.hasImageOf w) 0)
    as [t [parsed|error]]; cbn [fst snd] in *; [exact Hnet|].
  rewrite (Hfatal error eq_refl). cbn [andb fst].
  rewrite !BudgetFacts.networkView_app, BudgetFacts.networkView_status, Hnet.
  now destruct (onError callbacks).
Qed.

Lemma parseWithAI_fatal_failure_is_not_retried_witness :
  networkView
    (fst (Api.parseWithAI_with Api.CONFIG_RETRY Examples.unauthorized
            "fever and cough" Examples.allCallbacks))
  = [Fetch (Api.requestUrl Examples.unauthorized "key")
       (Api.requestBody Examples.unauthorized "fever and cough")].
Proof.
  apply (parseWithAI_fatal_failure_is_not_retried Api.CONFIG_RETRY
           Examples.unauthorized "fever and cough" Examples.allCallbacks
           "key").
  - cbn. lia.
  - reflexivity.
  - reflexivity.
  - reflexivity.
  - reflexivity.
  - intros r [= <-]. reflexivity.
Defined.

(** X15.  With the connectivity probe reporting the host offline at every
    attempt, a call that passed the precondition check never touches the
    network, still sleeps after every attempt but the last, and reports
    the offline [NetworkError] once. *)
Theorem parseWithAI_offline_throughout (RETRY : RetryConfig)
  (w : Api.World) (inputText : string) (callbacks : ParseCallbacks)
  (key : string) :
  (1 <= MAX_ATTEMPTS RETRY)%nat ->
  Api.apiKey w = Some key -> truthy key = true ->
  truthy (trim inputText) = true ->
  (forall i, Api.isOnline w i = false) ->
  let t := fst (Api.parseWithAI_with RETRY w inputText callbacks) in
  filter isFetch t = [] /\
  List.length (filter isSleep t) = (MAX_ATTEMPTS RETRY - 1)%nat /\
  filter isOnError t
  = called (onError callbacks)
      (OnError (Some (NetworkError "You appear to be offline."))) /\
  snd (Api.parseWithAI_with RETRY w inputText callbacks) = Fulfilled None.
Proof.
  intros Hmax Hkey Htruthy Htext Hoff t. subst t.
  unfold Api.parseWithAI_with. rewrite Hkey. cbn [truthyOpt].
  rewrite Htruthy, Htext. cbn [negb andb].
  set (body := Api.attemptBody RETRY w callbacks (Api.requestUrl w key)
                 (Api.requestBody w inputText) (Api.hasImageOf w)).
  assert (Hbody : forall j,
             body j
             = (called (onStatus callbacks)
                  (OnStatus (Api.statusMsg RETRY (Api.hasImageOf w) j)
                     st_loading),
                Throw (NetworkError "You appear to be offline.")))
    by (intros j; apply ts_body_offline, Hoff).
  destruct (retryLoop_all_retried RETRY body Api.retryNotice (Api.platform w)
              callbacks) with (remaining := MAX_ATTEMPTS RETRY)
                              (attempt := 0%nat) (lastError := @None JsError)
    as (t & e & Hloop & Hlast & Hsleeps & Hfetches).
  - intros j. eexists. rewrite Hbody. split; reflexivity.
  - intros j. rewrite Hbody. apply no_sleep_status.
  - reflexivity.
  - exact Hmax.
  - rewrite Hbody in Hlast. cbn [snd] in Hlast. injection Hlast as <-.
    pose proof (retryLoop_no_onError RETRY body Api.retryNotice
                  (Api.platform w) callbacks
                  (fun j => eq_trans (f_equal (fun x => filter isOnError (fst x))
                                        (Hbody j))
                              (no_event_status isOnError _ _ _ eq_refl))
                  (MAX_ATTEMPTS RETRY) 0%nat None) as Hquiet.
    rewrite Hloop in *. cbn [fst snd] in *.
    rewrite flat_map_nil in Hfetches
      by (intros j; rewrite Hbody; apply no_fetch_status).
    split; [|split; [|split]].
    + rewrite !filter_app, Hfetches, no_fetch_status.
      now destruct (onError callbacks).
    + rewrite !count_app, Hsleeps, no_sleep_status.
      destruct (onError callbacks); cbn; lia.
    + rewrite !filter_app, Hquiet, (no_event_status isOnError) by reflexivity.
      now destruct (onError callbacks).
    + reflexivity.
Qed.

Lemma parseWithAI_offline_throughout_witness :
  let t := fst (Api.parseWithAI_with Api.CONFIG_RETRY Examples.offlineAlways
                  "fever and cough" Examples.allCallbacks) in
  filter isFetch t = [] /\
  List.length (filter isSleep t) = 2%nat /\
  filter isOnError t
  = [OnError (Some (NetworkError "You appear to be offline."))] /\
  snd (Api.parseWithAI_with Api.CONFIG_RETRY Examples.offlineAlways
         "fever and cough" Examples.allCallbacks) = Fulfilled None.
Proof.
  apply (parseWithAI_offline_throughout Api.CONFIG_RETRY
           Examples.offlineAlways "fever and cough" Examples.allCallbacks
           "key").
  - cbn. lia.
  - reflexivity.
  - reflexivity.
  - reflexivity.
  - intros i. reflexivity.
Defined.

(** X16.  In [api.js] a [fetch] that rejects with a [TypeError] is
    wrapped into a [NetworkError] and therefore retried: when it rejects
    so at every attempt the request is submitted [MAX_ATTEMPTS] times,
    with a sleep after every submission but the last, and [onError]
    receives a [NetworkError]. *)
Theorem js_parseWithAI_retries_rejected_fetch (CONFIG : ApiJs.Config)
  (extract : string -> string) (w : ApiJs.World) (inputText : string)
  (callbacks : ParseCallbacks) (key : string) :
  (1 <= MAX_ATTEMPTS (ApiJs.RETRY CONFIG))%nat ->
  ApiJs.apiKey w = Some key -> truthy key = true ->
  truthy (trim inputText) = true ->
  (forall i, ApiJs.isOnline w i = true) ->
  (forall i, exists message,
      ApiJs.fetchResult w i = Api.Rejects "TypeError" message) ->
  let t := fst (ApiJs.parseWithAI CONFIG extract w callbacks inputText) in
  List.length (filter isFetch t) = MAX_ATTEMPTS (ApiJs.RETRY CONFIG) /\
  List.length (filter isSleep t)
  = (MAX_ATTEMPTS (ApiJs.RETRY CONFIG) - 1)%nat /\
  exists message,
    filter isOnError t
    = called (onError callbacks) (OnError (Some (NetworkError message))).
Proof.
  intros Hmax Hkey Htruthy Htext Hon Hrej t. subst t.
  assert (Hraw : truthy inputText = true).
  { destruct inputText; [discriminate Htext | reflexivity]. }
  unfold ApiJs.parseWithAI, ApiJs.validateInputs. rewrite Hkey.
  cbn [truthyOpt]. rewrite Htruthy, Htext, Hraw. cbn [negb orb ret].
  set (url := ApiJs.buildApiUrl CONFIG key).
  set (rq := ApiJs.buildRequestBody CONFIG inputText).
  set (body := ApiJs.attemptBody CONFIG extract w callbacks url rq).
  assert (Hbody : forall j, exists status message,
             body j
             = ((called (onStatus callbacks) (OnStatus status st_loading)
                   ++ [Fetch url rq])%list,
                Throw (NetworkError message))).
  { intros j. destruct (Hrej j) as [message Hf].
    destruct (js_body_rejected CONFIG extract w callbacks url rq j message
                (Hon j) Hf) as [status Heq].
    exists status. eexists. exact Heq. }
  destruct (retryLoop_all_retried (ApiJs.RETRY CONFIG) body ApiJs.retryNotice
              (ApiJs.platform w) callbacks)
    with (remaining := MAX_ATTEMPTS (ApiJs.RETRY CONFIG))
         (attempt := 0%nat) (lastError := @None JsError)
    as (t & e & Hloop & Hlast & Hsleeps & Hfetches).
  - intros j. destruct (Hbody j) as (status & message & Heq).
    eexists. rewrite Heq. split; reflexivity.
  - intros j. apply js_body_no_sleep.
  - reflexivity.
  - exact Hmax.
  - destruct (Hbody (MAX_ATTEMPTS (ApiJs.RETRY CONFIG) - 1)%nat)
      as (status & message & Heq).
    rewrite Heq in Hlast. cbn [snd] in Hlast. injection Hlast as <-.
    pose proof (retryLoop_no_onError (ApiJs.RETRY CONFIG) body
                  ApiJs.retryNotice (ApiJs.platform w) callbacks
                  (OrchestratorFacts.js_body_no_onError CONFIG extract w
                     callbacks url rq)
                  (MAX_ATTEMPTS (ApiJs.RETRY CONFIG)) 0%nat None) as Hquiet.
    rewrite Hloop in *. cbn [fst snd] in *.
    split; [|split].
    + rewrite !count_app, no_fetch_status, Hfetches.
      rewrite flat_map_singletons, length_seq.
      * destruct (onError callbacks); cbn; lia.
      * intros j. destruct (Hbody j) as (status' & message' & Heq').
        rewrite Heq'. cbn [fst]. rewrite count_app, no_fetch_status.
        reflexivity.
    + rewrite !count_app, Hsleeps, no_sleep_status.
      destruct (onError callbacks); cbn; lia.
    + exists message.
      rewrite !filter_app, Hquiet, (no_event_status isOnError) by reflexivity.
      now destruct (onError callbacks).
Qed.

Lemma js_parseWithAI_retries_rejected_fetch_witness :
  let t := fst (ApiJs.parseWithAI Examples.jsConfig Utils.extractJsonFromText
                  Examples.jsRejecting Examples.allCallbacks
                  "fever and cough") in
  List.length (filter isFetch t) = 3%nat /\
  List.length (filter isSleep t) = 2%nat /\
  exists message,
    filter isOnError t = [OnError (Some (NetworkError message))].
Proof.
  apply (js_parseWithAI_retries_rejected_fetch Examples.jsConfig
           Utils.extractJsonFromText Examples.jsRejecting "fever and cough"
           Examples.allCallbacks "key").
  - cbn. lia.
  - reflexivity.
  - reflexivity.
  - reflexivity.
  - intros i. reflexivity.
  - intros i. eexists. reflexivity.
Defined.

(** X17.  What [makeApiRequest] can throw: an [ApiError] carrying the
    status of a response that is not ok, a [NetworkError], or an error that
    is none of the application's classes, is not a [TypeError] and whose
    message does not mention fetch (the [SyntaxError] of a body that is not
    JSON, for one).  No [TypeError] escapes it. *)
Theorem makeApiRequest_failure_kinds (w : ApiJs.World) (url : string)
  (body : RequestBody) (j : nat) (e : JsError) :
  snd (ApiJs.makeApiRequest w url body j) = Throw e ->
  (exists r, ApiJs.fetchResult w j = Api.Resolves r /\ Api.ok r = false
             /\ kindOf e = KApi /\ statusCodeOf e = Some (Api.status r))
  \/ kindOf e = KNetwork
  \/ (kindOf e = KPlain /\ nameOf e <> "TypeError"
      /\ includes (messageOf e) "fetch" = false).
Proof.
  unfold ApiJs.makeApiRequest, tryCatch, bind, emit, ret, throw.
  destruct (ApiJs.isOnline w j); cbn [negb];
    [|intros [= <-]; right; left; reflexivity].
  assert (Hplain : forall name message : string,
             String.eqb name "TypeError" || includes message "fetch" = false
             -> name <> "TypeError" /\ includes message "fetch" = false)
    by (intros name message H; apply orb_false_iff in H as [Hn Hm];
        split; [now apply String.eqb_neq | exact Hm]).
  destruct (ApiJs.fetchResult w j) as [name message|r] eqn:Hf.
  - cbn [snd fst nameOf messageOf app].
    destruct (String.eqb name "TypeError" || includes message "fetch")
      eqn:Htest; intros [= <-]; right; [left; reflexivity|].
    right. split; [reflexivity|]. exact (Hplain name message Htest).
  - destruct (Api.ok r) eqn:Hok; cbn [negb].
    + destruct (Api.json r); [cbn; intros H; discriminate H|].
      destruct (ApiJs.jsonRejection w j) as [name message].
      cbn [snd fst nameOf messageOf app].
      destruct (String.eqb name "TypeError" || includes message "fetch")
        eqn:Htest; intros [= <-]; right; [left; reflexivity|].
      right. split; [reflexivity|]. exact (Hplain name message Htest).
    + cbn. intros [= <-]. left. exists r. repeat split; assumption.
Qed.

Lemma makeApiRequest_failure_kinds_witness :
  (exists r, ApiJs.fetchResult Examples.jsUnauthorized 0 = Api.Resolves r
             /\ Api.ok r = false
             /\ kindOf (ApiJs.apiErrorOf (Api.mkHttp 401 None)) = KApi
             /\ statusCodeOf (ApiJs.apiErrorOf (Api.mkHttp 401 None))
                = Some (Api.status r))
  \/ kindOf (ApiJs.apiErrorOf (Api.mkHttp 401 None)) = KNetwork
  \/ (kindOf (ApiJs.apiErrorOf (Api.mkHttp 401 None)) = KPlain
      /\ nameOf (ApiJs.apiErrorOf (Api.mkHttp 401 None)) <> "TypeError"
      /\ includes (messageOf (ApiJs.apiErrorOf (Api.mkHttp 401 None))) "fetch"
         = false).
Proof.
  apply (makeApiRequest_failure_kinds Examples.jsUnauthorized "url"
           (ApiJs.buildRequestBody Examples.jsConfig "notes") 0).
  reflexivity.
Defined.

(** The same for [api.js], with at least one attempt configured. *)
Lemma js_callbacks_by_return (CONFIG : ApiJs.Config)
  (extract : string -> string) (w : ApiJs.World) (inputText : string)
  (callbacks : ParseCallbacks) :
  (1 <= MAX_ATTEMPTS (ApiJs.RETRY CONFIG))%nat ->
  let t := fst (ApiJs.parseWithAI CONFIG extract w callbacks inputText) in
  match snd (ApiJs.parseWithAI CONFIG extract w callbacks inputText) with
  | Fulfilled (Some d) =>
      filter isOnSuccess t = called (onSuccess callbacks) (OnSuccess d)
      /\ filter isOnError t = []
  | Fulfilled None =>
      filter isOnSuccess t = []
      /\ exists e, filter isOnError t
                   = called (onError callbacks) (OnError (Some e))
  | Rejected _ => False
  end.
Proof.
  intros Hmax t. subst t. unfold ApiJs.parseWithAI.
  destruct (ApiJs.validateInputs (ApiJs.apiKey w) inputText) as [tv [u|e]];
    cbn [fst snd].
  - match goal with
    | |- context [retryLoop ?R ?a ?n ?r ?c ?k 0 None] =>
        pose proof (retryLoop_onSuccess R a n r c
                      (OrchestratorFacts.js_body_throw_no_onSuccess
                         CONFIG extract w callbacks _ _)
                      (js_body_return_onSuccess CONFIG extract w callbacks _ _)
                      k 0 None) as Hsucc;
        pose proof (retryLoop_no_onError R a n r c
                      (OrchestratorFacts.js_body_no_onError
                         CONFIG extract w callbacks _ _)
                      k 0%nat None) as Hquiet;
        pose proof (retryLoop_fell_some R a n r c k 0%nat None Hmax eq_refl)
          as Hsome;
        destruct (retryLoop R a n r c k 0 None) as [t exit]
    end.
    cbn [fst snd] in *.
    destruct exit as [parsed|[lastError|]]; cbn [fst snd];
      [split; assumption | | congruence].
    split.
    + rewrite !filter_app, Hsucc, (no_event_status isOnSuccess) by reflexivity.
      now destruct (onError callbacks).
    + exists lastError.
      rewrite !filter_app, Hquiet, (no_event_status isOnError) by reflexivity.
      now destruct (onError callbacks).
  - split.
    + rewrite filter_app, (no_event_status isOnSuccess) by reflexivity.
      now destruct (onError callbacks).
    + exists e.
      rewrite filter_app, (no_event_status isOnError) by reflexivity.
      now destruct (onError callbacks).
Qed.



End OrchestratorMore.

(** ** The voice session managers, over whole sessions *)

Module VoiceMore.
Import Voice VoiceSession.

Lemma WellFormed_setRecording_false (m : Manager) :
  WellFormed m -> WellFormed (setRecording false m).
Proof.
  intros [_ Ht]. split; [discriminate | exact Ht].
Qed.

Lemma WellFormed_setLanguage (l : string) (m : Manager) :
  WellFormed m -> WellFormed (setLanguage l m).
Proof.
  intros [Hr Ht]. destruct m as [[r|] rec lang cb]; split; cbn in *.
  - reflexivity.
  - intros r' [= <-]. cbn. destruct (Ht r eq_refl) as (Hc & Hi & _).
    repeat split; assumption.
  - exact Hr.
  - discriminate.
Qed.

Lemma WellFormed_started (m : Manager) (b : bool) :
  WellFormed m -> hasTransport m = true ->
  WellFormed (setRecording b (setTransportLang (language m) m)).
Proof.
  intros [Hr Ht] Hhas. destruct m as [[r|] rec lang cb]; [|discriminate].
  split; cbn in *; [reflexivity|].
  intros r' [= <-]. cbn. destruct (Ht r eq_refl) as (Hc & Hi & _).
  repeat split; assumption.
Qed.

Lemma WellFormed_init (m : Manager) :
  WellFormed m -> recognition m = None -> WellFormed (fst (init true m)).
Proof.
  intros [Hr Ht] Hnone. destruct m as [r rec lang cb]. cbn in *. subst r.
  split; cbn; [reflexivity|]. intros r' [= <-]. repeat split.
Qed.

Section Steps.
Variable CHINESE : string.

Lemma ts_start_WellFormed (supported startThrows : bool) (m : Manager) :
  WellFormed m ->
  WellFormed (snd (fst (ts_start CHINESE supported startThrows m))).
Proof.
  intros Hm. unfold ts_start.
  destruct (recognition m) as [r|] eqn:Hrec.
  - cbn [negb]. assert (Hhas : hasTransport m = true)
      by (unfold hasTransport; now rewrite Hrec).
    destruct (hasTransport _ && startThrows); cbn [fst snd].
    + apply WellFormed_setRecording_false. now apply WellFormed_started.
    + now apply WellFormed_started.
  - destruct supported; cbn [init negb fst snd]; [|exact Hm].
    pose proof (WellFormed_init m Hm Hrec) as Hinit. cbn [init negb fst] in Hinit.
    set (m1 := setRecognition _ m) in *.
    assert (Hhas : hasTransport m1 = true) by reflexivity.
    destruct (hasTransport _ && startThrows); cbn [fst snd].
    + apply WellFormed_setRecording_false. now apply WellFormed_started.
    + now apply WellFormed_started.
Qed.

Lemma js_start_WellFormed (supported : bool) (startThrows : option string)
  (m : Manager) :
  WellFormed m ->
  WellFormed (snd (fst (js_start CHINESE supported startThrows m))).
Proof.
  intros Hm. unfold js_start.
  assert (Hgo : forall m1, WellFormed m1 -> hasTransport m1 = true ->
            WellFormed
              (snd (fst
                 (match startThrows with
                  | None =>
                      ([TransportStart
                          (isRecording
                             (setRecording true
                                (setTransportLang (language m1) m1)))],
                       setRecording true (setTransportLang (language m1) m1),
                       true)
                  | Some message =>
                      if JsString.includes message "already started"
                      then
                        ([TransportStart
                            (isRecording
                               (setRecording true
                                  (setTransportLang (language m1) m1)))],
                         setRecording true (setTransportLang (language m1) m1),
                         true)
                      else
                        ([TransportStart
                            (isRecording
                               (setRecording true
                                  (setTransportLang (language m1) m1)))],
                         setRecording false
                           (setRecording true
                              (setTransportLang (language m1) m1)), false)
                  end)))).
  { intros m1 H1 Hhas.
    destruct startThrows as [message|]; [destruct (JsString.includes _ _)|];
      cbn [fst snd];
      first [ now apply WellFormed_started
            | apply WellFormed_setRecording_false;
              now apply WellFormed_started ]. }
  destruct (recognition m) as [r|] eqn:Hrec.
  - cbn [negb]. apply Hgo; [exact Hm|].
    unfold hasTransport; now rewrite Hrec.
  - destruct supported; cbn [init negb fst snd]; [|exact Hm].
    pose proof (WellFormed_init m Hm Hrec) as Hinit. cbn [init negb fst] in Hinit.
    apply Hgo; [exact Hinit | reflexivity].
Qed.

Lemma ts_step_WellFormed (op : Op) (m : Manager) :
  WellFormed m -> WellFormed (snd (ts_step CHINESE op m)).
Proof.
  intros Hm. destruct op; cbn [ts_step].
  - pose proof (ts_start_WellFormed supported (throwsAtAll startThrows) m Hm).
    now destruct (ts_start _ _ _ _) as [[t m'] b].
  - now apply WellFormed_setRecording_false.
  - unfold ts_toggle. destruct (isRecording m).
    + now apply WellFormed_setRecording_false.
    + pose proof (ts_start_WellFormed supported (throwsAtAll startThrows) m Hm).
      now destruct (ts_start _ _ _ _) as [[t m'] b].
  - now apply WellFormed_setLanguage.
  - unfold ts_onend. destruct (isRecording m), (recognition m); exact Hm.
  - exact Hm.
  - unfold ts_onerror. cbn. now apply WellFormed_setRecording_false.
Qed.

Lemma js_step_WellFormed (op : Op) (m : Manager) :
  WellFormed m -> WellFormed (snd (js_step CHINESE op m)).
Proof.
  intros Hm. destruct op; cbn [js_step].
  - pose proof (js_start_WellFormed supported startThrows m Hm).
    now destruct (js_start _ _ _ _) as [[t m'] b].
  - now apply WellFormed_setRecording_false.
  - unfold js_toggle. destruct (isRecording m).
    + now apply WellFormed_setRecording_false.
    + pose proof (js_start_WellFormed supported startThrows m Hm).
      now destruct (js_start _ _ _ _) as [[t m'] b].
  - now apply WellFormed_setLanguage.
  - unfold js_onend. destruct (isRecording m); exact Hm.
  - exact Hm.
  - unfold js_onerror. cbn. now apply WellFormed_setRecording_false.
Qed.

Lemma run_WellFormed (step : Op -> Manager -> list Call * Manager) :
  (forall op m, WellFormed m -> WellFormed (snd (step op m))) ->
  forall ops m, WellFormed m -> WellFormed (snd (run step ops m)).
Proof.
  intros Hstep. induction ops as [|op rest IH]; intros m Hm; [exact Hm|].
  cbn [run]. specialize (Hstep op m Hm).
  destruct (step op m) as [t m1]. cbn [snd] in Hstep.
  specialize (IH m1 Hstep). destruct (run step rest m1) as [t' m2].
  exact IH.
Qed.

End Steps.

Lemma WellFormed_newManager (l : string) (cb : VoiceCallbacks) :
  WellFormed (newManager l cb).
Proof. split; cbn; discriminate. Qed.

(** X19.  Whatever methods are called and whatever events the platform
    fires, in any order and with any of the transport's calls throwing, a
    manager that is recording has a transport, and its transport is
    continuous, delivers interim results and carries the language last
    set; in both managers. *)
Theorem session_invariant (CHINESE defaultLanguage : string)
  (cb : VoiceCallbacks) (ops : list Op) :
  WellFormed (snd (run (ts_step CHINESE) ops (newManager defaultLanguage cb)))
  /\
  WellFormed (snd (run (js_step CHINESE) ops (newManager defaultLanguage cb))).
Proof.
  split; apply run_WellFormed;
    auto using ts_step_WellFormed, js_step_WellFormed, WellFormed_newManager.
Qed.

Section Calls.
Variable CHINESE : string.

Lemma ts_start_flagAgrees (supported startThrows : bool) (m : Manager) :
  forallb flagAgrees (fst (fst (ts_start CHINESE supported startThrows m)))
  = true.
Proof.
  unfold ts_start.
  destruct m as [[r|] rec lang [a b c d]], supported, startThrows, b, c, d;
    reflexivity.
Qed.

Lemma js_start_flagAgrees (supported : bool) (startThrows : option string)
  (m : Manager) :
  forallb flagAgrees (fst (fst (js_start CHINESE supported startThrows m)))
  = true.
Proof.
  unfold js_start.
  destruct m as [[r|] rec lang [a b c d]], supported, b;
    destruct startThrows as [message|];
    cbn; try destruct (JsString.includes message _); reflexivity.
Qed.

Lemma ts_step_flagAgrees (op : Op) (m : Manager) :
  forallb flagAgrees (fst (ts_step CHINESE op m)) = true.
Proof.
  destruct op; cbn [ts_step].
  - pose proof (ts_start_flagAgrees supported (throwsAtAll startThrows) m).
    now destruct (ts_start _ _ _ _) as [[t m'] b].
  - destruct m as [[r|] rec lang [a b c d]], d; reflexivity.
  - unfold ts_toggle. destruct (isRecording m).
    + destruct m as [[r|] rec lang [a b c d]], d; reflexivity.
    + pose proof (ts_start_flagAgrees supported (throwsAtAll startThrows) m).
      now destruct (ts_start _ _ _ _) as [[t m'] b].
  - reflexivity.
  - destruct m as [[r|] [|] lang cb]; reflexivity.
  - reflexivity.
  - destruct m as [[r|] rec lang [a b c d]], b, d; reflexivity.
Qed.

Lemma js_step_flagAgrees (op : Op) (m : Manager) :
  forallb flagAgrees (fst (js_step CHINESE op m)) = true.
Proof.
  destruct op; cbn [js_step].
  - pose proof (js_start_flagAgrees supported startThrows m).
    now destruct (js_start _ _ _ _) as [[t m'] b].
  - destruct m as [[r|] rec lang cb]; reflexivity.
  - unfold js_toggle. destruct (isRecording m).
    + destruct m as [[r|] rec lang cb]; reflexivity.
    + pose proof (js_start_flagAgrees supported startThrows m).
      now destruct (js_start _ _ _ _) as [[t m'] b].
  - reflexivity.
  - destruct m as [[r|] [|] lang [a b c d]]; try destruct d; reflexivity.
  - destruct m as [r rec lang [a b c d]], c; reflexivity.
  - destruct m as [[r|] rec lang [a b c d]], b; reflexivity.
Qed.

Lemma run_forallb (step : Op -> Manager -> list Call * Manager)
  (p : Call -> bool) :
  (forall op m, forallb p (fst (step op m)) = true) ->
  forall ops m, forallb p (fst (run step ops m)) = true.
Proof.
  intros Hstep. induction ops as [|op rest IH]; intros m; [reflexivity|].
  cbn [run]. specialize (Hstep op m).
  destruct (step op m) as [t m1]. specialize (IH m1).
  destruct (run step rest m1) as [t' m2]. cbn [fst] in *.
  rewrite forallb_app, Hstep, IH. reflexivity.
Qed.

End Calls.

(** X20.  Over any session, from any manager, the transport is only
    asked to start by a manager that has already set [isRecording], and
    only asked to stop by one that has already cleared it; in both
    managers. *)
Theorem transport_calls_follow_the_flag (CHINESE : string) (ops : list Op)
  (m : Manager) :
  forallb flagAgrees (fst (run (ts_step CHINESE) ops m)) = true /\
  forallb flagAgrees (fst (run (js_step CHINESE) ops m)) = true.
Proof.
  split; apply run_forallb; intros op m'.
  - apply ts_step_flagAgrees.
  - apply js_step_flagAgrees.
Qed.

(** X21.  An error event of the platform ends the session: the manager
    is idle afterwards, [onError] hears of it once, in the language
    configured when the event fired, and the end event that follows does
    not restart the transport; in both managers. *)
Theorem platform_error_ends_session (CHINESE kind : string)
  (stopThrows restartThrows : bool) (m : Manager) :
  (let (t, m') := ts_onerror CHINESE kind stopThrows m in
   isRecording m' = false /\
   filter isCallOnError t
   = called (Voice.onError (callbacks m))
       (CallOnError (PlatformError (isChinese CHINESE m) kind)) /\
   filter isTransportStart (t ++ fst (ts_onend restartThrows m')) = [])
  /\
  (let (t, m') := js_onerror CHINESE kind stopThrows m in
   isRecording m' = false /\
   filter isCallOnError t
   = called (Voice.onError (callbacks m))
       (CallOnError (PlatformError (isChinese CHINESE m) kind)) /\
   filter isTransportStart (t ++ fst (js_onend restartThrows m')) = []).
Proof.
  destruct m as [[r|] rec lang [a b c d]], b, d;
    cbn; repeat split; reflexivity.
Qed.

(** X22.  For a manager that satisfies the session invariant, [start]
    returns exactly the recording state it leaves behind: [true] with the
    manager recording, [false] with it idle, whether the platform lacks
    the capability or the transport threw; in both managers. *)
Theorem start_returns_recording_state (CHINESE : string) (supported : bool)
  (startThrows : option string) (m : Manager) :
  WellFormed m ->
  snd (ts_start CHINESE supported (throwsAtAll startThrows) m)
  = isRecording
      (snd (fst (ts_start CHINESE supported (throwsAtAll startThrows) m)))
  /\
  snd (js_start CHINESE supported startThrows m)
  = isRecording (snd (fst (js_start CHINESE supported startThrows m))).
Proof.
  intros [Hrec _]. unfold ts_start, js_start.
  destruct m as [[r|] rec lang cb]; cbn in *.
  - destruct startThrows as [message|]; cbn;
      try destruct (JsString.includes message _); split; reflexivity.
  - destruct supported; cbn.
    + destruct startThrows as [message|]; cbn;
        try destruct (JsString.includes message _); split; reflexivity.
    + destruct rec; [discriminate (Hrec eq_refl)|]. split; reflexivity.
Qed.

Lemma start_returns_recording_state_witness :
  snd (ts_start "zh-TW" false false Examples.freshManager)
  = isRecording (snd (fst (ts_start "zh-TW" false false Examples.freshManager)))
  /\
  snd (js_start "zh-TW" false None Examples.freshManager)
  = isRecording (snd (fst (js_start "zh-TW" false None Examples.freshManager))).
Proof.
  apply (start_returns_recording_state "zh-TW" false None
           Examples.freshManager).
  split; cbn; discriminate.
Defined.

(** X23.  On a platform that offers the capability and whose transport
    starts without throwing, [toggle] flips the recording state and
    returns the new one, from any manager; in both managers. *)
Theorem toggle_flips_recording_state (CHINESE : string) (stopThrows : bool)
  (m : Manager) :
  (let '(_, m', now) := ts_toggle CHINESE true false stopThrows m in
   isRecording m' = negb (isRecording m) /\ now = negb (isRecording m))
  /\
  (let '(_, m', now) := js_toggle CHINESE true None stopThrows m in
   isRecording m' = negb (isRecording m) /\ now = negb (isRecording m)).
Proof.
  destruct m as [[r|] [|] lang cb]; cbn; repeat split; reflexivity.
Qed.

Lemma skipn_nth_error {A : Type} (l : list A) (i : nat) (x : A) :
  nth_error l i = Some x -> skipn i l = x :: skipn (S i) l.
Proof.
  revert i. induction l as [|y l IH]; intros [|i] H;
    try discriminate H.
  - now injection H as ->.
  - cbn [skipn]. now apply IH.
Qed.

Lemma nth_error_in_range {A : Type} (l : list A) (i k : nat) :
  S k = (List.length l - i)%nat -> exists x, nth_error l i = Some x.
Proof.
  intros H. destruct (nth_error l i) as [x|] eqn:Hnth; [now exists x|].
  apply nth_error_None in Hnth. lia.
Qed.

Lemma ts_collect_finalText (steps i : nat) (rs : list SpeechResult)
  (acc : string) :
  steps = (List.length rs - i)%nat ->
  ts_collect steps i rs acc = acc ++ finalText (skipn i rs).
Proof.
  revert i acc. induction steps as [|k IH]; intros i acc Hsteps.
  - rewrite skipn_all2 by lia. cbn. now rewrite StringFacts.append_empty_r.
  - destruct (nth_error_in_range rs i k Hsteps) as [x Hx].
    cbn [ts_collect]. rewrite Hx, (skipn_nth_error rs i x Hx).
    rewrite IH by lia. cbn [finalText].
    destruct (alternative x) as [transcript|]; [|reflexivity].
    destruct (isFinal x); [|reflexivity].
    now rewrite !StringFacts.append_assoc.
Qed.

Lemma js_collect_texts (steps i : nat) (rs : list SpeechResult)
  (acc acc' : string) :
  steps = (List.length rs - i)%nat ->
  forallb hasAlternative (skipn i rs) = true ->
  js_collect steps i rs acc acc'
  = Some (acc ++ finalText (skipn i rs), acc' ++ interimText (skipn i rs)).
Proof.
  revert i acc acc'. induction steps as [|k IH]; intros i acc acc' Hsteps Hall.
  - rewrite skipn_all2 by lia. cbn.
    now rewrite !StringFacts.append_empty_r.
  - destruct (nth_error_in_range rs i k Hsteps) as [x Hx].
    cbn [js_collect]. rewrite Hx.
    rewrite (skipn_nth_error rs i x Hx) in *.
    cbn [forallb finalText interimText] in *.
    apply andb_true_iff in Hall as [Hhas Hrest].
    unfold hasAlternative in Hhas.
    destruct (alternative x) as [transcript|]; [|discriminate Hhas].
    destruct (isFinal x); rewrite IH by (lia || assumption);
      now rewrite !StringFacts.append_assoc.
Qed.

Lemma finalText_truthy (rs : list SpeechResult) :
  Effects.truthy (finalText rs) = existsb isCommitted rs.
Proof.
  induction rs as [|x rs IH]; [reflexivity|].
  cbn [finalText existsb]. unfold isCommitted at 1.
  destruct (alternative x) as [transcript|]; [|exact IH].
  destruct (isFinal x); [|exact IH].
  now destruct transcript.
Qed.

(** X24.  The [onresult] handler of [form-populator.ts] hands [onResult]
    the transcripts of the entries from [resultIndex] on that are final
    and have a first alternative, each followed by a space, and calls it
    exactly when there is such an entry and the callback was supplied: a
    final entry with an empty transcript still produces a call. *)
Theorem ts_onresult_commits_final_entries (event : SpeechEvent) (m : Manager) :
  let fresh := skipn (resultIndex event) (results event) in
  ts_onresult event m
  = if existsb isCommitted fresh && onResult (callbacks m)
    then Some (finalText fresh) else None.
Proof.
  intros fresh. unfold ts_onresult.
  rewrite ts_collect_finalText by reflexivity.
  cbn [append]. fold fresh. now rewrite finalText_truthy.
Qed.

Lemma js_collect_throws (steps i : nat) (rs : list SpeechResult)
  (acc acc' : string) :
  steps = (List.length rs - i)%nat ->
  forallb hasAlternative (skipn i rs) = false ->
  js_collect steps i rs acc acc' = None.
Proof.
  revert i acc acc'. induction steps as [|k IH]; intros i acc acc' Hsteps Hsome.
  - rewrite skipn_all2 in Hsome by lia. discriminate Hsome.
  - destruct (nth_error_in_range rs i k Hsteps) as [x Hx].
    cbn [js_collect]. rewrite Hx.
    rewrite (skipn_nth_error rs i x Hx) in Hsome.
    cbn [forallb] in Hsome. unfold hasAlternative at 1 in Hsome.
    destruct (alternative x) as [transcript|]; [|reflexivity].
    cbn [andb] in Hsome.
    destruct (isFinal x); apply IH; (lia || assumption).
Qed.

(** X25.  When every entry from [resultIndex] on has a first alternative,
    the [onresult] handler of the JavaScript module hands [onResult]
    exactly what the TypeScript handler hands it, then hands [onInterim]
    the transcripts of the entries that are not final; when some entry has
    none it throws and calls nothing, where the TypeScript handler skips
    the entry. *)
Theorem js_onresult_agrees_with_ts (event : SpeechEvent) (onInterim : bool)
  (m : Manager) :
  let fresh := skipn (resultIndex event) (results event) in
  js_onresult event onInterim m
  = if forallb hasAlternative fresh
    then Some ((match ts_onresult event m with
                | Some finalTranscript => [HeardResult finalTranscript]
                | None => []
                end)
               ++ (if Effects.truthy (interimText fresh) && onInterim
                   then [HeardInterim (interimText fresh)] else []))%list
    else None.
Proof.
  intros fresh. unfold js_onresult, ts_onresult.
  destruct (forallb hasAlternative fresh) eqn:Hall.
  - rewrite (js_collect_texts _ _ _ EmptyString EmptyString eq_refl Hall).
    rewrite ts_collect_finalText by reflexivity.
    cbn [append]. fold fresh.
    now destruct (Effects.truthy (finalText fresh) && onResult (callbacks m)).
  - now rewrite (js_collect_throws _ _ _ EmptyString EmptyString eq_refl Hall).
Qed.

End VoiceMore.

(** ** The stored credential *)

Module StorageFacts.
Import Storage.

Lemma getItem_setItem (key value : string) (ls : LocalStorage) :
  getItem key (setItem key value ls) = Some value.
Proof. unfold getItem, setItem. now rewrite String.eqb_refl. Qed.

Lemma getItem_setItem_other (key other value : string) (ls : LocalStorage) :
  other <> key -> getItem other (setItem key value ls) = getItem other ls.
Proof.
  intros Hne. unfold getItem, setItem.
  now apply String.eqb_neq in Hne as ->.
Qed.

Lemma getItem_removeItem (key : string) (ls : LocalStorage) :
  getItem key (removeItem key ls) = None.
Proof. unfold getItem, removeItem. now rewrite String.eqb_refl. Qed.

Lemma getItem_removeItem_other (key other : string) (ls : LocalStorage) :
  other <> key -> getItem other (removeItem key ls) = getItem other ls.
Proof.
  intros Hne. unfold getItem, removeItem.
  now apply String.eqb_neq in Hne as ->.
Qed.

(** X26.  A credential saved and read back, with [localStorage] working:
    a key that is not JSON text, or is the text of [null], comes back as
    the string that was saved; a key that reads as any other JSON value (a
    run of digits, say) comes back as that value, not as the string.  A
    save that failed changes nothing, and a read that failed gives
    [null]. *)
Theorem ApiKeyManager_round_trip (key : string) (ls : LocalStorage) :
  ApiKeyManager_get false (ApiKeyManager_save false key ls)
  = match Json.parse key with
    | None | Some Json.JNull => Item key
    | Some parsed => Parsed parsed
    end
  /\ ApiKeyManager_get false (ApiKeyManager_save true key ls)
     = ApiKeyManager_get false ls
  /\ ApiKeyManager_get true (ApiKeyManager_save false key ls) = DefaultValue.
Proof.
  unfold ApiKeyManager_get, ApiKeyManager_save, loadFromStorage, saveToStorage.
  rewrite getItem_setItem. unfold safeJsonParse.
  split; [|split; reflexivity].
  destruct (Json.parse key) as [[]|]; reflexivity.
Qed.

(** X27.  The managers keep to their own items.  After a clear of the
    credential whose [removeItem] did not throw, [get] returns [null]
    whatever was saved before; a clear whose [removeItem] threw changes
    nothing.  Saving or clearing the credential does not change what the
    model and background managers read, and saving a model or a
    background, or clearing the background, does not change the
    credential read. *)
Theorem managers_do_not_interfere (s1 s2 t : bool) (key value : string)
  (ls : LocalStorage) :
  ApiKeyManager_get t (ApiKeyManager_clear false (ApiKeyManager_save s1 key ls))
  = DefaultValue
  /\ ApiKeyManager_get t (ApiKeyManager_clear true ls) = ApiKeyManager_get t ls
  /\ ModelManager_get t (ApiKeyManager_save s1 key ls)
     = ModelManager_get t ls
  /\ ModelManager_get t (ApiKeyManager_clear s1 ls) = ModelManager_get t ls
  /\ BackgroundManager_get t (ApiKeyManager_save s1 key ls)
     = BackgroundManager_get t ls
  /\ BackgroundManager_get t (ApiKeyManager_clear s1 ls)
     = BackgroundManager_get t ls
  /\ ApiKeyManager_get t
       (BackgroundManager_save s1 value (ModelManager_save s2 value ls))
     = ApiKeyManager_get t ls
  /\ ApiKeyManager_get t (BackgroundManager_clear s1 ls)
     = ApiKeyManager_get t ls.
Proof.
  unfold ApiKeyManager_get, ApiKeyManager_clear, ApiKeyManager_save,
    ModelManager_get, ModelManager_save, BackgroundManager_get,
    BackgroundManager_save, BackgroundManager_clear,
    loadFromStorage, saveToStorage, removeFromStorage.
  destruct t; [repeat split; reflexivity|].
  split; [now rewrite getItem_removeItem|].
  split; [reflexivity|].
  destruct s1, s2; repeat split;
    rewrite ?getItem_setItem_other, ?getItem_removeItem_other
      by discriminate;
    reflexivity.
Qed.

End StorageFacts.
